(** * Network VPC stack of the landing-zone accelerator: a shallow embedding

    The development follows two source files:

    - [compliant-constructs/lib/secure-vpc.ts]: the construct wrappers
      [SecureVpc], [SecureRouteTable], [SecureSubnet], [SecureNatGateway];
    - [accelerator/lib/stacks/network-vpc-stack.ts]: the constructor of
      [NetworkVpcStack], which walks the network configuration and
      instantiates the constructs.

    Synthesis is a sequence of construct instantiations under a scope.  It is
    modelled by explicit state passing: the state is the list of resources
    declared so far, in declaration order, together with the console output;
    a computation either returns a value or throws, and the state reached at
    the throw is kept, so that one can tell what had been declared when the
    pass aborted.

    What belongs to the infrastructure SDK is a parameter of the development:
    the reference token of a resource ([ref]), [pascalCase], the token of a
    parameter-store value and the identifiers returned by the resource-share
    lookups (class [Sdk]).  The SDK's own validation of the construct tree
    (such as the uniqueness of construct ids under one scope) is outside the
    model.

    The file has three parts: the embedding of the two source files; the
    vocabulary of the statements and the sample data; the properties, each
    stated on the embedding, followed by their instances on the sample
    data. *)

From Stdlib Require Import ZArith.
From stdpp Require Import gmap strings list fin_maps.

Set Default Proof Using "Type".

(** ** Strings *)

(** JavaScript's [String.prototype.includes]. *)
Fixpoint includes (s sub : string) : bool :=
  if String.prefix sub s then true
  else match s with
       | EmptyString => false
       | String _ s' => includes s' sub
       end.

(** JavaScript's [Array.prototype.indexOf], with strict equality. *)
Fixpoint indexOf {A : Type} `{EqDecision A} (l : list A) (x : A) : Z :=
  match l with
  | [] => (-1)%Z
  | y :: l' =>
      if decide (y = x) then 0%Z
      else let i := indexOf l' x in
           if (i =? -1)%Z then (-1)%Z else (i + 1)%Z
  end.

(** [arr.indexOf(x) == -1 ? arr.push(x) : nothing] *)
Definition pushIfAbsent {A : Type} `{EqDecision A} (l : list A) (x : A) : list A :=
  if (indexOf l x =? -1)%Z then l ++ [x] else l.

(** Truthiness of an optional string ([undefined] and [''] are falsy) and of
    an optional boolean. *)
Definition truthyString (o : option string) : bool :=
  match o with
  | Some s => negb (String.eqb s "")
  | None => false
  end.

Definition truthyBool (o : option bool) : bool :=
  match o with
  | Some b => b
  | None => false
  end.

(** [xs ?? []] *)
Definition orEmpty {A : Type} (o : option (list A)) : list A :=
  match o with
  | Some l => l
  | None => []
  end.

(** ** The construct tree *)

(** A construct is addressed by the ids from the stack down to it. *)
Abbreviation Path := (list string).

Inductive RouteTarget :=
| TransitGatewayId (id : string)
| NatGatewayId (id : string)
| GatewayId (id : string).

(** The owner a resource share is looked up for; the constructor only uses
    [ResourceShareOwner.OTHER_ACCOUNTS]. *)
Inductive ResourceShareOwner :=
| OTHER_ACCOUNTS.

Inductive Resource :=
| CfnVPC (node : Path) (cidrBlock : option string)
    (enableDnsHostnames enableDnsSupport : option bool)
    (instanceTenancy : option string) (nameTag : string)
| CfnInternetGateway (node : Path)
| CfnVPCGatewayAttachment (node : Path) (internetGatewayId vpcId : string)
| CfnRouteTable (node : Path) (vpcId nameTag : string)
| CfnRoute (node : Path) (routeTableId destinationCidrBlock : string)
    (target : RouteTarget) (dependsOn : list Path)
| CfnSubnet (node : Path) (vpcId : string) (cidrBlock availabilityZone : string)
    (mapPublicIpOnLaunch : option bool) (nameTag : string)
| CfnSubnetRouteTableAssociation (node : Path) (subnetId routeTableId : string)
| CfnEIP (node : Path) (domain : string)
| CfnNatGateway (node : Path) (subnetId allocationId nameTag : string)
| CfnVPCEndpoint (node : Path) (serviceName vpcId : string) (routeTableIds : list string)
| CfnTransitGatewayAttachment (node : Path) (nameTag transitGatewayId : string)
    (subnetIds : list string) (vpcId : string)
| StringParameter (node : Path) (parameterName stringValue : string)
| StringParameterLookup (parameterName : string)
| ResourceShareLookup (node : Path) (resourceShareOwner : ResourceShareOwner)
    (resourceShareName : string) (owningAccountId : option string)
| ResourceShareItemLookup (node : Path) (resourceShareId resourceShareItemType : string)
| Role (node : Path) (roleName : string) (assumedBy : list (option string))
    (actions resourcesAllowed : list string)
| DeleteDefaultVpc (node : Path).

Record Assembly := mkAssembly {
  resources : list Resource;
  console : list string
}.

Inductive Outcome (A : Type) :=
| Ok (a : A)
| Throw (msg : string).
Arguments Ok {A} a.
Arguments Throw {A} msg.

Definition Synth (A : Type) : Type := Assembly -> Assembly * Outcome A.

Definition ret {A : Type} (a : A) : Synth A := fun s => (s, Ok a).

Definition bind {A B : Type} (c : Synth A) (k : A -> Synth B) : Synth B :=
  fun s =>
    match c s with
    | (s', Ok a) => k a s'
    | (s', Throw msg) => (s', Throw msg)
    end.

(** [throw new Error(msg)] *)
Definition throw {A : Type} (msg : string) : Synth A := fun s => (s, Throw msg).

(** Instantiating a resource under the scope. *)
Definition declare (r : Resource) : Synth unit :=
  fun s => (mkAssembly (resources s ++ [r]) (console s), Ok tt).

(** [console.log(line)] *)
Definition log (line : string) : Synth unit :=
  fun s => (mkAssembly (resources s) (console s ++ [line]), Ok tt).

Declare Scope synth_scope.
Delimit Scope synth_scope with synth.
Bind Scope synth_scope with Synth.
Notation "'let*' x := c1 'in' c2" := (bind c1 (fun x => c2))
  (at level 10, x name, c1 at level 100, c2 at level 200) : synth_scope.
Notation "'let*' ' pat := c1 'in' c2" :=
  (bind c1 (fun x => match x with pat => c2 end))
  (at level 10, pat pattern, c1 at level 100, c2 at level 200) : synth_scope.
Notation "c1 ;;; c2" := (bind c1 (fun _ => c2))
  (at level 100, c2 at level 200, right associativity) : synth_scope.
Local Open Scope synth_scope.

(** A [for (const x of l)] loop whose body updates the local variables [acc]. *)
Fixpoint forEach {A B : Type} (body : B -> A -> Synth B) (l : list A) (acc : B) : Synth B :=
  match l with
  | [] => ret acc
  | x :: l' => let* acc' := body acc x in forEach body l' acc'
  end.

(** ** Construct objects *)

Record SecureVpc := mkSecureVpc {
  vpcNode : Path;
  secureVpcId : string;
  internetGatewayId : option string
}.

Record SecureRouteTable := mkSecureRouteTable {
  routeTableNode : Path;
  secureRouteTableId : string;
  vpc : SecureVpc
}.

Record SecureSubnet := mkSecureSubnet {
  subnetNode : Path;
  subnetName : string;
  availabilityZone : string;
  ipv4CidrBlock : string;
  mapPublicIpOnLaunch : option bool;
  routeTable : SecureRouteTable;
  subnetId : string
}.

Record SecureNatGateway := mkSecureNatGateway {
  natGatewayNode : Path;
  natGatewayId : string;
  natGatewayName : string
}.

Record SecureVpcProps := mkSecureVpcProps {
  vp_name : string;
  vp_ipv4CidrBlock : option string;
  vp_enableDnsHostnames : option bool;
  vp_enableDnsSupport : option bool;
  vp_instanceTenancy : option string;
  vp_internetGateway : option bool
}.

Record SecureSubnetProps := mkSecureSubnetProps {
  sp_name : string;
  sp_availabilityZone : string;
  sp_ipv4CidrBlock : string;
  sp_mapPublicIpOnLaunch : option bool;
  sp_routeTable : SecureRouteTable;
  sp_vpc : SecureVpc
}.

(** The SDK and the libraries the code calls: [resource.ref],
    [resource.getAtt(attr)], the name of a gateway-endpoint service
    ([new ec2.GatewayVpcEndpointAwsService(service).name]), [pascalCase] of
    change-case, the token of [ssm.StringParameter.valueForStringParameter]
    and the identifiers found by the resource-share lookups. *)
Class Sdk := mkSdk {
  cfnRef : Path -> string;
  cfnGetAtt : Path -> string -> string;
  gatewayServiceName : string -> string;
  pascalCase : string -> string;
  valueForStringParameter : string -> string;
  resourceShareId : string -> option string -> string;
  resourceShareItemId : string -> string -> string
}.

Section Constructs.

Context {sdk : Sdk}.

(** *** secure-vpc.ts *)

(** [new SecureVpc(scope, id, props)] *)
Definition newSecureVpc (scope : Path) (id : string) (props : SecureVpcProps)
  : Synth SecureVpc :=
  let this := scope ++ [id] in
  declare (CfnVPC (this ++ ["Resource"]) (vp_ipv4CidrBlock props)
             (vp_enableDnsHostnames props) (vp_enableDnsSupport props)
             (vp_instanceTenancy props) (vp_name props)) ;;;
  let secureVpcId := cfnRef (this ++ ["Resource"]) in
  if truthyBool (vp_internetGateway props) then
    declare (CfnInternetGateway (this ++ ["InternetGateway"])) ;;;
    let igw := cfnRef (this ++ ["InternetGateway"]) in
    declare (CfnVPCGatewayAttachment (this ++ ["InternetGatewayAttachment"])
               igw secureVpcId) ;;;
    ret (mkSecureVpc this secureVpcId (Some igw))
  else
    ret (mkSecureVpc this secureVpcId None).

(** [SecureVpc.addGatewayVpcEndpoint(id, service, routeTableIds)] *)
Definition addGatewayVpcEndpoint (this : SecureVpc) (id service : string)
    (routeTableIds : list string) : Synth unit :=
  declare (CfnVPCEndpoint (vpcNode this ++ [id]) (gatewayServiceName service)
             (secureVpcId this) routeTableIds).

(** [new SecureRouteTable(scope, id, {name, vpc})] *)
Definition newSecureRouteTable (scope : Path) (id : string) (name : string)
    (v : SecureVpc) : Synth SecureRouteTable :=
  let this := scope ++ [id] in
  declare (CfnRouteTable (this ++ ["Resource"]) (secureVpcId v) name) ;;;
  ret (mkSecureRouteTable this (cfnRef (this ++ ["Resource"])) v).

(** [SecureRouteTable.addTransitGatewayRoute]; the last argument is the
    resource the route is made to depend on. *)
Definition addTransitGatewayRoute (this : SecureRouteTable) (id destination : string)
    (transitGatewayId : string) (transitGatewayAttachment : Path) : Synth unit :=
  declare (CfnRoute (routeTableNode this ++ [id]) (secureRouteTableId this)
             destination (TransitGatewayId transitGatewayId)
             [transitGatewayAttachment]).

(** [SecureRouteTable.addNatGatewayRoute] *)
Definition addNatGatewayRoute (this : SecureRouteTable) (id destination : string)
    (natGatewayId : string) : Synth unit :=
  declare (CfnRoute (routeTableNode this ++ [id]) (secureRouteTableId this)
             destination (NatGatewayId natGatewayId) []).

Definition igwError : string :=
  "Attempting to add Internet Gateway route without an IGW defined.".

(** [SecureRouteTable.addInternetGatewayRoute]: the guard is
    [!this.vpc.internetGatewayId]. *)
Definition addInternetGatewayRoute (this : SecureRouteTable) (id destination : string)
  : Synth unit :=
  if negb (truthyString (internetGatewayId (vpc this))) then
    throw igwError
  else
    match internetGatewayId (vpc this) with
    | Some igw =>
        declare (CfnRoute (routeTableNode this ++ [id]) (secureRouteTableId this)
                   destination (GatewayId igw) [])
    | None => throw igwError
    end.

(** [new SecureSubnet(scope, id, props)] *)
Definition newSecureSubnet (scope : Path) (id : string) (props : SecureSubnetProps)
  : Synth SecureSubnet :=
  let this := scope ++ [id] in
  declare (CfnSubnet (this ++ ["Resource"]) (secureVpcId (sp_vpc props))
             (sp_ipv4CidrBlock props) (sp_availabilityZone props)
             (sp_mapPublicIpOnLaunch props) (sp_name props)) ;;;
  let subnetId := cfnRef (this ++ ["Resource"]) in
  declare (CfnSubnetRouteTableAssociation (this ++ ["RouteTableAssociation"])
             subnetId (secureRouteTableId (sp_routeTable props))) ;;;
  ret (mkSecureSubnet this (sp_name props) (sp_availabilityZone props)
         (sp_ipv4CidrBlock props) (sp_mapPublicIpOnLaunch props)
         (sp_routeTable props) subnetId).

(** [new SecureNatGateway(scope, id, {name, subnet})] *)
Definition newSecureNatGateway (scope : Path) (id : string) (name : string)
    (subnet : SecureSubnet) : Synth SecureNatGateway :=
  let this := scope ++ [id] in
  declare (CfnEIP (this ++ ["Eip"]) "vpc") ;;;
  declare (CfnNatGateway (this ++ ["Resource"]) (subnetId subnet)
             (cfnGetAtt (this ++ ["Eip"]) "AllocationId") name) ;;;
  ret (mkSecureNatGateway this (cfnRef (this ++ ["Resource"])) name).

End Constructs.

(** ** network-vpc-stack.ts *)

(** *** The configuration

    The declarations of the configuration classes are not among the sources;
    the records below have the fields the constructor reads, optional where
    the constructor guards them with [??] or [?.]. *)

Record RouteTableEntryConfig := mkRouteTableEntryConfig {
  re_name : string;
  re_destination : string;
  re_type : string;
  re_target : string
}.

Record RouteTableConfig := mkRouteTableConfig {
  rt_name : string;
  rt_routes : option (list RouteTableEntryConfig)
}.

Record SubnetConfig := mkSubnetConfig {
  sn_name : string;
  sn_availabilityZone : string;
  sn_routeTable : string;
  sn_ipv4CidrBlock : string;
  sn_mapPublicIpOnLaunch : option bool
}.

Record NatGatewayConfig := mkNatGatewayConfig {
  ng_name : string;
  ng_subnet : string
}.

Record TransitGatewayRef := mkTransitGatewayRef {
  tgw_name : string;
  tgw_account : string
}.

Record TransitGatewayAttachmentConfig := mkTransitGatewayAttachmentConfig {
  ta_name : string;
  ta_transitGateway : TransitGatewayRef;
  ta_subnets : option (list string)
}.

Record VpcConfig := mkVpcConfig {
  vpc_name : string;
  vpc_account : string;
  vpc_region : string;
  vpc_cidrs : list string;
  vpc_internetGateway : option bool;
  vpc_enableDnsHostnames : option bool;
  vpc_enableDnsSupport : option bool;
  vpc_instanceTenancy : option string;
  vpc_routeTables : option (list RouteTableConfig);
  vpc_subnets : option (list SubnetConfig);
  vpc_natGateways : option (list NatGatewayConfig);
  vpc_transitGatewayAttachments : option (list TransitGatewayAttachmentConfig);
  vpc_gatewayEndpoints : option (list string)
}.

Record NetworkConfig := mkNetworkConfig {
  defaultVpc_delete : option bool;
  vpcs : option (list VpcConfig)
}.

(** [props.accountIds] is an object indexed by e-mail address and
    [props.accountsConfig.getEmail] maps an account name to its address. *)
Record AcceleratorStackProps := mkAcceleratorStackProps {
  accountIds : gmap string string;
  getEmail : string -> string;
  networkConfig : NetworkConfig
}.

(** What [cdk.Stack.of(this)] answers. *)
Record Env := mkEnv {
  account : string;
  region : string;
  stackName : string;
  stackId : string
}.

(** *** Constructs of the accelerator *)

Record TransitGatewayAttachment := mkTransitGatewayAttachment {
  attachmentNode : Path;
  transitGatewayAttachmentName : string;
  transitGatewayAttachmentId : string
}.

(** Modelled from the spec: the constructs [Vpc], [RouteTable], [Subnet] and
    [NatGateway] of the package @aws-accelerator/constructs, which the stack
    instantiates, are not among the sources.  Section 4.1 of the spec
    describes the construct layer as the wrappers of secure-vpc.ts, so the
    stack is given these wrappers, with the attribute names it uses. *)
Abbreviation vpcId := secureVpcId.
Abbreviation routeTableId := secureRouteTableId.

Section Stack.

Context {sdk : Sdk}.
Variable env : Env.
Variable props : AcceleratorStackProps.

(** Modelled from the spec: the construct [TransitGatewayAttachment] of
    @aws-accelerator/constructs is not among the sources; it wraps one
    attachment resource (its default child) binding a VPC, through the given
    subnets, to a transit gateway, and exposes the identifier of that
    resource. *)
Definition newTransitGatewayAttachment (scope : Path) (id : string)
    (name transitGatewayId : string) (subnetIds : list string) (vpcId : string)
  : Synth TransitGatewayAttachment :=
  let this := scope ++ [id] in
  declare (CfnTransitGatewayAttachment (this ++ ["Resource"]) name transitGatewayId
             subnetIds vpcId) ;;;
  ret (mkTransitGatewayAttachment this name (cfnRef (this ++ ["Resource"]))).

(** [transitGatewayAttachment.node.defaultChild] *)
Definition defaultChild (a : TransitGatewayAttachment) : Path :=
  attachmentNode a ++ ["Resource"].

(** [new ssm.StringParameter(this, id, {parameterName, stringValue})] *)
Definition newStringParameter (id parameterName stringValue : string) : Synth unit :=
  declare (StringParameter [id] parameterName stringValue).

(** [props.accountIds[props.accountsConfig.getEmail(account)]] *)
Definition accountIdOf (accountName : string) : option string :=
  accountIds props !! getEmail props accountName.

(** The test both passes apply to a VPC definition:
    [accountId === cdk.Stack.of(this).account && vpcItem.region == cdk.Stack.of(this).region] *)
Definition inThisStack (vpcItem : VpcConfig) : bool :=
  bool_decide (accountIdOf (vpc_account vpcItem) = Some (account env))
  && bool_decide (vpc_region vpcItem = region env).

(** *** Transit gateway resolution (lines 54-123) *)

(** The body of the loop over the attachments; the local variables are the
    map [transitGatewayIds] and the array [transitGatewayAccountIds]. *)
Definition resolveTransitGateway
    (acc : gmap string string * list (option string))
    (attachment : TransitGatewayAttachmentConfig)
  : Synth (gmap string string * list (option string)) :=
  let '(transitGatewayIds, transitGatewayAccountIds) := acc in
  let name := tgw_name (ta_transitGateway attachment) in
  log ("Evaluating Transit Gateway key " +:+ name) ;;;
  match transitGatewayIds !! name with
  | Some _ =>
      log ("Transit Gateway " +:+ name +:+ " already in dictionary") ;;;
      ret acc
  | None =>
      log ("Transit Gateway key " +:+ name
           +:+ " is not in map, add resources to look up") ;;;
      let owningAccountId := accountIdOf (tgw_account (ta_transitGateway attachment)) in
      if decide (owningAccountId = Some (account env)) then
        let parameterName := "/accelerator/network/transitGateways/" +:+ name +:+ "/id" in
        declare (StringParameterLookup parameterName) ;;;
        let transitGatewayId := valueForStringParameter parameterName in
        log ("Adding [" +:+ name +:+ "]: " +:+ transitGatewayId
             +:+ " to transitGatewayIds Map") ;;;
        ret (<[name := transitGatewayId]> transitGatewayIds, transitGatewayAccountIds)
      else
        let transitGatewayAccountIds' :=
          pushIfAbsent transitGatewayAccountIds owningAccountId in
        let shareName := pascalCase (name +:+ "TransitGatewayShare") in
        declare (ResourceShareLookup [shareName] OTHER_ACCOUNTS shareName
                   owningAccountId) ;;;
        let shareId := resourceShareId shareName owningAccountId in
        log shareId ;;;
        declare (ResourceShareItemLookup [pascalCase (name +:+ "TransitGateway")]
                   shareId "ec2:TransitGateway") ;;;
        let tgwId := resourceShareItemId shareId "ec2:TransitGateway" in
        log ("Adding [" +:+ name +:+ "]: " +:+ tgwId +:+ " to transitGatewayIds Map") ;;;
        ret (<[name := tgwId]> transitGatewayIds, transitGatewayAccountIds')
  end.

(** The outer loop over the VPC definitions. *)
Definition resolveTransitGateways (vpcItems : list VpcConfig)
  : gmap string string * list (option string)
    -> Synth (gmap string string * list (option string)) :=
  forEach
    (fun acc vpcItem =>
       if inThisStack vpcItem then
         forEach resolveTransitGateway
           (orEmpty (vpc_transitGatewayAttachments vpcItem)) acc
       else ret acc)
    vpcItems.

(** *** Cross-account access role (lines 127-149) *)

Definition createAccessRole (transitGatewayAccountIds : list (option string))
  : Synth unit :=
  if (0 <? length transitGatewayAccountIds)%nat then
    log "Create IAM Cross Account Access Role" ;;;
    declare (Role ["DescribeTransitGatewaysAttachmentsRole"]
               "AWSAccelerator-DescribeTransitGatewayAttachmentsRole"
               transitGatewayAccountIds
               ["ec2:DescribeTransitGatewayAttachments"] ["*"])
  else ret tt.

(** *** Per-VPC build (lines 157-404) *)

(** The parameter names under which identifiers are published. *)
Definition vpcParameterName (vpcName : string) : string :=
  "/accelerator/network/vpc/" +:+ vpcName +:+ "/id".

Definition resourceParameterName (vpcName resourceKind resourceName : string) : string :=
  "/accelerator/network/vpc/" +:+ vpcName +:+ "/" +:+ resourceKind +:+ "/"
  +:+ resourceName +:+ "/id".

(** Create the VPC (lines 162-173); [Vpc] is the wrapper [SecureVpc]. *)
Definition createVpc (vpcItem : VpcConfig) : Synth SecureVpc :=
  let* vpc := newSecureVpc [] (pascalCase (vpc_name vpcItem +:+ "Vpc"))
                (mkSecureVpcProps (vpc_name vpcItem) (head (vpc_cidrs vpcItem))
                   (Some (default false (vpc_enableDnsHostnames vpcItem)))
                   (Some (default true (vpc_enableDnsSupport vpcItem)))
                   (Some (default "default" (vpc_instanceTenancy vpcItem)))
                   (vpc_internetGateway vpcItem)) in
  newStringParameter
    (pascalCase ("SsmParam" +:+ pascalCase (vpc_name vpcItem) +:+ "VpcId"))
    (vpcParameterName (vpc_name vpcItem)) (vpcId vpc) ;;;
  ret vpc.

(** Create Route Tables (lines 182-201): the body of the loop. *)
Definition createRouteTable (vpcItem : VpcConfig) (vpc : SecureVpc)
    (routeTableMap : gmap string SecureRouteTable) (routeTableItem : RouteTableConfig)
  : Synth (gmap string SecureRouteTable) :=
  let* routeTable :=
    newSecureRouteTable []
      (pascalCase (vpc_name vpcItem +:+ "Vpc")
       +:+ pascalCase (rt_name routeTableItem +:+ "RouteTable"))
      (rt_name routeTableItem) vpc in
  newStringParameter
    (pascalCase ("SsmParam" +:+ pascalCase (vpc_name vpcItem)
                 +:+ pascalCase (rt_name routeTableItem) +:+ "RouteTableId"))
    (resourceParameterName (vpc_name vpcItem) "routeTable" (rt_name routeTableItem))
    (routeTableId routeTable) ;;;
  ret (<[rt_name routeTableItem := routeTable]> routeTableMap).

(** Create Subnets (lines 210-236): the body of the loop. *)
Definition createSubnet (vpcItem : VpcConfig) (vpc : SecureVpc)
    (routeTableMap : gmap string SecureRouteTable)
    (subnetMap : gmap string SecureSubnet) (subnetItem : SubnetConfig)
  : Synth (gmap string SecureSubnet) :=
  log ("Adding subnet " +:+ sn_name subnetItem) ;;;
  match routeTableMap !! sn_routeTable subnetItem with
  | None => throw ("Route table " +:+ sn_routeTable subnetItem +:+ " not defined")
  | Some routeTable =>
      let* subnet :=
        newSecureSubnet []
          (pascalCase (vpc_name vpcItem +:+ "Vpc")
           +:+ pascalCase (sn_name subnetItem +:+ "Subnet"))
          (mkSecureSubnetProps (sn_name subnetItem)
             (region env +:+ sn_availabilityZone subnetItem)
             (sn_ipv4CidrBlock subnetItem) (sn_mapPublicIpOnLaunch subnetItem)
             routeTable vpc) in
      newStringParameter
        (pascalCase ("SsmParam" +:+ pascalCase (vpc_name vpcItem)
                     +:+ pascalCase (sn_name subnetItem) +:+ "SubnetId"))
        (resourceParameterName (vpc_name vpcItem) "subnet" (sn_name subnetItem))
        (subnetId subnet) ;;;
      ret (<[sn_name subnetItem := subnet]> subnetMap)
  end.

(** Create NAT Gateways (lines 241-267): the body of the loop. *)
Definition createNatGateway (vpcItem : VpcConfig)
    (subnetMap : gmap string SecureSubnet)
    (natGatewayMap : gmap string SecureNatGateway) (natGatewayItem : NatGatewayConfig)
  : Synth (gmap string SecureNatGateway) :=
  log ("Adding NAT Gateway " +:+ ng_name natGatewayItem) ;;;
  match subnetMap !! ng_subnet natGatewayItem with
  | None => throw ("Subnet " +:+ ng_subnet natGatewayItem +:+ " not defined")
  | Some subnet =>
      let* natGateway :=
        newSecureNatGateway []
          (pascalCase (vpc_name vpcItem +:+ "Vpc")
           +:+ pascalCase (ng_name natGatewayItem +:+ "NatGateway"))
          (ng_name natGatewayItem) subnet in
      newStringParameter
        (pascalCase ("SsmParam" +:+ pascalCase (vpc_name vpcItem)
                     +:+ pascalCase (ng_name natGatewayItem) +:+ "NatGatewayId"))
        (resourceParameterName (vpc_name vpcItem) "natGateway" (ng_name natGatewayItem))
        (natGatewayId natGateway) ;;;
      ret (<[ng_name natGatewayItem := natGateway]> natGatewayMap)
  end.

(** The inner loop of lines 281-288, which collects the subnet identifiers
    of an attachment. *)
Definition collectSubnetId (subnetMap : gmap string SecureSubnet)
    (subnetIds : list string) (subnetItem : string) : Synth (list string) :=
  match subnetMap !! subnetItem with
  | None => throw ("Subnet " +:+ subnetItem +:+ " not defined")
  | Some subnet => ret (subnetIds ++ [subnetId subnet])
  end.

(** Create Transit Gateway Attachments (lines 272-311): the body of the
    loop.  The map is updated under the name of the transit gateway. *)
Definition createTransitGatewayAttachment (vpcItem : VpcConfig) (vpc : SecureVpc)
    (transitGatewayIds : gmap string string)
    (subnetMap : gmap string SecureSubnet)
    (transitGatewayAttachments : gmap string TransitGatewayAttachment)
    (tgwAttachmentItem : TransitGatewayAttachmentConfig)
  : Synth (gmap string TransitGatewayAttachment) :=
  let tgwName := tgw_name (ta_transitGateway tgwAttachmentItem) in
  log ("Adding Transit Gateway Attachment for " +:+ tgwName) ;;;
  match transitGatewayIds !! tgwName with
  | None => throw ("Transit Gateway " +:+ tgwName +:+ " not found")
  | Some transitGatewayId =>
      let* subnetIds :=
        forEach (collectSubnetId subnetMap) (orEmpty (ta_subnets tgwAttachmentItem)) [] in
      let* attachment :=
        newTransitGatewayAttachment []
          (pascalCase (ta_name tgwAttachmentItem +:+ "VpcTransitGatewayAttachment"))
          (ta_name tgwAttachmentItem) transitGatewayId subnetIds (vpcId vpc) in
      newStringParameter
        (pascalCase ("SsmParam" +:+ pascalCase (vpc_name vpcItem)
                     +:+ pascalCase (ta_name tgwAttachmentItem)
                     +:+ "TransitGatewayAttachmentId"))
        (resourceParameterName (vpc_name vpcItem) "transitGatewayAttachment"
           (ta_name tgwAttachmentItem))
        (transitGatewayAttachmentId attachment) ;;;
      ret (<[tgwName := attachment]> transitGatewayAttachments)
  end.

(** Create Route Table Entries (lines 326-373): the body of the inner loop.
    The local variables are the arrays [s3EndpointRouteTables] and
    [dynamodbEndpointRouteTables]. *)
Definition createRouteTableEntry (vpcItem : VpcConfig)
    (transitGatewayIds : gmap string string)
    (natGatewayMap : gmap string SecureNatGateway)
    (transitGatewayAttachments : gmap string TransitGatewayAttachment)
    (routeTableItem : RouteTableConfig) (routeTable : SecureRouteTable)
    (acc : list string * list string) (routeTableEntryItem : RouteTableEntryConfig)
  : Synth (list string * list string) :=
  let '(s3EndpointRouteTables, dynamodbEndpointRouteTables) := acc in
  let id := pascalCase (vpc_name vpcItem +:+ "Vpc")
            +:+ pascalCase (rt_name routeTableItem +:+ "RouteTable")
            +:+ pascalCase (re_name routeTableEntryItem) in
  if decide (re_type routeTableEntryItem = "transitGateway") then
    log ("Adding Transit Gateway Route Table Entry " +:+ re_name routeTableEntryItem) ;;;
    match transitGatewayIds !! re_target routeTableEntryItem with
    | None =>
        throw ("Transit Gateway " +:+ re_target routeTableEntryItem +:+ " not found")
    | Some transitGatewayId =>
        match transitGatewayAttachments !! re_target routeTableEntryItem with
        | None =>
            throw ("Transit Gateway Attachment " +:+ re_target routeTableEntryItem
                   +:+ " not found")
        | Some transitGatewayAttachment =>
            addTransitGatewayRoute routeTable id (re_destination routeTableEntryItem)
              transitGatewayId (defaultChild transitGatewayAttachment) ;;;
            ret acc
        end
    end
  else if decide (re_type routeTableEntryItem = "natGateway") then
    log ("Adding NAT Gateway Route Table Entry " +:+ re_name routeTableEntryItem) ;;;
    match natGatewayMap !! re_target routeTableEntryItem with
    | None => throw ("NAT Gateway " +:+ re_target routeTableEntryItem +:+ " not found")
    | Some natGateway =>
        addNatGatewayRoute routeTable id (re_destination routeTableEntryItem)
          (natGatewayId natGateway) ;;;
        ret acc
    end
  else if decide (re_type routeTableEntryItem = "internetGateway") then
    log ("Adding Internet Gateway Route Table Entry " +:+ re_name routeTableEntryItem) ;;;
    addInternetGatewayRoute routeTable id (re_destination routeTableEntryItem) ;;;
    ret acc
  else if decide (re_target routeTableEntryItem = "s3") then
    ret (pushIfAbsent s3EndpointRouteTables (routeTableId routeTable),
         dynamodbEndpointRouteTables)
  else if decide (re_target routeTableEntryItem = "dynamodb") then
    ret (s3EndpointRouteTables,
         pushIfAbsent dynamodbEndpointRouteTables (routeTableId routeTable))
  else ret acc.

(** The body of the outer loop over the route tables (lines 319-374). *)
Definition createRouteTableEntries (vpcItem : VpcConfig)
    (transitGatewayIds : gmap string string)
    (routeTableMap : gmap string SecureRouteTable)
    (natGatewayMap : gmap string SecureNatGateway)
    (transitGatewayAttachments : gmap string TransitGatewayAttachment)
    (acc : list string * list string) (routeTableItem : RouteTableConfig)
  : Synth (list string * list string) :=
  match routeTableMap !! rt_name routeTableItem with
  | None => throw ("Route Table " +:+ rt_name routeTableItem +:+ " not found")
  | Some routeTable =>
      forEach
        (createRouteTableEntry vpcItem transitGatewayIds natGatewayMap
           transitGatewayAttachments routeTableItem routeTable)
        (orEmpty (rt_routes routeTableItem)) acc
  end.

(** Add Gateway Endpoints (lines 379-395): the body of the loop. *)
Definition addGatewayEndpoint (vpcItem : VpcConfig) (vpc : SecureVpc)
    (s3EndpointRouteTables dynamodbEndpointRouteTables : list string)
    (_ : unit) (gatewayEndpointItem : string) : Synth unit :=
  log ("Adding Gateway Endpoint for " +:+ gatewayEndpointItem) ;;;
  if decide (gatewayEndpointItem = "s3") then
    addGatewayVpcEndpoint vpc
      (pascalCase (vpc_name vpcItem +:+ "Vpc") +:+ pascalCase gatewayEndpointItem)
      gatewayEndpointItem s3EndpointRouteTables
  else if decide (gatewayEndpointItem = "dynamodb") then
    addGatewayVpcEndpoint vpc
      (pascalCase (vpc_name vpcItem +:+ "Vpc") +:+ pascalCase gatewayEndpointItem)
      gatewayEndpointItem dynamodbEndpointRouteTables
  else ret tt.

(** The body of the loop over the VPC definitions, for a definition that
    passed the account and region test (lines 157-404). *)
Definition evaluateVpc (transitGatewayIds : gmap string string) (vpcItem : VpcConfig)
  : Synth unit :=
  log ("Adding VPC " +:+ vpc_name vpcItem) ;;;
  let* vpc := createVpc vpcItem in
  let* routeTableMap :=
    forEach (createRouteTable vpcItem vpc) (orEmpty (vpc_routeTables vpcItem)) ∅ in
  let* subnetMap :=
    forEach (createSubnet vpcItem vpc routeTableMap)
      (orEmpty (vpc_subnets vpcItem)) ∅ in
  let* natGatewayMap :=
    forEach (createNatGateway vpcItem subnetMap)
      (orEmpty (vpc_natGateways vpcItem)) ∅ in
  let* transitGatewayAttachments :=
    forEach (createTransitGatewayAttachment vpcItem vpc transitGatewayIds subnetMap)
      (orEmpty (vpc_transitGatewayAttachments vpcItem)) ∅ in
  let* '(s3EndpointRouteTables, dynamodbEndpointRouteTables) :=
    forEach (createRouteTableEntries vpcItem transitGatewayIds routeTableMap
               natGatewayMap transitGatewayAttachments)
      (orEmpty (vpc_routeTables vpcItem)) ([], []) in
  forEach (addGatewayEndpoint vpcItem vpc s3EndpointRouteTables
             dynamodbEndpointRouteTables)
    (orEmpty (vpc_gatewayEndpoints vpcItem)) tt.

(** Evaluate VPC entries (lines 154-405). *)
Definition evaluateVpcs (transitGatewayIds : gmap string string)
    (vpcItems : list VpcConfig) : Synth unit :=
  forEach
    (fun _ vpcItem =>
       if inThisStack vpcItem then evaluateVpc transitGatewayIds vpcItem else ret tt)
    vpcItems tt.

End Stack.

(** *** The constructor of [NetworkVpcStack]

    The constructor of the base class [AcceleratorStack], which runs first,
    is not among the sources; whatever it declares precedes what follows and
    is left out. *)

Definition NetworkVpcStack {sdk : Sdk} (env : Env) (props : AcceleratorStackProps)
  : Synth unit :=
  newStringParameter "SsmParamStackId"
    ("/accelerator/" +:+ stackName env +:+ "/stack-id") (stackId env) ;;;
  (if truthyBool (defaultVpc_delete (networkConfig props)) then
     log "Add DeleteDefaultVpc" ;;;
     declare (DeleteDefaultVpc ["DeleteDefaultVpc"])
   else ret tt) ;;;
  let* '(transitGatewayIds, transitGatewayAccountIds) :=
    resolveTransitGateways env props (orEmpty (vpcs (networkConfig props))) (∅, []) in
  createAccessRole transitGatewayAccountIds ;;;
  evaluateVpcs env props transitGatewayIds (orEmpty (vpcs (networkConfig props))).

(** The properties of a stack whose configuration lists the VPC definitions
    [vpcItems], the rest of [props] being kept. *)
Definition withVpcs (props : AcceleratorStackProps) (vpcItems : list VpcConfig)
  : AcceleratorStackProps :=
  mkAcceleratorStackProps (accountIds props) (getEmail props)
    (mkNetworkConfig (defaultVpc_delete (networkConfig props)) (Some vpcItems)).

(** ** Vocabulary of the statements *)

Section Vocabulary.

Context {sdk : Sdk}.
Variable env : Env.
Variable props : AcceleratorStackProps.

(** The VPC definitions of this stack, and the transit-gateway attachments
    the resolution pass visits, in the order it visits them. *)
Definition vpcsInThisStack (vpcItems : list VpcConfig) : list VpcConfig :=
  filter (fun v => inThisStack env props v = true) vpcItems.

Definition visitedAttachments (vpcItems : list VpcConfig)
  : list TransitGatewayAttachmentConfig :=
  flat_map (fun v => orEmpty (vpc_transitGatewayAttachments v))
    (vpcsInThisStack vpcItems).

Definition gatewayName (a : TransitGatewayAttachmentConfig) : string :=
  tgw_name (ta_transitGateway a).

Definition owningAccount (a : TransitGatewayAttachmentConfig) : option string :=
  accountIdOf props (tgw_account (ta_transitGateway a)).

(** The identifier the two branches of the resolution store for the transit
    gateway of an attachment: the parameter-store token when the owner is
    this account, the shared item otherwise. *)
Definition lookedUpId (a : TransitGatewayAttachmentConfig) : string :=
  if decide (owningAccount a = Some (account env)) then
    valueForStringParameter
      ("/accelerator/network/transitGateways/" +:+ gatewayName a +:+ "/id")
  else
    resourceShareItemId
      (resourceShareId (pascalCase (gatewayName a +:+ "TransitGatewayShare"))
         (owningAccount a))
      "ec2:TransitGateway".

(** An attachment is the first to name its transit gateway when no attachment
    visited before it names the same one. *)
Definition firstToName (visited : list TransitGatewayAttachmentConfig)
    (a : TransitGatewayAttachmentConfig) : Prop :=
  exists pre post, visited = pre ++ a :: post
                   /\ gatewayName a ∉ map gatewayName pre.

(** What one step of the resolution does to its local variables. *)
Definition resolution (acc : gmap string string * list (option string))
    (a : TransitGatewayAttachmentConfig) : gmap string string * list (option string) :=
  match acc.1 !! gatewayName a with
  | Some _ => acc
  | None =>
      (<[gatewayName a := lookedUpId a]> acc.1,
       if decide (owningAccount a = Some (account env)) then acc.2
       else pushIfAbsent acc.2 (owningAccount a))
  end.

(** An attachment that is the first to name its transit gateway, the gateway
    not being known before the pass. *)
Definition firstNew (known : gmap string string)
    (visited : list TransitGatewayAttachmentConfig)
    (a : TransitGatewayAttachmentConfig) : Prop :=
  firstToName visited a /\ known !! gatewayName a = None.

(** The local variables of the constructor after the resolution pass. *)
Definition resolved (vpcItems : list VpcConfig)
  : gmap string string * list (option string) :=
  fold_left resolution (visitedAttachments vpcItems) (∅, []).

End Vocabulary.

(** The lookups an assembly holds: one parameter read or one shared-item
    lookup is declared for each identifier that is resolved. *)
Definition isLookup (r : Resource) : bool :=
  match r with
  | StringParameterLookup _ => true
  | ResourceShareItemLookup _ _ _ => true
  | _ => false
  end.

Definition lookupCount (rs : list Resource) : nat :=
  length (filter (fun r => isLookup r = true) rs).

Definition isRouteOrEndpoint (r : Resource) : bool :=
  match r with
  | CfnRoute _ _ _ _ _ => true
  | CfnVPCEndpoint _ _ _ _ => true
  | _ => false
  end.

Definition isRole (r : Resource) : bool :=
  match r with
  | Role _ _ _ _ _ => true
  | _ => false
  end.

Definition roles (rs : list Resource) : list Resource :=
  filter (fun r => isRole r = true) rs.

(** A computation meets the specification [(P, Q, E)] when, from any
    assembly, it adds resources that satisfy [P] (and removes none), and
    either returns a value that satisfies [Q] or throws a message that
    satisfies [E]. *)
Definition meets {A : Type} (P : list Resource -> Prop) (Q : A -> Prop)
    (E : string -> Prop) (c : Synth A) : Prop :=
  forall s, exists added,
    resources (c s).1 = resources s ++ added
    /\ P added
    /\ match (c s).2 with
       | Ok a => Q a
       | Throw msg => E msg
       end.

(** Properties of the added resources that compose along a sequence. *)
Class Additive (P : list Resource -> Prop) : Prop := {
  additive_nil : P [];
  additive_app : forall added added', P added -> P added' -> P (added ++ added')
}.

(** *** Created resources and published identifiers *)

Inductive ResourceKind :=
| VpcKind
| RouteTableKind
| SubnetKind
| NatGatewayKind
| TransitGatewayAttachmentKind.

(** The path segment of a kind of resource in a parameter name. *)
Definition kindSegment (k : ResourceKind) : string :=
  match k with
  | VpcKind => "vpc"
  | RouteTableKind => "routeTable"
  | SubnetKind => "subnet"
  | NatGatewayKind => "natGateway"
  | TransitGatewayAttachmentKind => "transitGatewayAttachment"
  end.

Section Published.

Context {sdk : Sdk}.

(** The VPCs, route tables, subnets, NAT gateways and attachments of an
    assembly, each with its name and its identifier, in declaration order. *)
Definition createdBy (r : Resource) : list (ResourceKind * string * string) :=
  match r with
  | CfnVPC node _ _ _ _ name => [(VpcKind, name, cfnRef node)]
  | CfnRouteTable node _ name => [(RouteTableKind, name, cfnRef node)]
  | CfnSubnet node _ _ _ _ name => [(SubnetKind, name, cfnRef node)]
  | CfnNatGateway node _ _ name => [(NatGatewayKind, name, cfnRef node)]
  | CfnTransitGatewayAttachment node name _ _ _ =>
      [(TransitGatewayAttachmentKind, name, cfnRef node)]
  | _ => []
  end.

Definition created (rs : list Resource) : list (ResourceKind * string * string) :=
  flat_map createdBy rs.

(** The parameters of an assembly, name and value, in declaration order. *)
Definition publishedBy (r : Resource) : list (string * string) :=
  match r with
  | StringParameter _ name value => [(name, value)]
  | _ => []
  end.

Definition published (rs : list Resource) : list (string * string) :=
  flat_map publishedBy rs.

(** The parameter under which the identifier of a resource of the VPC
    [vpcName] is expected. *)
Definition publishedAs (vpcName : string) (c : ResourceKind * string * string)
  : string * string :=
  match c with
  | (VpcKind, _, id) => ("/accelerator/network/vpc/" +:+ vpcName +:+ "/id", id)
  | (k, name, id) =>
      ("/accelerator/network/vpc/" +:+ vpcName +:+ "/" +:+ kindSegment k +:+ "/"
       +:+ name +:+ "/id", id)
  end.

End Published.

(** A computation creates [expected] when, whenever it returns, the VPCs,
    route tables, subnets, NAT gateways and attachments among the resources
    it has added are those of [expected], in order. *)
Definition creates {sdk : Sdk} {A : Type} (expected : list (ResourceKind * string * string))
    (c : Synth A) : Prop :=
  forall s, match (c s).2 with
            | Ok _ => exists added, resources (c s).1 = resources s ++ added
                                    /\ created added = expected
            | Throw _ => True
            end.

(** *** The objects of a VPC definition and its unresolved references *)

Section Objects.

Context {sdk : Sdk}.
Variable transitGatewayIds : gmap string string.
Variable vpcItem : VpcConfig.

(** The construct objects the build makes for the items of the definition.
    The object of a route table, of a NAT gateway and the identifier of a
    subnet depend on the item through its name only. *)
Definition vpcObject : SecureVpc :=
  mkSecureVpc [pascalCase (vpc_name vpcItem +:+ "Vpc")]
    (cfnRef [pascalCase (vpc_name vpcItem +:+ "Vpc"); "Resource"])
    (if truthyBool (vpc_internetGateway vpcItem)
     then Some (cfnRef [pascalCase (vpc_name vpcItem +:+ "Vpc"); "InternetGateway"])
     else None).

Definition routeTableObject (name : string) : SecureRouteTable :=
  mkSecureRouteTable
    [pascalCase (vpc_name vpcItem +:+ "Vpc") +:+ pascalCase (name +:+ "RouteTable")]
    (cfnRef [pascalCase (vpc_name vpcItem +:+ "Vpc")
             +:+ pascalCase (name +:+ "RouteTable"); "Resource"])
    vpcObject.

Definition subnetIdOf (name : string) : string :=
  cfnRef [pascalCase (vpc_name vpcItem +:+ "Vpc") +:+ pascalCase (name +:+ "Subnet");
          "Resource"].

Definition natGatewayObject (name : string) : SecureNatGateway :=
  mkSecureNatGateway
    [pascalCase (vpc_name vpcItem +:+ "Vpc") +:+ pascalCase (name +:+ "NatGateway")]
    (cfnRef [pascalCase (vpc_name vpcItem +:+ "Vpc")
             +:+ pascalCase (name +:+ "NatGateway"); "Resource"])
    name.

Definition attachmentObject (a : TransitGatewayAttachmentConfig)
  : TransitGatewayAttachment :=
  mkTransitGatewayAttachment
    [pascalCase (ta_name a +:+ "VpcTransitGatewayAttachment")]
    (ta_name a)
    (cfnRef [pascalCase (ta_name a +:+ "VpcTransitGatewayAttachment"); "Resource"]).

(** The resources the definition declares, each with its kind, its name
    and the identifier the build gives it, in the order of the build. *)
Definition declaredResources : list (ResourceKind * string * string) :=
  (VpcKind, vpc_name vpcItem, vpcId vpcObject)
  :: map (fun rt => (RouteTableKind, rt_name rt,
                     routeTableId (routeTableObject (rt_name rt))))
       (orEmpty (vpc_routeTables vpcItem))
  ++ map (fun sn => (SubnetKind, sn_name sn, subnetIdOf (sn_name sn)))
       (orEmpty (vpc_subnets vpcItem))
  ++ map (fun ng => (NatGatewayKind, ng_name ng,
                     natGatewayId (natGatewayObject (ng_name ng))))
       (orEmpty (vpc_natGateways vpcItem))
  ++ map (fun a => (TransitGatewayAttachmentKind, ta_name a,
                    transitGatewayAttachmentId (attachmentObject a)))
       (orEmpty (vpc_transitGatewayAttachments vpcItem)).

(** A route entry that the dispatch sends to the list of a gateway-endpoint
    service: its type is none of the three gateway types and its target is
    the service. *)
Definition serviceEntry (service : string) (e : RouteTableEntryConfig) : Prop :=
  re_type e <> "transitGateway" /\ re_type e <> "natGateway"
  /\ re_type e <> "internetGateway" /\ re_target e = service.

(** [UnresolvedReference name msg]: the definition refers to [name], nothing
    of that name is declared where the reference is resolved, and [msg] is
    the message of the error thrown for it. *)
Inductive UnresolvedReference : string -> string -> Prop :=
| unresolved_route_table sn :
    sn ∈ orEmpty (vpc_subnets vpcItem) ->
    sn_routeTable sn ∉ map rt_name (orEmpty (vpc_routeTables vpcItem)) ->
    UnresolvedReference (sn_routeTable sn)
      ("Route table " +:+ sn_routeTable sn +:+ " not defined")
| unresolved_nat_subnet ng :
    ng ∈ orEmpty (vpc_natGateways vpcItem) ->
    ng_subnet ng ∉ map sn_name (orEmpty (vpc_subnets vpcItem)) ->
    UnresolvedReference (ng_subnet ng) ("Subnet " +:+ ng_subnet ng +:+ " not defined")
| unresolved_attachment_gateway a :
    a ∈ orEmpty (vpc_transitGatewayAttachments vpcItem) ->
    transitGatewayIds !! gatewayName a = None ->
    UnresolvedReference (gatewayName a)
      ("Transit Gateway " +:+ gatewayName a +:+ " not found")
| unresolved_attachment_subnet a name :
    a ∈ orEmpty (vpc_transitGatewayAttachments vpcItem) ->
    name ∈ orEmpty (ta_subnets a) ->
    name ∉ map sn_name (orEmpty (vpc_subnets vpcItem)) ->
    UnresolvedReference name ("Subnet " +:+ name +:+ " not defined")
| unresolved_route_gateway rt e :
    rt ∈ orEmpty (vpc_routeTables vpcItem) -> e ∈ orEmpty (rt_routes rt) ->
    re_type e = "transitGateway" ->
    transitGatewayIds !! re_target e = None ->
    UnresolvedReference (re_target e)
      ("Transit Gateway " +:+ re_target e +:+ " not found")
| unresolved_route_attachment rt e :
    rt ∈ orEmpty (vpc_routeTables vpcItem) -> e ∈ orEmpty (rt_routes rt) ->
    re_type e = "transitGateway" ->
    re_target e ∉ map gatewayName (orEmpty (vpc_transitGatewayAttachments vpcItem)) ->
    UnresolvedReference (re_target e)
      ("Transit Gateway Attachment " +:+ re_target e +:+ " not found")
| unresolved_route_nat rt e :
    rt ∈ orEmpty (vpc_routeTables vpcItem) -> e ∈ orEmpty (rt_routes rt) ->
    re_type e = "natGateway" ->
    re_target e ∉ map ng_name (orEmpty (vpc_natGateways vpcItem)) ->
    UnresolvedReference (re_target e) ("NAT Gateway " +:+ re_target e +:+ " not found").

(** The references of the items of the definition are resolved: each name
    is declared where the build looks it up. *)
Definition subnetResolved (sn : SubnetConfig) : Prop :=
  sn_routeTable sn ∈ map rt_name (orEmpty (vpc_routeTables vpcItem)).

Definition natGatewayResolved (ng : NatGatewayConfig) : Prop :=
  ng_subnet ng ∈ map sn_name (orEmpty (vpc_subnets vpcItem)).

Definition attachmentResolved (a : TransitGatewayAttachmentConfig) : Prop :=
  is_Some (transitGatewayIds !! gatewayName a)
  /\ forall name, name ∈ orEmpty (ta_subnets a) ->
                  name ∈ map sn_name (orEmpty (vpc_subnets vpcItem)).

Definition routeEntryResolved (e : RouteTableEntryConfig) : Prop :=
  (re_type e = "transitGateway" ->
   is_Some (transitGatewayIds !! re_target e)
   /\ re_target e ∈ map gatewayName (orEmpty (vpc_transitGatewayAttachments vpcItem)))
  /\ (re_type e = "natGateway" ->
      re_target e ∈ map ng_name (orEmpty (vpc_natGateways vpcItem))).

Definition referencesResolved : Prop :=
  (forall sn, sn ∈ orEmpty (vpc_subnets vpcItem) -> subnetResolved sn)
  /\ (forall ng, ng ∈ orEmpty (vpc_natGateways vpcItem) -> natGatewayResolved ng)
  /\ (forall a, a ∈ orEmpty (vpc_transitGatewayAttachments vpcItem) ->
                attachmentResolved a)
  /\ (forall rt e, rt ∈ orEmpty (vpc_routeTables vpcItem) ->
                   e ∈ orEmpty (rt_routes rt) -> routeEntryResolved e).

(** The errors of the build of a VPC: the refusal of an internet-gateway
    route, or an unresolved reference. *)
Definition buildError (msg : string) : Prop :=
  msg = igwError \/ exists name, UnresolvedReference name msg.

End Objects.

(** *** Invariants of the loops of the per-VPC build *)

Section Invariants.

Context {sdk : Sdk}.

(** The invariants of the loops: what the maps hold once the items [pre]
    have been visited. *)
Definition routeTablesOf (vpcItem : VpcConfig) (pre : list RouteTableConfig)
    (m : gmap string SecureRouteTable) : Prop :=
  forall name, m !! name = if decide (name ∈ map rt_name pre)
                           then Some (routeTableObject vpcItem name) else None.

Definition subnetsOf (vpcItem : VpcConfig) (pre : list SubnetConfig)
    (m : gmap string SecureSubnet) : Prop :=
  (forall name, is_Some (m !! name) <-> name ∈ map sn_name pre)
  /\ (forall name subnet, m !! name = Some subnet ->
        subnetId subnet = subnetIdOf vpcItem name).

Definition natGatewaysOf (vpcItem : VpcConfig) (pre : list NatGatewayConfig)
    (m : gmap string SecureNatGateway) : Prop :=
  forall name, m !! name = if decide (name ∈ map ng_name pre)
                           then Some (natGatewayObject vpcItem name) else None.

Definition attachmentsOf (pre : list TransitGatewayAttachmentConfig)
    (m : gmap string TransitGatewayAttachment) : Prop :=
  forall name, m !! name
               = attachmentObject <$> last (filter (fun a => gatewayName a = name) pre).

(** The invariant of the loop over the route entries of one route table,
    whose identifier is [rtId]: the two lists are free of duplicates, they
    extend the lists [acc0] the loop started with, and the identifier is in
    the list of a service once an entry for that service has been visited. *)
Definition endpointLists (acc0 : list string * list string) (rtId : string)
    (pre : list RouteTableEntryConfig) (acc : list string * list string) : Prop :=
  NoDup acc.1 /\ NoDup acc.2
  /\ acc0.1 ⊆ acc.1 /\ acc0.2 ⊆ acc.2
  /\ (forall e, e ∈ pre -> serviceEntry "s3" e -> rtId ∈ acc.1)
  /\ (forall e, e ∈ pre -> serviceEntry "dynamodb" e -> rtId ∈ acc.2).

(** The invariant of the loop over the route tables. *)
Definition endpointListsOf (vpcItem : VpcConfig) (pre : list RouteTableConfig)
    (acc : list string * list string) : Prop :=
  NoDup acc.1 /\ NoDup acc.2
  /\ (forall rt e, rt ∈ pre -> e ∈ orEmpty (rt_routes rt) -> serviceEntry "s3" e ->
        routeTableId (routeTableObject vpcItem (rt_name rt)) ∈ acc.1)
  /\ (forall rt e, rt ∈ pre -> e ∈ orEmpty (rt_routes rt) -> serviceEntry "dynamodb" e ->
        routeTableId (routeTableObject vpcItem (rt_name rt)) ∈ acc.2).

End Invariants.

(** The gateway endpoints of an assembly serve the VPC definition: the
    route-table list of each is free of duplicates, and the endpoint is that
    of a service whose list holds the identifier of every route table with a
    route entry for the service. *)
Definition endpointsServe {sdk : Sdk} (vpcItem : VpcConfig) (rs : list Resource) : Prop :=
  Forall (fun r =>
            match r with
            | CfnVPCEndpoint _ serviceName _ routeTableIds =>
                NoDup routeTableIds
                /\ exists service, serviceName = gatewayServiceName service
                     /\ forall rt e,
                          rt ∈ orEmpty (vpc_routeTables vpcItem) ->
                          e ∈ orEmpty (rt_routes rt) ->
                          serviceEntry service e ->
                          routeTableId (routeTableObject vpcItem (rt_name rt))
                          ∈ routeTableIds
            | _ => True
            end) rs.

(** What the build of a VPC definition may add to the assembly: no role and
    no lookup; parameters that publish, one for one and in order, the
    identifiers of the resources created; gateway endpoints that serve the
    definition. *)
Definition vpcAdditions {sdk : Sdk} (vpcItem : VpcConfig) (added : list Resource) : Prop :=
  roles added = []
  /\ lookupCount added = 0
  /\ published added = map (publishedAs (vpc_name vpcItem)) (created added)
  /\ endpointsServe vpcItem added.

(** The role the constructor declares for the owners [accountIds] of foreign
    transit gateways: none when there is no such owner. *)
Definition accessRoleFor (accountIds : list (option string)) : list Resource :=
  match accountIds with
  | [] => []
  | _ => [Role ["DescribeTransitGatewaysAttachmentsRole"]
            "AWSAccelerator-DescribeTransitGatewayAttachmentsRole"
            accountIds ["ec2:DescribeTransitGatewayAttachments"] ["*"]]
  end.

(** The assembly after one line of console output. *)
Definition logged (s : Assembly) (line : string) : Assembly :=
  mkAssembly (resources s) (console s ++ [line]).

(** [abortsNaming c s line name]: from the assembly [s] the computation [c]
    throws; the message of the error contains [name]; and the assembly at the
    throw is [s] with the console line [line], so that nothing has been
    declared. *)
Definition abortsNaming {B : Type} (c : Synth B) (s : Assembly) (line name : string)
  : Prop :=
  exists msg, c s = (logged s line, Throw msg) /\ includes msg name = true.

(** *** The run of a computation *)

(** [runs R c]: from any assembly the computation [c] adds resources (and
    removes none), and [R] relates what it has added to its outcome, be it a
    value or an error. *)
Definition runs {A : Type} (R : list Resource -> Outcome A -> Prop) (c : Synth A) : Prop :=
  forall s, exists added,
    resources (c s).1 = resources s ++ added /\ R added (c s).2.

(** *** The resources of a VPC definition

    What the build of a VPC definition declares for each of its items, the
    names the item refers to being resolved in the definition itself rather
    than in the maps of the build. *)

#[global] Instance serviceEntry_dec (service : string) (e : RouteTableEntryConfig) :
  Decision (serviceEntry service e).
Proof. unfold serviceEntry. apply _. Defined.

Section Built.

Context {sdk : Sdk}.
Variable env : Env.
Variable transitGatewayIds : gmap string string.
Variable vpcItem : VpcConfig.

Definition vpcResources : list Resource :=
  CfnVPC (vpcNode (vpcObject vpcItem) ++ ["Resource"]) (head (vpc_cidrs vpcItem))
    (Some (default false (vpc_enableDnsHostnames vpcItem)))
    (Some (default true (vpc_enableDnsSupport vpcItem)))
    (Some (default "default" (vpc_instanceTenancy vpcItem))) (vpc_name vpcItem)
  :: match internetGatewayId (vpcObject vpcItem) with
     | Some igw =>
         [CfnInternetGateway (vpcNode (vpcObject vpcItem) ++ ["InternetGateway"]);
          CfnVPCGatewayAttachment
            (vpcNode (vpcObject vpcItem) ++ ["InternetGatewayAttachment"])
            igw (vpcId (vpcObject vpcItem))]
     | None => []
     end
  ++ [StringParameter
        [pascalCase ("SsmParam" +:+ pascalCase (vpc_name vpcItem) +:+ "VpcId")]
        (vpcParameterName (vpc_name vpcItem)) (vpcId (vpcObject vpcItem))].

Definition routeTableResources (rt : RouteTableConfig) : list Resource :=
  [CfnRouteTable (routeTableNode (routeTableObject vpcItem (rt_name rt)) ++ ["Resource"])
     (vpcId (vpcObject vpcItem)) (rt_name rt);
   StringParameter
     [pascalCase ("SsmParam" +:+ pascalCase (vpc_name vpcItem)
                  +:+ pascalCase (rt_name rt) +:+ "RouteTableId")]
     (resourceParameterName (vpc_name vpcItem) "routeTable" (rt_name rt))
     (routeTableId (routeTableObject vpcItem (rt_name rt)))].

(** A subnet is associated with the route table it names. *)
Definition subnetResources (sn : SubnetConfig) : list Resource :=
  let node := [pascalCase (vpc_name vpcItem +:+ "Vpc")
               +:+ pascalCase (sn_name sn +:+ "Subnet")] in
  [CfnSubnet (node ++ ["Resource"]) (vpcId (vpcObject vpcItem)) (sn_ipv4CidrBlock sn)
     (region env +:+ sn_availabilityZone sn) (sn_mapPublicIpOnLaunch sn) (sn_name sn);
   CfnSubnetRouteTableAssociation (node ++ ["RouteTableAssociation"])
     (subnetIdOf vpcItem (sn_name sn))
     (routeTableId (routeTableObject vpcItem (sn_routeTable sn)));
   StringParameter
     [pascalCase ("SsmParam" +:+ pascalCase (vpc_name vpcItem)
                  +:+ pascalCase (sn_name sn) +:+ "SubnetId")]
     (resourceParameterName (vpc_name vpcItem) "subnet" (sn_name sn))
     (subnetIdOf vpcItem (sn_name sn))].

(** A NAT gateway is placed in the subnet it names, with an address of its
    own. *)
Definition natGatewayResources (ng : NatGatewayConfig) : list Resource :=
  let node := natGatewayNode (natGatewayObject vpcItem (ng_name ng)) in
  [CfnEIP (node ++ ["Eip"]) "vpc";
   CfnNatGateway (node ++ ["Resource"]) (subnetIdOf vpcItem (ng_subnet ng))
     (cfnGetAtt (node ++ ["Eip"]) "AllocationId") (ng_name ng);
   StringParameter
     [pascalCase ("SsmParam" +:+ pascalCase (vpc_name vpcItem)
                  +:+ pascalCase (ng_name ng) +:+ "NatGatewayId")]
     (resourceParameterName (vpc_name vpcItem) "natGateway" (ng_name ng))
     (natGatewayId (natGatewayObject vpcItem (ng_name ng)))].

(** An attachment binds the VPC, through the subnets it names, to the
    transit gateway whose identifier the resolution pass has stored. *)
Definition attachmentResources (a : TransitGatewayAttachmentConfig) : list Resource :=
  match transitGatewayIds !! gatewayName a with
  | Some transitGatewayId =>
      [CfnTransitGatewayAttachment (defaultChild (attachmentObject a)) (ta_name a)
         transitGatewayId (map (subnetIdOf vpcItem) (orEmpty (ta_subnets a)))
         (vpcId (vpcObject vpcItem));
       StringParameter
         [pascalCase ("SsmParam" +:+ pascalCase (vpc_name vpcItem)
                      +:+ pascalCase (ta_name a) +:+ "TransitGatewayAttachmentId")]
         (resourceParameterName (vpc_name vpcItem) "transitGatewayAttachment" (ta_name a))
         (transitGatewayAttachmentId (attachmentObject a))]
  | None => []
  end.

(** The route of a route entry: one for an entry of a gateway type, to the
    gateway the entry names; none for any other entry.  The route to a
    transit gateway depends on the attachment of the last item that
    references that transit gateway. *)
Definition routeResources (rt : RouteTableConfig) (e : RouteTableEntryConfig)
  : list Resource :=
  let this := routeTableObject vpcItem (rt_name rt) in
  let node := routeTableNode this
              ++ [pascalCase (vpc_name vpcItem +:+ "Vpc")
                  +:+ pascalCase (rt_name rt +:+ "RouteTable")
                  +:+ pascalCase (re_name e)] in
  if decide (re_type e = "transitGateway") then
    match transitGatewayIds !! re_target e,
          last (filter (fun a => gatewayName a = re_target e)
                  (orEmpty (vpc_transitGatewayAttachments vpcItem))) with
    | Some transitGatewayId, Some a =>
        [CfnRoute node (routeTableId this) (re_destination e)
           (TransitGatewayId transitGatewayId) [defaultChild (attachmentObject a)]]
    | _, _ => []
    end
  else if decide (re_type e = "natGateway") then
    [CfnRoute node (routeTableId this) (re_destination e)
       (NatGatewayId (natGatewayId (natGatewayObject vpcItem (re_target e)))) []]
  else if decide (re_type e = "internetGateway") then
    match internetGatewayId (vpcObject vpcItem) with
    | Some igw => [CfnRoute node (routeTableId this) (re_destination e) (GatewayId igw) []]
    | None => []
    end
  else [].

(** The route tables that ask for a gateway-endpoint service, one
    identifier for each route entry for the service, in the order of the
    definition; and the list the build makes of them, which keeps the first
    occurrence of each. *)
Definition entryRequests (service : string) (rtId : string)
    (entries : list RouteTableEntryConfig) : list string :=
  flat_map (fun e => if decide (serviceEntry service e) then [rtId] else []) entries.

Definition serviceRequests (service : string) (routeTables : list RouteTableConfig)
  : list string :=
  flat_map (fun rt => entryRequests service
                        (routeTableId (routeTableObject vpcItem (rt_name rt)))
                        (orEmpty (rt_routes rt)))
    routeTables.

Definition serviceRouteTables (service : string) : list string :=
  fold_left pushIfAbsent (serviceRequests service (orEmpty (vpc_routeTables vpcItem))) [].

(** A gateway endpoint for an item [s3] or [dynamodb], with the route tables
    that ask for the service; nothing for any other item. *)
Definition endpointResources (gatewayEndpointItem : string) : list Resource :=
  if decide (gatewayEndpointItem = "s3" \/ gatewayEndpointItem = "dynamodb") then
    [CfnVPCEndpoint
       (vpcNode (vpcObject vpcItem)
        ++ [pascalCase (vpc_name vpcItem +:+ "Vpc") +:+ pascalCase gatewayEndpointItem])
       (gatewayServiceName gatewayEndpointItem) (vpcId (vpcObject vpcItem))
       (serviceRouteTables gatewayEndpointItem)]
  else [].

(** The resources of the definition, in the order of the build. *)
Definition builtResources : list Resource :=
  vpcResources
  ++ flat_map routeTableResources (orEmpty (vpc_routeTables vpcItem))
  ++ flat_map subnetResources (orEmpty (vpc_subnets vpcItem))
  ++ flat_map natGatewayResources (orEmpty (vpc_natGateways vpcItem))
  ++ flat_map attachmentResources (orEmpty (vpc_transitGatewayAttachments vpcItem))
  ++ flat_map (fun rt => flat_map (routeResources rt) (orEmpty (rt_routes rt)))
       (orEmpty (vpc_routeTables vpcItem))
  ++ flat_map endpointResources (orEmpty (vpc_gatewayEndpoints vpcItem)).

(** The definition has a route entry of type [internetGateway]. *)
Definition internetGatewayRoute : Prop :=
  exists rt e, rt ∈ orEmpty (vpc_routeTables vpcItem) /\ e ∈ orEmpty (rt_routes rt)
               /\ re_type e = "internetGateway".


(** The guard of the internet-gateway route, as the build meets it: the VPC
    object has a truthy gateway identifier when a route entry asks for one. *)
Definition gatewayGuard : Prop :=
  internetGatewayRoute -> truthyString (internetGatewayId (vpcObject vpcItem)) = true.

(** The build stopped at the first subnet whose route table is not
    declared: [msg] is the error for that subnet, and [added] holds the VPC,
    the route tables and the subnets before it. *)
Definition firstUnresolvedSubnet (added : list Resource) (msg : string) : Prop :=
  exists pre sn post,
    orEmpty (vpc_subnets vpcItem) = pre ++ sn :: post
    /\ (forall y, y ∈ pre -> subnetResolved vpcItem y)
    /\ ~ subnetResolved vpcItem sn
    /\ msg = "Route table " +:+ sn_routeTable sn +:+ " not defined"
    /\ added = vpcResources
               ++ flat_map routeTableResources (orEmpty (vpc_routeTables vpcItem))
               ++ flat_map subnetResources pre.

(** A route entry can be built: its references are resolved and, when its
    type is [internetGateway], the VPC object has a truthy gateway
    identifier. *)
Definition routeEntryBuildable (e : RouteTableEntryConfig) : Prop :=
  routeEntryResolved transitGatewayIds vpcItem e
  /\ (re_type e = "internetGateway" ->
      truthyString (internetGatewayId (vpcObject vpcItem)) = true).

End Built.

(** *** References between resources *)

(** The resources a resource refers to, by kind and identifier. *)
Definition referencesOf (r : Resource) : list (ResourceKind * string) :=
  match r with
  | CfnVPCGatewayAttachment _ _ vpcId => [(VpcKind, vpcId)]
  | CfnRouteTable _ vpcId _ => [(VpcKind, vpcId)]
  | CfnSubnet _ vpcId _ _ _ _ => [(VpcKind, vpcId)]
  | CfnSubnetRouteTableAssociation _ subnetId routeTableId =>
      [(SubnetKind, subnetId); (RouteTableKind, routeTableId)]
  | CfnNatGateway _ subnetId _ _ => [(SubnetKind, subnetId)]
  | CfnTransitGatewayAttachment _ _ _ subnetIds vpcId =>
      (VpcKind, vpcId) :: map (fun id => (SubnetKind, id)) subnetIds
  | CfnRoute _ routeTableId _ target _ =>
      (RouteTableKind, routeTableId)
      :: match target with
         | NatGatewayId id => [(NatGatewayKind, id)]
         | _ => []
         end
  | CfnVPCEndpoint _ _ vpcId routeTableIds =>
      (VpcKind, vpcId) :: map (fun id => (RouteTableKind, id)) routeTableIds
  | _ => []
  end.

(** The resources a resource is made to depend on, by their paths, and the
    path of a resource. *)
Definition dependenciesOf (r : Resource) : list Path :=
  match r with
  | CfnRoute _ _ _ _ dependsOn => dependsOn
  | _ => []
  end.

Definition attachmentPaths (rs : list Resource) : list Path :=
  flat_map (fun r => match r with
                     | CfnTransitGatewayAttachment node _ _ _ _ => [node]
                     | _ => []
                     end) rs.

(** *** The resources of the constructor *)

Section Constructor.

Context {sdk : Sdk}.
Variable env : Env.
Variable props : AcceleratorStackProps.

(** The parameter of the stack and the removal of the default VPC. *)
Definition stackResources : list Resource :=
  StringParameter ["SsmParamStackId"] ("/accelerator/" +:+ stackName env +:+ "/stack-id")
    (stackId env)
  :: (if truthyBool (defaultVpc_delete (networkConfig props))
      then [DeleteDefaultVpc ["DeleteDefaultVpc"]] else []).

(** The lookups that resolve the transit gateway of an attachment: a read
    of the parameter store when the owner is the account of the stack, the
    lookup of a resource share of the owner and of the transit gateway shared
    in it otherwise. *)
Definition lookupResources (a : TransitGatewayAttachmentConfig) : list Resource :=
  if decide (owningAccount props a = Some (account env)) then
    [StringParameterLookup
       ("/accelerator/network/transitGateways/" +:+ gatewayName a +:+ "/id")]
  else
    [ResourceShareLookup [pascalCase (gatewayName a +:+ "TransitGatewayShare")]
       OTHER_ACCOUNTS (pascalCase (gatewayName a +:+ "TransitGatewayShare"))
       (owningAccount props a);
     ResourceShareItemLookup [pascalCase (gatewayName a +:+ "TransitGateway")]
       (resourceShareId (pascalCase (gatewayName a +:+ "TransitGatewayShare"))
          (owningAccount props a))
       "ec2:TransitGateway"].

(** The attachments that name a transit gateway not among [known] and not
    named by an attachment before them. *)
Fixpoint newlyNamed (known : list string) (visited : list TransitGatewayAttachmentConfig)
  : list TransitGatewayAttachmentConfig :=
  match visited with
  | [] => []
  | a :: rest =>
      if decide (gatewayName a ∈ known) then newlyNamed known rest
      else a :: newlyNamed (gatewayName a :: known) rest
  end.

(** What the constructor declares when it returns. *)
Definition constructedResources : list Resource :=
  let vpcItems := orEmpty (vpcs (networkConfig props)) in
  stackResources
  ++ flat_map lookupResources (newlyNamed [] (visitedAttachments env props vpcItems))
  ++ accessRoleFor (resolved env props vpcItems).2
  ++ flat_map (builtResources env (resolved env props vpcItems).1)
       (vpcsInThisStack env props vpcItems).

End Constructor.

(** ** Sample data

    A rendering of the SDK's tokens and a small configuration, on which the
    model is run in the examples below.  The sample [pascalCase] leaves its
    argument as it is: the names of the samples are in Pascal case already. *)

Definition sampleSdk : Sdk := {|
  cfnRef := fun p => "${" +:+ String.concat "/" p +:+ ".Ref}";
  cfnGetAtt := fun p a => "${" +:+ String.concat "/" p +:+ "." +:+ a +:+ "}";
  gatewayServiceName := fun service => "com.amazonaws.region." +:+ service;
  pascalCase := fun s => s;
  valueForStringParameter := fun n => "${ssm:" +:+ n +:+ "}";
  resourceShareId := fun n _ => "${share:" +:+ n +:+ "}";
  resourceShareItemId := fun shareId _ => "${item:" +:+ shareId +:+ "}"
|}.

Definition sampleEnv : Env :=
  mkEnv "111111111111" "eu-west-1" "NetworkVpcStack" "stack-1".

Definition sampleAccountIds : gmap string string :=
  <["network@example.com" := "111111111111"]>
    (<["transit@example.com" := "222222222222"]>
       (<["audit@example.com" := "333333333333"]> ∅)).

Definition sampleProps (vpcItems : list VpcConfig) : AcceleratorStackProps :=
  mkAcceleratorStackProps sampleAccountIds (fun a => a +:+ "@example.com")
    (mkNetworkConfig None (Some vpcItems)).

Definition emptyAssembly : Assembly := mkAssembly [] [].

(** A VPC declared for this account and region, with nothing in it yet. *)
Definition sampleVpc (name : string) (internetGateway : option bool) : VpcConfig :=
  mkVpcConfig name "network" "eu-west-1" ["10.0.0.0/16"] internetGateway
    None None None None None None None None.

Definition sampleRouteTableObject (v : SecureVpc) : SecureRouteTable :=
  mkSecureRouteTable ["MainVpcPublicRouteTable"]
    "${MainVpcPublicRouteTable/Resource.Ref}" v.

(** A VPC of this stack with an internet gateway, two route tables, two
    subnets, a NAT gateway, two attachments to the same transit gateway (owned
    by another account) and both gateway endpoints.  Route table [Public] has
    two route entries for [s3]; route table [Private] has one for each
    service. *)
Definition sampleNetwork : VpcConfig :=
  mkVpcConfig "Main" "network" "eu-west-1" ["10.0.0.0/16"] (Some true) None None None
    (Some [mkRouteTableConfig "Public"
             (Some [mkRouteTableEntryConfig "Default" "0.0.0.0/0" "internetGateway" "IGW";
                    mkRouteTableEntryConfig "S3a" "" "gatewayEndpoint" "s3";
                    mkRouteTableEntryConfig "S3b" "" "gatewayEndpoint" "s3"]);
           mkRouteTableConfig "Private"
             (Some [mkRouteTableEntryConfig "Out" "0.0.0.0/0" "natGateway" "Egress";
                    mkRouteTableEntryConfig "Hub" "10.0.0.0/8" "transitGateway" "Hub";
                    mkRouteTableEntryConfig "S3" "" "gatewayEndpoint" "s3";
                    mkRouteTableEntryConfig "Ddb" "" "gatewayEndpoint" "dynamodb";
                    mkRouteTableEntryConfig "Odd" "" "peering" "Elsewhere"])])
    (Some [mkSubnetConfig "Web" "a" "Public" "10.0.1.0/24" (Some true);
           mkSubnetConfig "App" "b" "Private" "10.0.2.0/24" None])
    (Some [mkNatGatewayConfig "Egress" "Web"])
    (Some [mkTransitGatewayAttachmentConfig "HubA" (mkTransitGatewayRef "Hub" "transit")
             (Some ["App"]);
           mkTransitGatewayAttachmentConfig "HubB" (mkTransitGatewayRef "Hub" "transit")
             (Some ["Web"; "App"])])
    (Some ["s3"; "dynamodb"]).

(** A VPC of this stack whose subnet names a route table that is not
    declared, and one whose route entry names a NAT gateway that is not
    declared. *)
Definition danglingSubnet : VpcConfig :=
  mkVpcConfig "Main" "network" "eu-west-1" ["10.0.0.0/16"] None None None None
    None
    (Some [mkSubnetConfig "Web" "a" "Public" "10.0.1.0/24" None])
    None None None.

Definition danglingRoute : VpcConfig :=
  mkVpcConfig "Main" "network" "eu-west-1" ["10.0.0.0/16"] None None None None
    (Some [mkRouteTableConfig "Private"
             (Some [mkRouteTableEntryConfig "Out" "0.0.0.0/0" "natGateway" "Egress"])])
    None None None None.

(** VPC definitions of another region and of another account. *)
Definition otherRegion : VpcConfig :=
  mkVpcConfig "Far" "network" "us-east-1" ["10.1.0.0/16"] (Some true) None None None
    (Some [mkRouteTableConfig "Public" None]) None None None None.

Definition otherAccount : VpcConfig :=
  mkVpcConfig "Audit" "audit" "eu-west-1" ["10.2.0.0/16"] (Some true) None None None
    (Some [mkRouteTableConfig "Public" None]) None None None None.

(** Two attachments of one VPC to the transit gateway [Hub]. *)
Definition hubA : TransitGatewayAttachmentConfig :=
  mkTransitGatewayAttachmentConfig "HubA" (mkTransitGatewayRef "Hub" "transit") None.

Definition hubB : TransitGatewayAttachmentConfig :=
  mkTransitGatewayAttachmentConfig "HubB" (mkTransitGatewayRef "Hub" "transit") None.

(** A VPC of this stack attached to a transit gateway of its own account. *)
Definition localHub : VpcConfig :=
  mkVpcConfig "Main" "network" "eu-west-1" ["10.0.0.0/16"] None None None None
    None None None
    (Some [mkTransitGatewayAttachmentConfig "Local"
             (mkTransitGatewayRef "Core" "network") None])
    None.

(** The identifier of the transit gateway [Hub], as a resolution pass could
    have stored it. *)
Definition hubIds : gmap string string := <["Hub" := "tgw-hub"]> ∅.


(** A VPC of this stack attached to a transit gateway whose owner is not
    among the accounts of [sampleAccountIds]. *)
Definition strayHub : VpcConfig :=
  mkVpcConfig "Main" "network" "eu-west-1" ["10.0.0.0/16"] None None None None
    None None None
    (Some [mkTransitGatewayAttachmentConfig "Stray"
             (mkTransitGatewayRef "Lost" "nobody") None])
    None.

(** ** Properties *)

(** *** The synthesis monad and its loops *)

Lemma bind_ok {A B : Type} (c : Synth A) (k : A -> Synth B) s s' a :
  c s = (s', Ok a) -> bind c k s = k a s'.
Proof. intros H. unfold bind. by rewrite H. Qed.

(** A throw ends the computation: the continuation is not run. *)
Lemma bind_throw {A B : Type} (c : Synth A) (k : A -> Synth B) s s' msg :
  c s = (s', Throw msg) -> bind c k s = (s', Throw msg).
Proof. intros H. unfold bind. by rewrite H. Qed.

Lemma bind_assoc {A B C : Type} (c : Synth A) (k : A -> Synth B) (k' : B -> Synth C) s :
  bind (bind c k) k' s = bind c (fun a => bind (k a) k') s.
Proof. unfold bind. destruct (c s) as [s' [a|msg]]; reflexivity. Qed.

Lemma bind_ext {A B : Type} (c : Synth A) (k k' : A -> Synth B) s :
  (forall a s', k a s' = k' a s') -> bind c k s = bind c k' s.
Proof. intros H. unfold bind. destruct (c s) as [s' [a|msg]]; [apply H | reflexivity]. Qed.

(** A throw in the body of a loop ends the loop: the remaining items are
    not visited. *)
Lemma forEach_throw {A B : Type} (body : B -> A -> Synth B) x l acc s s' msg :
  body acc x s = (s', Throw msg) -> forEach body (x :: l) acc s = (s', Throw msg).
Proof. intros H. simpl. by apply bind_throw. Qed.

Lemma forEach_app {A B : Type} (body : B -> A -> Synth B) l1 l2 acc s :
  forEach body (l1 ++ l2) acc s = bind (forEach body l1 acc) (forEach body l2) s.
Proof.
  revert acc s. induction l1 as [|x l1 IH]; intros acc s; simpl.
  - reflexivity.
  - unfold bind at 1 2 3.
    destruct (body acc x s) as [s' [acc'|msg]]; [|reflexivity].
    rewrite IH. reflexivity.
Qed.

(** Loops whose body acts only on the items that pass a test. *)
Lemma forEach_filter {A B : Type} (test : A -> bool) (body : B -> A -> Synth B) l acc s :
  forEach (fun acc x => if test x then body acc x else ret acc) l acc s
  = forEach body (filter (fun x => test x = true) l) acc s.
Proof.
  revert acc s. induction l as [|x l IH]; intros acc s; simpl; [reflexivity|].
  rewrite filter_cons. destruct (test x) eqn:Hx.
  - rewrite decide_True by done. simpl. unfold bind.
    destruct (body acc x s) as [s' [acc'|msg]]; [apply IH | reflexivity].
  - rewrite decide_False by done. unfold bind, ret. apply IH.
Qed.

(** *** Strings *)

Lemma prefix_app (a b : string) : String.prefix a (a +:+ b) = true.
Proof.
  induction a as [|c a IH]; simpl.
  - by destruct b.
  - destruct (Ascii.ascii_dec c c); [exact IH | done].
Qed.

Lemma includes_prefix (s sub : string) :
  String.prefix sub s = true -> includes s sub = true.
Proof. intros H. destruct s; cbn [includes]; by rewrite H. Qed.

Lemma includes_app (pre sub post : string) :
  includes (pre +:+ sub +:+ post) sub = true.
Proof.
  induction pre as [|c pre IH].
  - apply includes_prefix. exact (prefix_app sub post).
  - change (String c pre +:+ sub +:+ post) with (String c (pre +:+ sub +:+ post)).
    cbn [includes].
    destruct (String.prefix sub (String c (pre +:+ sub +:+ post))); [reflexivity | exact IH].
Qed.

Lemma prefix_inv (a s : string) :
  String.prefix a s = true -> exists b, s = a +:+ b.
Proof.
  revert s. induction a as [|c a IH]; intros s H.
  - by exists s.
  - destruct s as [|c' s]; [done|]. simpl in H.
    destruct (Ascii.ascii_dec c c') as [->|]; [|done].
    destruct (IH s H) as [b ->]. by exists b.
Qed.

(** [includes s sub] holds exactly when [sub] occurs in [s]. *)
Lemma includes_spec (s sub : string) :
  includes s sub = true <-> exists pre post, s = pre +:+ sub +:+ post.
Proof.
  split; [|intros (pre & post & ->); apply includes_app].
  induction s as [|c s IH]; cbn [includes].
  - destruct (String.prefix sub "") eqn:E; [|done]. intros _.
    apply prefix_inv in E as [b E]. by exists "", b.
  - destruct (String.prefix sub (String c s)) eqn:E.
    + intros _. apply prefix_inv in E as [b E]. by exists "", b.
    + intros H. destruct (IH H) as (pre & post & ->). by exists (String c pre), post.
Qed.

Lemma indexOf_absent {A : Type} `{EqDecision A} (l : list A) (x : A) :
  indexOf l x = (-1)%Z <-> x ∉ l.
Proof.
  assert (Hge : forall l', (-1 <= indexOf l' x)%Z).
  { induction l' as [|y l' IH]; simpl; [lia|].
    destruct (decide (y = x)); [lia|].
    destruct (Z.eqb_spec (indexOf l' x) (-1)); lia. }
  induction l as [|y l IH]; simpl.
  - split; [intros _; apply not_elem_of_nil | done].
  - destruct (decide (y = x)) as [->|Hne].
    + split; [lia | intros Hx; destruct Hx; left].
    + rewrite not_elem_of_cons.
      destruct (Z.eqb_spec (indexOf l x) (-1)) as [E|E].
      * split; [intros _; split; [congruence | by apply IH] | done].
      * specialize (Hge l). split; [lia | intros [_ Hx]; apply IH in Hx; lia].
Qed.

Lemma pushIfAbsent_elem {A : Type} `{EqDecision A} (l : list A) (x y : A) :
  y ∈ pushIfAbsent l x <-> y ∈ l \/ y = x.
Proof.
  unfold pushIfAbsent. destruct (Z.eqb_spec (indexOf l x) (-1)) as [E|E].
  - rewrite elem_of_app, list_elem_of_singleton. tauto.
  - assert (x ∈ l).
    { destruct (decide (x ∈ l)) as [|Hn]; [done|]. by apply indexOf_absent in Hn. }
    split; [tauto | intros [?| ->]; done].
Qed.

Lemma pushIfAbsent_NoDup {A : Type} `{EqDecision A} (l : list A) (x : A) :
  NoDup l -> NoDup (pushIfAbsent l x).
Proof.
  intros Hl. unfold pushIfAbsent.
  destruct (Z.eqb_spec (indexOf l x) (-1)) as [E|E]; [|done].
  apply indexOf_absent in E. apply NoDup_app. split_and!; [done| |apply NoDup_singleton].
  intros y Hy Hy'. apply list_elem_of_singleton in Hy'. by subst.
Qed.

Section Properties.

Context {sdk : Sdk}.
Variable env : Env.
Variable props : AcceleratorStackProps.

(** The SDK renders the reference to a resource as a token, which is never
    the empty string. *)
Hypothesis cfnRef_token : forall p : Path, cfnRef p <> "".

(** *** The internet-gateway route *)

(** The guard of [addInternetGatewayRoute] lets the call through exactly when
    the identifier of the gateway is truthy. *)
Lemma addInternetGatewayRoute_guard (this : SecureRouteTable) id destination s :
  addInternetGatewayRoute this id destination s
  = match internetGatewayId (vpc this) with
    | Some igw =>
        if decide (igw = "") then (s, Throw igwError)
        else (mkAssembly
                (resources s ++ [CfnRoute (routeTableNode this ++ [id])
                                   (secureRouteTableId this) destination
                                   (GatewayId igw) []])
                (console s), Ok tt)
    | None => (s, Throw igwError)
    end.
Proof.
  unfold addInternetGatewayRoute, truthyString.
  destruct (internetGatewayId (vpc this)) as [igw|]; [|reflexivity].
  destruct (decide (igw = "")) as [->|Hne]; [reflexivity|].
  apply String.eqb_neq in Hne. rewrite Hne. reflexivity.
Qed.

(** C1. A route table whose VPC has no internet gateway identifier refuses
    the internet-gateway route: [addInternetGatewayRoute] throws and the
    assembly is left as it was, so no route is declared.  [new SecureVpc]
    gives the VPC an identifier exactly when [internetGateway] is set; for a
    VPC built with it, and for any VPC whose identifier is a non-empty
    string, the call returns and declares one route whose gateway is that
    identifier.  The stack's dispatch of an [internetGateway] route entry
    inherits the refusal. *)
Theorem addInternetGatewayRoute_requires_gateway :
  (forall (this : SecureRouteTable) id destination s,
      internetGatewayId (vpc this) = None ->
      addInternetGatewayRoute this id destination s = (s, Throw igwError))
  /\ (forall (this : SecureRouteTable) igw id destination s,
      internetGatewayId (vpc this) = Some igw -> igw <> "" ->
      addInternetGatewayRoute this id destination s
      = (mkAssembly
           (resources s ++ [CfnRoute (routeTableNode this ++ [id])
                              (secureRouteTableId this) destination (GatewayId igw) []])
           (console s), Ok tt))
  /\ (forall scope vid (vprops : SecureVpcProps) s0,
      exists s1 v, newSecureVpc scope vid vprops s0 = (s1, Ok v)
        /\ (truthyBool (vp_internetGateway vprops) = false ->
            internetGatewayId v = None)
        /\ (truthyBool (vp_internetGateway vprops) = true ->
            exists igw, internetGatewayId v = Some igw /\ igw <> ""))
  /\ (forall vpcItem ids natMap atts rtItem (this : SecureRouteTable) acc e s,
      re_type e = "internetGateway" ->
      internetGatewayId (vpc this) = None ->
      exists s', createRouteTableEntry vpcItem ids natMap atts rtItem this acc e s
                 = (s', Throw igwError)
        /\ resources s' = resources s).
Proof using cfnRef_token.
  split_and!.
  - intros this id destination s H. rewrite addInternetGatewayRoute_guard, H. reflexivity.
  - intros this igw id destination s H Hne.
    rewrite addInternetGatewayRoute_guard, H. by rewrite decide_False.
  - intros scope vid vprops s0. unfold newSecureVpc.
    destruct (truthyBool (vp_internetGateway vprops)); eexists _, _;
      (split; [reflexivity|]); split; intros; try done.
    eexists; split; [reflexivity | apply cfnRef_token].
  - intros vpcItem ids natMap atts rtItem this [s3 ddb] e s Hty Hnone.
    unfold createRouteTableEntry. rewrite Hty. simpl.
    unfold bind, log. rewrite addInternetGatewayRoute_guard. simpl. rewrite Hnone.
    eexists; split; reflexivity.
Qed.

(** *** Route entries the dispatch does not recognise *)

(** C10. A route entry whose type is none of [transitGateway], [natGateway]
    and [internetGateway] and whose target is neither [s3] nor [dynamodb]
    falls through the dispatch: the step returns, the assembly (resources
    and console) is unchanged and so are the two endpoint lists. *)
Theorem createRouteTableEntry_unrecognised
    (vpcItem : VpcConfig) (ids : gmap string string)
    (natMap : gmap string SecureNatGateway)
    (atts : gmap string TransitGatewayAttachment)
    (rtItem : RouteTableConfig) (this : SecureRouteTable)
    (acc : list string * list string) (e : RouteTableEntryConfig) (s : Assembly) :
  re_type e <> "transitGateway" -> re_type e <> "natGateway" ->
  re_type e <> "internetGateway" ->
  re_target e <> "s3" -> re_target e <> "dynamodb" ->
  createRouteTableEntry vpcItem ids natMap atts rtItem this acc e s = (s, Ok acc).
Proof.
  intros H1 H2 H3 H4 H5. unfold createRouteTableEntry. destruct acc as [s3 ddb].
  rewrite !decide_False by done. reflexivity.
Qed.

(** *** The account and region filter *)

Lemma inThisStack_withVpcs l v :
  inThisStack env (withVpcs props l) v = inThisStack env props v.
Proof. reflexivity. Qed.

Lemma resolveTransitGateways_filter l acc s :
  resolveTransitGateways env props l acc s
  = forEach (fun acc vpcItem =>
               forEach (resolveTransitGateway env props)
                 (orEmpty (vpc_transitGatewayAttachments vpcItem)) acc)
      (filter (fun v => inThisStack env props v = true) l) acc s.
Proof. unfold resolveTransitGateways. apply forEach_filter. Qed.

Lemma evaluateVpcs_filter ids l s :
  evaluateVpcs env props ids l s
  = forEach (fun _ vpcItem => evaluateVpc env ids vpcItem)
      (filter (fun v => inThisStack env props v = true) l) tt s.
Proof.
  unfold evaluateVpcs. revert s. induction l as [|v l IH]; intros s; [reflexivity|].
  rewrite filter_cons. simpl. destruct (inThisStack env props v).
  - rewrite decide_True by done. simpl. unfold bind.
    destruct (evaluateVpc env ids v s) as [s' [[]|msg]]; [apply IH | reflexivity].
  - rewrite decide_False by done. unfold bind, ret. apply IH.
Qed.

Lemma filter_inThisStack_idemp (l : list VpcConfig) :
  filter (fun v => inThisStack env props v = true)
    (filter (fun v => inThisStack env props v = true) l)
  = filter (fun v => inThisStack env props v = true) l.
Proof.
  induction l as [|v l IH]; [reflexivity|].
  rewrite filter_cons. case_decide as Hv; [|exact IH].
  rewrite filter_cons, decide_True by done. by rewrite IH.
Qed.

(** C8. A VPC definition whose account or region is not that of the stack
    produces nothing: the stack synthesised from a list of definitions is the
    stack synthesised from the definitions that pass the test, with the same
    assembly and the same outcome; on such a definition alone both passes
    return at once and leave the assembly as it was; and when no definition
    passes the test the stack is that of an empty list. *)
Theorem NetworkVpcStack_ignores_other_stacks :
  (forall l s,
      NetworkVpcStack env (withVpcs props l) s
      = NetworkVpcStack env
          (withVpcs props (filter (fun v => inThisStack env props v = true) l)) s)
  /\ (forall v acc ids s,
      inThisStack env props v = false ->
      resolveTransitGateways env props [v] acc s = (s, Ok acc)
      /\ evaluateVpcs env props ids [v] s = (s, Ok tt))
  /\ (forall l s,
      Forall (fun v => inThisStack env props v = false) l ->
      NetworkVpcStack env (withVpcs props l) s
      = NetworkVpcStack env (withVpcs props []) s).
Proof.
  assert (Hfilter : forall l s,
      NetworkVpcStack env (withVpcs props l) s
      = NetworkVpcStack env
          (withVpcs props (filter (fun v => inThisStack env props v = true) l)) s).
  { intros l s. unfold NetworkVpcStack. simpl.
    apply bind_ext; intros _ s1. apply bind_ext; intros _ s2.
    change (resolveTransitGateways env (withVpcs props ?l))
      with (resolveTransitGateways env props).
    change (evaluateVpcs env (withVpcs props ?l)) with (evaluateVpcs env props).
    unfold bind at 1 3.
    rewrite (resolveTransitGateways_filter l).
    rewrite (resolveTransitGateways_filter (filter _ l)).
    rewrite filter_inThisStack_idemp.
    destruct (forEach _ _ _ s2) as [s3 [[ids accts]|msg]]; [|reflexivity].
    apply bind_ext; intros _ s4.
    rewrite (evaluateVpcs_filter ids l).
    rewrite (evaluateVpcs_filter ids (filter _ l)).
    rewrite filter_inThisStack_idemp. reflexivity. }
  split_and!.
  - exact Hfilter.
  - intros v acc ids s Hv. unfold resolveTransitGateways, evaluateVpcs. simpl.
    rewrite Hv. done.
  - intros l s Hl. rewrite Hfilter.
    replace (filter (fun v => inThisStack env props v = true) l) with (@nil VpcConfig);
      [reflexivity|].
    induction Hl as [|v l Hv _ IH]; [reflexivity|].
    rewrite filter_cons, decide_False; [exact IH | congruence].
Qed.

(** *** The transit-gateway resolution pass *)

Lemma resolveTransitGateways_visited l acc s :
  resolveTransitGateways env props l acc s
  = forEach (resolveTransitGateway env props) (visitedAttachments env props l) acc s.
Proof.
  rewrite resolveTransitGateways_filter. unfold visitedAttachments, vpcsInThisStack.
  revert acc s.
  induction (filter (fun v => inThisStack env props v = true) l) as [|v vs IH];
    intros acc s; simpl; [reflexivity|].
  rewrite forEach_app. apply bind_ext. intros acc' s'. apply IH.
Qed.

Lemma lookupCount_app rs rs' : lookupCount (rs ++ rs') = lookupCount rs + lookupCount rs'.
Proof. unfold lookupCount. by rewrite filter_app, length_app. Qed.

Lemma roles_app rs rs' : roles (rs ++ rs') = roles rs ++ roles rs'.
Proof. unfold roles. by rewrite filter_app. Qed.

(** One step of the resolution never throws; it changes the local variables
    as [resolution] says, adds one lookup to the assembly when the name is
    new and nothing when it is known. *)
Lemma resolveTransitGateway_step acc a s :
  exists s' added,
    resolveTransitGateway env props acc a s = (s', Ok (resolution env props acc a))
    /\ resources s' = resources s ++ added
    /\ (is_Some (acc.1 !! gatewayName a) -> added = [])
    /\ lookupCount added = match acc.1 !! gatewayName a with Some _ => 0 | None => 1 end
    /\ roles added = [].
Proof.
  destruct acc as [ids accts]. unfold resolveTransitGateway, resolution, gatewayName.
  simpl. destruct (ids !! tgw_name (ta_transitGateway a)) as [id|] eqn:Hid.
  - exists (mkAssembly (resources s)
              (console s
               ++ ["Evaluating Transit Gateway key " +:+ tgw_name (ta_transitGateway a)]
               ++ ["Transit Gateway " +:+ tgw_name (ta_transitGateway a)
                   +:+ " already in dictionary"])), [].
    split; [unfold bind, log, ret; simpl; by rewrite <- app_assoc|].
    simpl. by rewrite app_nil_r.
  - unfold lookedUpId, owningAccount, gatewayName.
    destruct (decide (accountIdOf props (tgw_account (ta_transitGateway a))
                      = Some (account env))) as [Ho|Ho].
    + eexists _, _. split; [reflexivity|]. simpl.
      split_and!; [reflexivity | by intros [? ?] | reflexivity | reflexivity].
    + eexists _, _. split; [reflexivity|]. simpl. rewrite <- !app_assoc. simpl.
      split_and!; [reflexivity | by intros [? ?] | reflexivity | reflexivity].
Qed.

Lemma resolution_size acc a :
  size (resolution env props acc a).1
  = size acc.1 + match acc.1 !! gatewayName a with Some _ => 0 | None => 1 end.
Proof.
  unfold resolution. destruct (acc.1 !! gatewayName a) eqn:E; simpl; [lia|].
  rewrite map_size_insert_None by done. lia.
Qed.

(** The pass never throws; its result is the fold of [resolution] over the
    visited attachments, it adds as many lookups as it adds names to the
    map, and it adds no role. *)
Lemma resolveTransitGateways_pass visited : forall acc s,
  exists s' added,
    forEach (resolveTransitGateway env props) visited acc s
    = (s', Ok (fold_left (resolution env props) visited acc))
    /\ resources s' = resources s ++ added
    /\ lookupCount added + size acc.1
       = size (fold_left (resolution env props) visited acc).1
    /\ roles added = [].
Proof.
  induction visited as [|a visited IH]; intros acc s; simpl.
  - exists s, []. split; [reflexivity|]. rewrite app_nil_r. done.
  - destruct (resolveTransitGateway_step acc a s) as (s1 & d1 & Hs1 & Hd1 & _ & Hc & Hr).
    destruct (IH (resolution env props acc a) s1) as (s2 & d2 & Hs2 & Hd2 & Hc2 & Hr2).
    exists s2, (d1 ++ d2). rewrite (bind_ok _ _ _ _ _ Hs1). split; [exact Hs2|].
    rewrite Hd2, Hd1, <- app_assoc, lookupCount_app, roles_app, Hr, Hr2.
    rewrite resolution_size in Hc2. split_and!; [done | lia | done].
Qed.

(** The map only grows: an entry is never overwritten. *)
Lemma resolution_grows visited : forall acc,
  acc.1 ⊆ (fold_left (resolution env props) visited acc).1.
Proof.
  induction visited as [|a visited IH]; intros acc; simpl; [done|].
  etrans; [|apply IH]. unfold resolution.
  destruct (acc.1 !! gatewayName a) eqn:E; [done|]. simpl. by apply insert_subseteq.
Qed.

Lemma firstNew_cons_known known a0 visited a :
  is_Some (known !! gatewayName a0) ->
  firstNew known (a0 :: visited) a <-> firstNew known visited a.
Proof.
  intros [id0 H0]. unfold firstNew, firstToName. split.
  - intros [(pre & post & Heq & Hpre) Hnone]. destruct pre as [|b pre]; simpl in *.
    + injection Heq as <- _. congruence.
    + injection Heq as <- ->. split; [|done]. exists pre, post. split; [done|].
      intros Hin. apply Hpre. by right.
  - intros [(pre & post & -> & Hpre) Hnone]. split; [|done].
    exists (a0 :: pre), post. split; [done|]. simpl. rewrite not_elem_of_cons.
    split; [congruence | done].
Qed.

Lemma firstNew_cons_new known a0 visited a id :
  known !! gatewayName a0 = None ->
  firstNew known (a0 :: visited) a
  <-> a = a0 \/ firstNew (<[gatewayName a0 := id]> known) visited a.
Proof.
  intros H0. unfold firstNew, firstToName. split.
  - intros [(pre & post & Heq & Hpre) Hnone]. destruct pre as [|b pre]; simpl in *.
    + injection Heq as <- _. by left.
    + injection Heq as <- ->. right. apply not_elem_of_cons in Hpre as [Hne Hpre].
      split; [by exists pre, post|]. by rewrite lookup_insert_ne.
  - intros [-> | [(pre & post & -> & Hpre) Hnone]].
    + split; [|done]. exists [], visited. split; [done | apply not_elem_of_nil].
    + apply lookup_insert_None in Hnone as [Hnone Hne]. split; [|done].
      exists (a0 :: pre), post. split; [done|]. simpl. rewrite not_elem_of_cons.
      split; [congruence | done].
Qed.

(** After the pass a transit gateway is mapped to the identifier looked up
    for the first attachment that names it. *)
Lemma resolution_first visited : forall acc a,
  firstNew acc.1 visited a ->
  (fold_left (resolution env props) visited acc).1 !! gatewayName a
  = Some (lookedUpId env props a).
Proof.
  induction visited as [|a0 visited IH]; intros acc a Ha.
  - destruct Ha as [(pre & post & Heq & _) _]. by destruct pre.
  - simpl. unfold resolution at 2.
    destruct (acc.1 !! gatewayName a0) as [id0|] eqn:H0.
    + apply IH. apply (firstNew_cons_known _ a0); [by eexists | done].
    + destruct (proj1 (firstNew_cons_new _ _ _ _ (lookedUpId env props a0) H0) Ha)
        as [->|Ha'].
      * eapply lookup_weaken; [|apply resolution_grows]. simpl. apply lookup_insert_eq.
      * by apply IH.
Qed.

(** The names in the map after the pass: those known before and those of
    the visited attachments. *)
Lemma resolution_dom visited : forall acc name,
  is_Some ((fold_left (resolution env props) visited acc).1 !! name)
  <-> is_Some (acc.1 !! name) \/ name ∈ map gatewayName visited.
Proof.
  induction visited as [|a0 visited IH]; intros acc name; simpl.
  - rewrite elem_of_nil. tauto.
  - rewrite IH, elem_of_cons. unfold resolution.
    destruct (acc.1 !! gatewayName a0) as [id0|] eqn:H0; simpl.
    + split; [tauto|]. intros [?|[->|?]]; [tauto | left; by rewrite H0 | tauto].
    + rewrite lookup_insert_is_Some. destruct (decide (gatewayName a0 = name)); intuition (subst; auto; congruence).
Qed.

(** The owners recorded by the pass are those of the first attachments that
    name a transit gateway of another account, without repetition. *)
Lemma resolution_owners visited : forall acc o,
  o ∈ (fold_left (resolution env props) visited acc).2
  <-> o ∈ acc.2
      \/ exists a, firstNew acc.1 visited a /\ owningAccount props a = o
                   /\ o <> Some (account env).
Proof.
  induction visited as [|a0 visited IH]; intros acc o; simpl.
  - split; [tauto|]. intros [?|(a & [(pre & post & Heq & _) _] & _)]; [done|].
    by destruct pre.
  - rewrite IH. unfold resolution.
    destruct (acc.1 !! gatewayName a0) as [id0|] eqn:H0; simpl.
    + setoid_rewrite (firstNew_cons_known acc.1 a0 visited); [done | by eexists].
    + setoid_rewrite (firstNew_cons_new acc.1 a0 visited _ (lookedUpId env props a0));
        [|done].
      destruct (decide (owningAccount props a0 = Some (account env))) as [Ho|Ho].
      * split.
        -- intros [?|(a & Ha & Hoa & Hne)]; [by left|].
           right. exists a. split; [by right | done].
        -- intros [?|(a & [->|Ha] & <- & Hne)]; [by left | done |].
           right. by exists a.
      * rewrite pushIfAbsent_elem. split.
        -- intros [[?| ->]|(a & Ha & Hoa & Hne)]; [by left | |].
           ++ right. exists a0. split; [by left | done].
           ++ right. exists a. split; [by right | done].
        -- intros [?|(a & [->|Ha] & <- & Hne)]; [by left; left | by left; right |].
           right. by exists a.
Qed.

Lemma resolution_owners_NoDup visited : forall acc,
  NoDup acc.2 -> NoDup (fold_left (resolution env props) visited acc).2.
Proof.
  induction visited as [|a0 visited IH]; intros acc Hacc; simpl; [done|].
  apply IH. unfold resolution. destruct (acc.1 !! gatewayName a0); [done|]. simpl.
  case_decide; [done | by apply pushIfAbsent_NoDup].
Qed.

(** *** Specifications of computations *)

Lemma meets_ret {A : Type} P `{!Additive P} (Q : A -> Prop) E a :
  Q a -> meets P Q E (ret a).
Proof.
  intros Ha s. exists []. simpl. rewrite app_nil_r. split_and!; [done|apply additive_nil|done].
Qed.

Lemma meets_throw {A : Type} P `{!Additive P} (Q : A -> Prop) (E : string -> Prop) msg :
  E msg -> meets P Q E (throw msg).
Proof.
  intros Hm s. exists []. simpl. rewrite app_nil_r. split_and!; [done|apply additive_nil|done].
Qed.

Lemma meets_log P `{!Additive P} (Q : unit -> Prop) E line :
  Q tt -> meets P Q E (log line).
Proof.
  intros Hq s. exists []. simpl. rewrite app_nil_r. split_and!; [done|apply additive_nil|done].
Qed.

Lemma meets_declare (P : list Resource -> Prop) (Q : unit -> Prop) E r :
  P [r] -> Q tt -> meets P Q E (declare r).
Proof. intros Hr Hq s. exists [r]. simpl. done. Qed.

Lemma meets_bind {A B : Type} P `{!Additive P} (Q : A -> Prop) (R : B -> Prop) E
    (c : Synth A) (k : A -> Synth B) :
  meets P Q E c -> (forall a, Q a -> meets P R E (k a)) -> meets P R E (bind c k).
Proof.
  intros Hc Hk s. destruct (Hc s) as (d & Hd & HP & Hout). unfold bind.
  destruct (c s) as [s1 [a|msg]]; simpl in *.
  - destruct (Hk a Hout s1) as (d' & Hd' & HP' & Hout').
    exists (d ++ d'). rewrite Hd', Hd, <- app_assoc.
    split_and!; [done | by apply additive_app | done].
  - exists d. done.
Qed.

Lemma meets_weaken {A : Type} (P P' : list Resource -> Prop) (Q Q' : A -> Prop)
    (E E' : string -> Prop) c :
  meets P Q E c ->
  (forall d, P d -> P' d) -> (forall a, Q a -> Q' a) -> (forall m, E m -> E' m) ->
  meets P' Q' E' c.
Proof.
  intros Hc HP HQ HE s. destruct (Hc s) as (d & Hd & Hp & Hout).
  exists d. split_and!; [done | by apply HP |].
  destruct ((c s).2); [by apply HQ | by apply HE].
Qed.

(** The rule of loops: the invariant [I] relates the items visited so far to
    the local variables. *)
Lemma meets_forEach {A B : Type} P `{!Additive P} (I : list A -> B -> Prop) E
    (body : B -> A -> Synth B) (l : list A) (acc : B) :
  I [] acc ->
  (forall pre x post acc, l = pre ++ x :: post -> I pre acc ->
     meets P (I (pre ++ [x])) E (body acc x)) ->
  meets P (I l) E (forEach body l acc).
Proof.
  intros H0 Hbody.
  cut (forall post pre acc, l = pre ++ post -> I pre acc ->
         meets P (I l) E (forEach body post acc)).
  { intros H. by apply (H l []). }
  clear acc H0. induction post as [|x post IH]; intros pre acc Hl Hacc; simpl.
  - rewrite app_nil_r in Hl. subst pre. by apply meets_ret.
  - eapply meets_bind; [done | by eapply Hbody |].
    intros acc' Hacc'. apply (IH (pre ++ [x])); [|done].
    by rewrite <- app_assoc.
Qed.

(** *** The steps of the per-VPC build *)

Lemma published_app rs rs' : published (rs ++ rs') = published rs ++ published rs'.
Proof. unfold published. by rewrite flat_map_app. Qed.

Lemma created_app rs rs' : created (rs ++ rs') = created rs ++ created rs'.
Proof. unfold created. by rewrite flat_map_app. Qed.

#[local] Instance vpcAdditions_additive vpcItem : Additive (vpcAdditions vpcItem).
Proof.
  split.
  - unfold vpcAdditions. split_and!; try done. apply Forall_nil_2.
  - intros d d' (Hr & Hl & Hp & He) (Hr' & Hl' & Hp' & He'). unfold vpcAdditions.
    rewrite roles_app, lookupCount_app, published_app, created_app, map_app.
    rewrite Hr, Hr', Hl, Hl', Hp, Hp'. split_and!; try done. by apply Forall_app.
Qed.

(** Running a step that has no loop in it: the cases of the step are split
    and the resources it adds are read off the resulting assembly. *)
Ltac split_step :=
  repeat match goal with
  | |- context [match ?m !! ?k with _ => _ end] =>
      let E := fresh "Hlookup" in destruct (m !! k) eqn:E
  | |- context [decide ?P] => destruct (decide P)
  | |- context [truthyBool ?b] =>
      let E := fresh "Htruthy" in destruct (truthyBool b) eqn:E
  end.

Ltac read_added :=
  simpl; eexists; split;
  [ rewrite <- ?app_assoc; simpl; first [ reflexivity | symmetry; apply app_nil_r ] | ].

Ltac additions :=
  unfold vpcAdditions, roles, lookupCount, published, created, endpointsServe;
  simpl; split_and!; try done; repeat constructor; try done.

Lemma createVpc_meets vpcItem E :
  meets (vpcAdditions vpcItem) (fun v => v = vpcObject vpcItem) E
    (createVpc vpcItem).
Proof.
  intros s. unfold createVpc, newSecureVpc, newStringParameter, bind, declare, ret,
    vpcObject.
  simpl. split_step; read_added; (split; [additions | done]).
Qed.

Lemma createRouteTable_meets vpcItem E pre m routeTableItem :
  routeTablesOf vpcItem pre m ->
  meets (vpcAdditions vpcItem)
    (routeTablesOf vpcItem (pre ++ [routeTableItem])) E
    (createRouteTable vpcItem (vpcObject vpcItem) m routeTableItem).
Proof.
  intros Hm s.
  unfold createRouteTable, newSecureRouteTable, newStringParameter, bind, declare, ret.
  simpl. read_added. split; [additions|].
  intros name. rewrite map_app, lookup_insert. simpl.
  destruct (decide (rt_name routeTableItem = name)) as [<-|Hne].
  - rewrite decide_True; [reflexivity|]. apply elem_of_app. right. by left.
  - rewrite Hm. destruct (decide (name ∈ map rt_name pre)) as [Hin|Hin].
    + rewrite decide_True; [done|]. apply elem_of_app. by left.
    + rewrite decide_False; [done|]. rewrite elem_of_app, list_elem_of_singleton.
      intros [?|?]; congruence.
Qed.

Lemma createSubnet_meets ids vpcItem rtMap pre m subnetItem :
  routeTablesOf vpcItem (orEmpty (vpc_routeTables vpcItem)) rtMap ->
  subnetItem ∈ orEmpty (vpc_subnets vpcItem) ->
  subnetsOf vpcItem pre m ->
  meets (vpcAdditions vpcItem)
    (fun m' => subnetsOf vpcItem (pre ++ [subnetItem]) m'
               /\ subnetResolved vpcItem subnetItem)
    (buildError ids vpcItem)
    (createSubnet env vpcItem (vpcObject vpcItem) rtMap m subnetItem).
Proof.
  intros Hrt Hin [Hdom Hid] s.
  unfold createSubnet, newSecureSubnet, newStringParameter, bind, declare, ret, log, throw.
  simpl. rewrite Hrt. split_step; read_added.
  - split; [additions|]. split; [|done]. split.
    + intros name. rewrite map_app, lookup_insert_is_Some, elem_of_app, Hdom. simpl.
      rewrite list_elem_of_singleton.
      destruct (decide (sn_name subnetItem = name)); intuition (subst; auto; congruence).
    + intros name subnet. rewrite lookup_insert.
      case_decide as Hn; [intros [= <-]; by subst | apply Hid].
  - split; [additions|]. right. eexists. by apply unresolved_route_table.
Qed.

Lemma createNatGateway_meets ids vpcItem snMap pre m natGatewayItem :
  subnetsOf vpcItem (orEmpty (vpc_subnets vpcItem)) snMap ->
  natGatewayItem ∈ orEmpty (vpc_natGateways vpcItem) ->
  natGatewaysOf vpcItem pre m ->
  meets (vpcAdditions vpcItem)
    (fun m' => natGatewaysOf vpcItem (pre ++ [natGatewayItem]) m'
               /\ natGatewayResolved vpcItem natGatewayItem)
    (buildError ids vpcItem)
    (createNatGateway vpcItem snMap m natGatewayItem).
Proof.
  intros [Hdom Hid] Hin Hm s.
  unfold createNatGateway, newSecureNatGateway, newStringParameter, bind, declare, ret,
    log, throw.
  simpl. split_step; read_added.
  - split; [additions|]. split; [|apply Hdom; by eexists].
    intros name. rewrite map_app, lookup_insert. simpl.
    destruct (decide (ng_name natGatewayItem = name)) as [<-|Hne].
    + rewrite decide_True; [reflexivity|]. apply elem_of_app. right. by left.
    + rewrite Hm. destruct (decide (name ∈ map ng_name pre)) as [Hin'|Hin'].
      * rewrite decide_True; [done|]. apply elem_of_app. by left.
      * rewrite decide_False; [done|]. rewrite elem_of_app, list_elem_of_singleton.
        intros [?|?]; congruence.
  - split; [additions|]. right. eexists. apply unresolved_nat_subnet; [done|].
    intros Hn. apply Hdom in Hn as [? Hn]. congruence.
Qed.

(** The inner loop of an attachment leaves the assembly as it is; it returns
    the identifiers of the named subnets, or throws at the first name that
    the subnet map does not hold. *)
Lemma collectSubnetId_loop (m : gmap string SecureSubnet) (l : list string) :
  forall acc s,
    (exists subnets, Forall2 (fun name subnet => m !! name = Some subnet) l subnets
       /\ forEach (collectSubnetId m) l acc s = (s, Ok (acc ++ map subnetId subnets)))
    \/ (exists pre name post, l = pre ++ name :: post
          /\ Forall (fun n => is_Some (m !! n)) pre
          /\ m !! name = None
          /\ forEach (collectSubnetId m) l acc s
             = (s, Throw ("Subnet " +:+ name +:+ " not defined"))).
Proof.
  induction l as [|name l IH]; intros acc s.
  - left. exists []. split; [constructor|]. simpl. by rewrite app_nil_r.
  - simpl. unfold collectSubnetId at 1 3, bind, ret, throw.
    destruct (m !! name) as [subnet|] eqn:Hname.
    + destruct (IH (acc ++ [subnetId subnet]) s)
        as [(subnets & Hall & Hrun)|(pre & n & post & -> & Hpre & Hn & Hrun)].
      * left. exists (subnet :: subnets). split; [by constructor|].
        rewrite Hrun. simpl. by rewrite <- app_assoc.
      * right. exists (name :: pre), n, post. split_and!; try done.
        constructor; [by eexists | done].
    + right. exists [], name, l. split_and!; try done.
Qed.

Lemma filter_none {A : Type} (P : A -> Prop) `{forall x, Decision (P x)} (l : list A) :
  (forall x, x ∈ l -> ~ P x) -> filter P l = [].
Proof.
  induction l as [|x l IH]; intros Hl; [reflexivity|].
  rewrite filter_cons, decide_False by (apply Hl; by left).
  apply IH. intros y Hy. apply Hl. by right.
Qed.

Lemma last_filter_snoc {A : Type} (P : A -> Prop) `{forall x, Decision (P x)}
    (pre : list A) (x : A) :
  last (filter P (pre ++ [x])) = if decide (P x) then Some x else last (filter P pre).
Proof.
  rewrite filter_app, filter_cons, filter_nil.
  destruct (decide (P x)); [apply last_snoc | by rewrite app_nil_r].
Qed.

Lemma collectSubnetIds_meets ids vpcItem snMap a :
  subnetsOf vpcItem (orEmpty (vpc_subnets vpcItem)) snMap ->
  a ∈ orEmpty (vpc_transitGatewayAttachments vpcItem) ->
  meets (vpcAdditions vpcItem)
    (fun _ => forall name, name ∈ orEmpty (ta_subnets a) ->
                           name ∈ map sn_name (orEmpty (vpc_subnets vpcItem)))
    (buildError ids vpcItem)
    (forEach (collectSubnetId snMap) (orEmpty (ta_subnets a)) []).
Proof.
  intros [Hdom Hid] Hin s. exists []. rewrite app_nil_r.
  destruct (collectSubnetId_loop snMap (orEmpty (ta_subnets a)) [] s)
    as [(subnets & Hall & ->)|(pre' & n & post & Heq & Hpre & Hn & ->)]; simpl.
  - split_and!; [done | apply additive_nil |].
    intros name Hname. apply Hdom.
    apply list_elem_of_lookup in Hname as [i Hi].
    destruct (Forall2_lookup_l _ _ _ _ _ Hall Hi) as (subnet & _ & Hsubnet).
    by eexists.
  - split_and!; [done | apply additive_nil |]. right. exists n.
    apply (unresolved_attachment_subnet _ _ a); [done| |].
    + rewrite Heq. apply elem_of_app. right. by left.
    + intros Hn'. apply Hdom in Hn' as [? Hn']. congruence.
Qed.

Lemma createTransitGatewayAttachment_meets ids vpcItem snMap pre m a :
  subnetsOf vpcItem (orEmpty (vpc_subnets vpcItem)) snMap ->
  a ∈ orEmpty (vpc_transitGatewayAttachments vpcItem) ->
  attachmentsOf pre m ->
  meets (vpcAdditions vpcItem)
    (fun m' => attachmentsOf (pre ++ [a]) m' /\ attachmentResolved ids vpcItem a)
    (buildError ids vpcItem)
    (createTransitGatewayAttachment vpcItem (vpcObject vpcItem) ids snMap m a).
Proof.
  intros Hsn Hin Hm. unfold createTransitGatewayAttachment.
  eapply meets_bind; [apply _ | by apply (meets_log _ (fun _ => True)) | intros _ _].
  destruct (ids !! tgw_name (ta_transitGateway a)) as [tgwId|] eqn:Hids.
  - eapply meets_bind;
      [apply _ | by apply collectSubnetIds_meets | intros subnetIds Hsubnets].
    intros s.
    unfold newTransitGatewayAttachment, newStringParameter, bind, declare, ret.
    read_added. split; [additions|].
    split; [|split; [unfold gatewayName; by eexists | done]].
    intros name. rewrite last_filter_snoc, lookup_insert. unfold gatewayName at 1.
    destruct (decide (tgw_name (ta_transitGateway a) = name)) as [<-|Hne].
    + reflexivity.
    + apply Hm.
  - apply meets_throw; [apply _|]. right. eexists.
    by apply unresolved_attachment_gateway.
Qed.

Lemma endpointLists_skip acc0 rtId pre acc e :
  endpointLists acc0 rtId pre acc ->
  ~ serviceEntry "s3" e -> ~ serviceEntry "dynamodb" e ->
  endpointLists acc0 rtId (pre ++ [e]) acc.
Proof.
  intros (H1 & H2 & H3 & H4 & H5 & H6) Hs3 Hddb. split_and!; try done.
  - intros e' [He'|He']%elem_of_app; [by eauto|].
    apply list_elem_of_singleton in He' as ->. done.
  - intros e' [He'|He']%elem_of_app; [by eauto|].
    apply list_elem_of_singleton in He' as ->. done.
Qed.

Lemma attachmentsOf_None atts m name :
  attachmentsOf atts m -> m !! name = None -> name ∉ map gatewayName atts.
Proof.
  intros Hm Hnone Hin. rewrite Hm in Hnone.
  apply list_elem_of_fmap in Hin as (a & -> & Ha).
  destruct (last (filter (fun a0 => gatewayName a0 = gatewayName a) atts)) eqn:E;
    [done|].
  apply last_None in E.
  assert (a ∈ filter (fun a0 => gatewayName a0 = gatewayName a) atts) as Ha'
    by (by apply list_elem_of_filter).
  rewrite E in Ha'. by apply elem_of_nil in Ha'.
Qed.

Lemma attachmentsOf_Some atts m name att :
  attachmentsOf atts m -> m !! name = Some att -> name ∈ map gatewayName atts.
Proof.
  intros Hm Hsome. rewrite Hm in Hsome.
  destruct (last (filter (fun a0 => gatewayName a0 = name) atts)) as [a|] eqn:E;
    [|done].
  apply last_Some_elem_of, list_elem_of_filter in E as [<- Ha].
  by apply list_elem_of_fmap_2.
Qed.

Lemma createRouteTableEntry_meets ids vpcItem natMap attMap rtItem acc0 pre acc e :
  natGatewaysOf vpcItem (orEmpty (vpc_natGateways vpcItem)) natMap ->
  attachmentsOf (orEmpty (vpc_transitGatewayAttachments vpcItem)) attMap ->
  rtItem ∈ orEmpty (vpc_routeTables vpcItem) ->
  e ∈ orEmpty (rt_routes rtItem) ->
  endpointLists acc0 (routeTableId (routeTableObject vpcItem (rt_name rtItem))) pre acc ->
  meets (vpcAdditions vpcItem)
    (fun acc' =>
       endpointLists acc0 (routeTableId (routeTableObject vpcItem (rt_name rtItem)))
         (pre ++ [e]) acc'
       /\ routeEntryResolved ids vpcItem e)
    (buildError ids vpcItem)
    (createRouteTableEntry vpcItem ids natMap attMap rtItem
       (routeTableObject vpcItem (rt_name rtItem)) acc e).
Proof.
  intros Hnat Hatt Hrt He Hacc. unfold createRouteTableEntry. destruct acc as [s3 ddb].
  destruct (decide (re_type e = "transitGateway")) as [Hty|Hty1].
  { eapply meets_bind; [apply _ | by apply (meets_log _ (fun _ => True)) | intros _ _].
    destruct (ids !! re_target e) as [tgwId|] eqn:Hids.
    - destruct (attMap !! re_target e) as [att|] eqn:Hatt'.
      + eapply meets_bind; [apply _ | | intros _ _].
        * apply (meets_declare _ (fun _ => True)); [additions | done].
        * apply meets_ret; [apply _|]. split.
          -- apply endpointLists_skip; [done | |]; intros (? & _); done.
          -- split; [|intros ?; congruence]. intros _.
             split; [done | by eapply attachmentsOf_Some].
      + apply meets_throw; [apply _|]. right. eexists.
        apply (unresolved_route_attachment _ _ rtItem); try done.
        by eapply attachmentsOf_None.
    - apply meets_throw; [apply _|]. right. eexists.
      by apply (unresolved_route_gateway _ _ rtItem). }
  destruct (decide (re_type e = "natGateway")) as [Hty|Hty2].
  { eapply meets_bind; [apply _ | by apply (meets_log _ (fun _ => True)) | intros _ _].
    destruct (natMap !! re_target e) as [nat|] eqn:Hnat'.
    - eapply meets_bind; [apply _ | | intros _ _].
      + apply (meets_declare _ (fun _ => True)); [additions | done].
      + apply meets_ret; [apply _|]. split.
        * apply endpointLists_skip; [done | |]; intros (_ & ? & _); done.
        * split; [done|]. intros _. rewrite Hnat in Hnat'.
          by destruct (decide (re_target e ∈ map ng_name
                                 (orEmpty (vpc_natGateways vpcItem)))).
    - apply meets_throw; [apply _|]. right. eexists.
      apply (unresolved_route_nat _ _ rtItem); try done.
      intros Hin. rewrite Hnat in Hnat'. by rewrite decide_True in Hnat'. }
  assert (Hres : routeEntryResolved ids vpcItem e) by (by split).
  destruct (decide (re_type e = "internetGateway")) as [Hty|Hty3].
  { eapply meets_bind; [apply _ | by apply (meets_log _ (fun _ => True)) | intros _ _].
    eapply meets_bind; [apply _ | | intros _ _].
    - intros s. rewrite addInternetGatewayRoute_guard.
      instantiate (1 := fun _ => True).
      destruct (internetGatewayId (vpc (routeTableObject vpcItem (rt_name rtItem))))
        as [igw|]; [destruct (decide (igw = ""))|]; read_added;
        (split; [additions | try done; by left]).
    - apply meets_ret; [apply _|]. split; [|done].
      apply endpointLists_skip; [done | |]; intros (_ & _ & ? & _); done. }
  destruct Hacc as (H1 & H2 & H3 & H4 & H5 & H6).
  destruct (decide (re_target e = "s3")) as [Hs3|Hs3].
  { apply meets_ret; [apply _|]. split; [|done]. unfold endpointLists. simpl in *.
    split_and!; try done.
    - by apply pushIfAbsent_NoDup.
    - intros x Hx. apply pushIfAbsent_elem. left. by apply H3.
    - intros e' _ _. apply pushIfAbsent_elem. by right.
    - intros e' [He'|He']%elem_of_app; [by eauto|].
      apply list_elem_of_singleton in He' as ->. intros (_ & _ & _ & ?). congruence. }
  destruct (decide (re_target e = "dynamodb")) as [Hddb|Hddb].
  { apply meets_ret; [apply _|]. split; [|done]. unfold endpointLists. simpl in *.
    split_and!; try done.
    - by apply pushIfAbsent_NoDup.
    - intros x Hx. apply pushIfAbsent_elem. left. by apply H4.
    - intros e' [He'|He']%elem_of_app; [by eauto|].
      apply list_elem_of_singleton in He' as ->. intros (_ & _ & _ & ?). congruence.
    - intros e' _ _. apply pushIfAbsent_elem. by right. }
  apply meets_ret; [apply _|]. split; [|done].
  apply endpointLists_skip; [done | |]; intros (_ & _ & _ & ?); done.
Qed.

Lemma createRouteTableEntries_meets ids vpcItem rtMap natMap attMap pre acc rtItem :
  routeTablesOf vpcItem (orEmpty (vpc_routeTables vpcItem)) rtMap ->
  natGatewaysOf vpcItem (orEmpty (vpc_natGateways vpcItem)) natMap ->
  attachmentsOf (orEmpty (vpc_transitGatewayAttachments vpcItem)) attMap ->
  rtItem ∈ orEmpty (vpc_routeTables vpcItem) ->
  endpointListsOf vpcItem pre acc ->
  meets (vpcAdditions vpcItem)
    (fun acc' =>
       endpointListsOf vpcItem (pre ++ [rtItem]) acc'
       /\ forall e, e ∈ orEmpty (rt_routes rtItem) -> routeEntryResolved ids vpcItem e)
    (buildError ids vpcItem)
    (createRouteTableEntries vpcItem ids rtMap natMap attMap acc rtItem).
Proof.
  intros Hrt Hnat Hatt Hin (H1 & H2 & H3 & H4). unfold createRouteTableEntries.
  rewrite Hrt, decide_True by (by apply list_elem_of_fmap_2).
  eapply meets_weaken with (P := vpcAdditions vpcItem)
    (E := buildError ids vpcItem); [|done| |done].
  - apply (meets_forEach _
             (fun pre' acc' =>
                endpointLists acc
                  (routeTableId (routeTableObject vpcItem (rt_name rtItem))) pre' acc'
                /\ forall e, e ∈ pre' -> routeEntryResolved ids vpcItem e)).
    + split; [|intros e He; by apply elem_of_nil in He].
      split_and!; try done.
      * intros e He. by apply elem_of_nil in He.
      * intros e He. by apply elem_of_nil in He.
    + intros pre' e post acc' Heq [Hacc' Hres].
      eapply meets_weaken; [apply createRouteTableEntry_meets; try done | done | | done].
      * rewrite Heq. apply elem_of_app. right. by left.
      * intros acc'' [Hacc'' He]. split; [done|].
        intros e' [He'|He']%elem_of_app; [by apply Hres|].
        by apply list_elem_of_singleton in He' as ->.
  - intros acc' [(G1 & G2 & G3 & G4 & G5 & G6) Hres]. split; [|done].
    split_and!; try done.
    + intros rt e [Hrt'|Hrt']%elem_of_app He Hs.
      * apply G3. by eapply H3.
      * apply list_elem_of_singleton in Hrt' as ->. by eapply G5.
    + intros rt e [Hrt'|Hrt']%elem_of_app He Hs.
      * apply G4. by eapply H4.
      * apply list_elem_of_singleton in Hrt' as ->. by eapply G6.
Qed.

Lemma addGatewayEndpoint_meets vpcItem E s3 ddb u gatewayEndpointItem :
  endpointListsOf vpcItem (orEmpty (vpc_routeTables vpcItem)) (s3, ddb) ->
  meets (vpcAdditions vpcItem) (fun _ => True) E
    (addGatewayEndpoint vpcItem (vpcObject vpcItem) s3 ddb u gatewayEndpointItem).
Proof.
  intros (Hs3 & Hddb & Hin3 & Hinddb) s.
  unfold addGatewayEndpoint, addGatewayVpcEndpoint, bind, declare, ret, log.
  simpl. split_step; read_added; (split; [additions | done]).
  - subst. exists "s3". split; [done|]. intros rt e ? ? ?. by eapply Hin3.
  - subst. exists "dynamodb". split; [done|]. intros rt e ? ? ?. by eapply Hinddb.
Qed.

(** A loop whose steps establish a fact about the item they visit: the
    invariant is extended with the fact for every item visited. *)
Lemma meets_forEach_each {A B : Type} P `{!Additive P} (I : list A -> B -> Prop)
    (F : A -> Prop) E (body : B -> A -> Synth B) (l : list A) (acc : B) :
  I [] acc ->
  (forall pre x post acc, l = pre ++ x :: post -> I pre acc ->
     meets P (fun acc' => I (pre ++ [x]) acc' /\ F x) E (body acc x)) ->
  meets P (fun acc' => I l acc' /\ forall x, x ∈ l -> F x) E (forEach body l acc).
Proof.
  intros H0 Hbody.
  apply (meets_forEach _ (fun pre acc' => I pre acc' /\ forall x, x ∈ pre -> F x)).
  - split; [done|]. intros x Hx. by apply elem_of_nil in Hx.
  - intros pre x post acc' Heq [Hacc' Hpre].
    eapply meets_weaken; [by eapply Hbody | done | | done].
    intros acc'' [Hacc'' Hx]. split; [done|].
    intros y [Hy|Hy]%elem_of_app; [by apply Hpre|].
    by apply list_elem_of_singleton in Hy as ->.
Qed.

(** The build of a VPC adds resources as [vpcAdditions] says; when it
    returns every reference of the definition was resolved, and it throws
    nothing but the errors of [buildError]. *)
Lemma evaluateVpc_meets ids vpcItem :
  meets (vpcAdditions vpcItem) (fun _ => referencesResolved ids vpcItem)
    (buildError ids vpcItem) (evaluateVpc env ids vpcItem).
Proof.
  unfold evaluateVpc.
  eapply meets_bind; [apply _ | by apply (meets_log _ (fun _ => True)) | intros _ _].
  eapply meets_bind; [apply _ | apply createVpc_meets | intros v ->].
  eapply meets_bind; [apply _ | | intros rtMap Hrt].
  { apply (meets_forEach _ (routeTablesOf vpcItem)).
    - intros name. by rewrite decide_False by apply not_elem_of_nil.
    - intros pre x post m _ Hm. by apply createRouteTable_meets. }
  eapply meets_bind;
    [ apply _
    | apply (meets_forEach_each _ (subnetsOf vpcItem) (subnetResolved vpcItem))
    | intros snMap [Hsn Hsn'] ].
  { split.
    - intros name. rewrite lookup_empty. split; [by intros [? ?]|].
      intros H. by apply elem_of_nil in H.
    - intros name subnet. by rewrite lookup_empty. }
  { intros pre x post m Heq Hm. apply createSubnet_meets; try done.
    rewrite Heq. apply elem_of_app. right. by left. }
  eapply meets_bind;
    [ apply _
    | apply (meets_forEach_each _ (natGatewaysOf vpcItem) (natGatewayResolved vpcItem))
    | intros natMap [Hnat Hnat'] ].
  { intros name. by rewrite decide_False by apply not_elem_of_nil. }
  { intros pre x post m Heq Hm. apply createNatGateway_meets; try done.
    rewrite Heq. apply elem_of_app. right. by left. }
  eapply meets_bind;
    [ apply _
    | apply (meets_forEach_each _ attachmentsOf (attachmentResolved ids vpcItem))
    | intros attMap [Hatt Hatt'] ].
  { intros name. by rewrite lookup_empty. }
  { intros pre x post m Heq Hm. apply createTransitGatewayAttachment_meets; try done.
    rewrite Heq. apply elem_of_app. right. by left. }
  apply (meets_bind _
           (fun acc => endpointListsOf vpcItem (orEmpty (vpc_routeTables vpcItem)) acc
                       /\ forall rt, rt ∈ orEmpty (vpc_routeTables vpcItem) ->
                            forall e, e ∈ orEmpty (rt_routes rt) ->
                                      routeEntryResolved ids vpcItem e));
    [ | intros [s3 ddb] [Hlists Hroutes]].
  { apply (meets_forEach_each _ (endpointListsOf vpcItem)
             (fun rt => forall e, e ∈ orEmpty (rt_routes rt) ->
                                  routeEntryResolved ids vpcItem e)).
    - split_and!; try apply NoDup_nil_2.
      + intros rt e Hrt'. by apply elem_of_nil in Hrt'.
      + intros rt e Hrt'. by apply elem_of_nil in Hrt'.
    - intros pre x post acc Heq Hacc. apply createRouteTableEntries_meets; try done.
      rewrite Heq. apply elem_of_app. right. by left. }
  eapply meets_weaken with (P := vpcAdditions vpcItem)
    (Q := fun _ => True) (E := buildError ids vpcItem); try done.
  - apply (meets_forEach _ (fun _ _ => True)); [done|].
    intros pre x post u _ _. by apply addGatewayEndpoint_meets.
  - intros _ _. split_and!; try done. intros rt e Hrt' He. by eapply Hroutes.
Qed.

(** *** The whole stack *)

#[local] Instance no_role_no_lookup_additive :
  Additive (fun added => roles added = [] /\ lookupCount added = 0).
Proof.
  split; [done|]. intros d d' [Hr Hl] [Hr' Hl'].
  by rewrite roles_app, lookupCount_app, Hr, Hr', Hl, Hl'.
Qed.

Lemma evaluateVpcs_meets ids l :
  meets (fun added => roles added = [] /\ lookupCount added = 0)
    (fun _ => forall v, v ∈ vpcsInThisStack env props l -> referencesResolved ids v)
    (fun msg => exists v, v ∈ vpcsInThisStack env props l /\ buildError ids v msg)
    (evaluateVpcs env props ids l).
Proof.
  unfold evaluateVpcs.
  eapply meets_weaken with
    (P := fun added => roles added = [] /\ lookupCount added = 0)
    (Q := fun _ : unit =>
            True /\ forall v, v ∈ l -> inThisStack env props v = true ->
                              referencesResolved ids v)
    (E := fun msg => exists v, v ∈ vpcsInThisStack env props l /\ buildError ids v msg);
    [ | done | | done].
  - apply (meets_forEach_each _ (fun _ _ => True)
             (fun v => inThisStack env props v = true -> referencesResolved ids v));
      [done|].
    intros pre v post [] Heq _. destruct (inThisStack env props v) eqn:Hv.
    + eapply meets_weaken; [apply (evaluateVpc_meets ids v) | | |].
      * by intros d (? & ? & _).
      * intros u Hres. split; [done|]. by intros _.
      * intros msg Hmsg. exists v. split; [|done].
        apply list_elem_of_filter. split; [done|]. rewrite Heq.
        apply elem_of_app. right. by left.
    + apply meets_ret; [apply _|]. split; [done | congruence].
  - intros u [_ Hall] v [Hv Hin]%list_elem_of_filter. by apply Hall.
Qed.

Lemma createAccessRole_run accts s :
  exists s', createAccessRole accts s = (s', Ok tt)
             /\ resources s' = resources s ++ accessRoleFor accts.
Proof.
  unfold createAccessRole, accessRoleFor. destruct accts as [|o accts]; simpl.
  - eexists. split; [reflexivity|]. by rewrite app_nil_r.
  - eexists. split; reflexivity.
Qed.

(** The run of the constructor: the parameter of the stack and the optional
    removal of the default VPC, the resolution pass, the role, and the builds
    of the VPC definitions of this stack. *)
Lemma NetworkVpcStack_run s :
  exists first lookups added,
    resources (NetworkVpcStack env props s).1
    = resources s ++ first ++ lookups
      ++ accessRoleFor (resolved env props (orEmpty (vpcs (networkConfig props)))).2
      ++ added
    /\ roles first = [] /\ lookupCount first = 0
    /\ roles lookups = []
    /\ lookupCount lookups
       = size (resolved env props (orEmpty (vpcs (networkConfig props)))).1
    /\ roles added = [] /\ lookupCount added = 0
    /\ match (NetworkVpcStack env props s).2 with
       | Ok _ =>
           forall v, v ∈ vpcsInThisStack env props (orEmpty (vpcs (networkConfig props))) ->
                     referencesResolved
                       (resolved env props (orEmpty (vpcs (networkConfig props)))).1 v
       | Throw msg =>
           exists v, v ∈ vpcsInThisStack env props (orEmpty (vpcs (networkConfig props)))
             /\ buildError (resolved env props (orEmpty (vpcs (networkConfig props)))).1
                  v msg
       end.
Proof.
  unfold NetworkVpcStack, resolved.
  set (l := orEmpty (vpcs (networkConfig props))).
  set (c0 := bind (newStringParameter _ _ _) _).
  assert (exists s1 first, forall (B : Type) (k : unit -> Synth B),
             bind (newStringParameter "SsmParamStackId"
                     ("/accelerator/" +:+ stackName env +:+ "/stack-id") (stackId env))
               (fun _ => bind
                  (if truthyBool (defaultVpc_delete (networkConfig props))
                   then bind (log "Add DeleteDefaultVpc")
                          (fun _ => declare (DeleteDefaultVpc ["DeleteDefaultVpc"]))
                   else ret tt) k) s = k tt s1
             /\ resources s1 = resources s ++ first
             /\ roles first = [] /\ lookupCount first = 0)
    as (s1 & first & Hfirst).
  { unfold newStringParameter, bind, declare, log, ret.
    destruct (truthyBool (defaultVpc_delete (networkConfig props))); simpl.
    - eexists _, _. intros B k. split; [reflexivity|]. simpl.
      rewrite <- app_assoc. done.
    - eexists _, _. intros B k. split; [reflexivity|]. done. }
  subst c0. destruct (Hfirst unit (fun _ =>
     bind (resolveTransitGateways env props l (∅, []))
       (fun x => let (ids, accts) := x in
                 bind (createAccessRole accts) (fun _ => evaluateVpcs env props ids l))))
    as (Hrun & Hs1 & Hr1 & Hl1).
  clear Hfirst.
  destruct (resolveTransitGateways_pass (visitedAttachments env props l) (∅, []) s1)
    as (s2 & lookups & Hpass & Hs2 & Hl2 & Hr2).
  rewrite <- resolveTransitGateways_visited in Hpass.
  rewrite (bind_ok _ _ _ _ _ Hpass) in Hrun.
  destruct (fold_left (resolution env props) (visitedAttachments env props l) (∅, []))
    as [ids accts] eqn:Hfold.
  simpl in Hl2. rewrite map_size_empty in Hl2.
  destruct (createAccessRole_run accts s2) as (s3 & Hrole & Hs3).
  rewrite (bind_ok _ _ _ _ _ Hrole) in Hrun.
  destruct (evaluateVpcs_meets ids l s3) as (added & Hadd & [Hra Hla] & Hout).
  exists first, lookups, added. rewrite Hrun, Hadd, Hs3, Hs2, Hs1, <- !app_assoc.
  simpl. split_and!; try done. lia.
Qed.

(** *** What a build that returns has created *)

Lemma creates_ret {A : Type} (a : A) : creates [] (ret a).
Proof. intros s. simpl. exists []. by rewrite app_nil_r. Qed.

Lemma creates_throw {A : Type} expected msg : creates expected (@throw A msg).
Proof. by intros s. Qed.

Lemma creates_log line : creates [] (log line).
Proof. intros s. simpl. exists []. by rewrite app_nil_r. Qed.

Lemma creates_declare r : creates (createdBy r) (declare r).
Proof. intros s. simpl. exists [r]. split; [done|]. simpl. by rewrite app_nil_r. Qed.

Lemma creates_bind {A B : Type} e1 e2 (c : Synth A) (k : A -> Synth B) :
  creates e1 c -> (forall a, creates e2 (k a)) -> creates (e1 ++ e2) (bind c k).
Proof.
  intros Hc Hk s. specialize (Hc s). unfold bind.
  destruct (c s) as [s1 [a|msg]]; simpl in *; [|done].
  specialize (Hk a s1). destruct ((k a s1).2); [|done].
  destruct Hc as (d1 & Hd1 & He1). destruct Hk as (d2 & Hd2 & He2).
  exists (d1 ++ d2). rewrite Hd2, Hd1, <- app_assoc, created_app, He1, He2. done.
Qed.

Lemma creates_forEach {A B : Type} (f : A -> list (ResourceKind * string * string))
    (body : B -> A -> Synth B) (l : list A) :
  (forall acc x, creates (f x) (body acc x)) ->
  forall acc, creates (flat_map f l) (forEach body l acc).
Proof.
  intros Hbody. induction l as [|x l IH]; intros acc; simpl.
  - apply creates_ret.
  - apply creates_bind; [apply Hbody | apply IH].
Qed.

Lemma flat_map_singleton {A B : Type} (f : A -> B) (l : list A) :
  flat_map (fun x => [f x]) l = map f l.
Proof. induction l as [|x l IH]; simpl; by rewrite ?IH. Qed.

Lemma flat_map_nil {A B : Type} (l : list A) :
  flat_map (fun _ : A => @nil B) l = [].
Proof. by induction l. Qed.

(** Running a step that has no loop in it, for [creates]. *)
Ltac created_step :=
  intros s; simpl; split_step; simpl; try done;
  eexists; (split; [rewrite <- ?app_assoc; simpl;
                    first [ reflexivity | symmetry; apply app_nil_r ] | reflexivity]).

Lemma createVpc_creates vpcItem :
  creates [(VpcKind, vpc_name vpcItem, vpcId (vpcObject vpcItem))] (createVpc vpcItem).
Proof.
  unfold createVpc, newSecureVpc, newStringParameter, bind, declare, ret. created_step.
Qed.

Lemma createRouteTable_creates vpcItem v m rt :
  creates [(RouteTableKind, rt_name rt, routeTableId (routeTableObject vpcItem (rt_name rt)))]
    (createRouteTable vpcItem v m rt).
Proof.
  unfold createRouteTable, newSecureRouteTable, newStringParameter, bind, declare, ret.
  created_step.
Qed.

Lemma createSubnet_creates vpcItem v rtMap m sn :
  creates [(SubnetKind, sn_name sn, subnetIdOf vpcItem (sn_name sn))]
    (createSubnet env vpcItem v rtMap m sn).
Proof.
  unfold createSubnet, newSecureSubnet, newStringParameter, bind, declare, ret, log, throw.
  created_step.
Qed.

Lemma createNatGateway_creates vpcItem snMap m ng :
  creates [(NatGatewayKind, ng_name ng, natGatewayId (natGatewayObject vpcItem (ng_name ng)))]
    (createNatGateway vpcItem snMap m ng).
Proof.
  unfold createNatGateway, newSecureNatGateway, newStringParameter, bind, declare, ret,
    log, throw.
  created_step.
Qed.

Lemma createTransitGatewayAttachment_creates vpcItem v ids snMap m a :
  creates [(TransitGatewayAttachmentKind, ta_name a,
            transitGatewayAttachmentId (attachmentObject a))]
    (createTransitGatewayAttachment vpcItem v ids snMap m a).
Proof.
  unfold createTransitGatewayAttachment.
  apply (creates_bind [] _); [apply creates_log | intros _].
  destruct (ids !! tgw_name (ta_transitGateway a)) as [tgwId|]; [|apply creates_throw].
  apply (creates_bind [] _).
  - intros s.
    destruct (collectSubnetId_loop snMap (orEmpty (ta_subnets a)) [] s)
      as [(subnets & _ & ->)|(pre & n & post & _ & _ & _ & ->)]; simpl; [|done].
    exists []. by rewrite app_nil_r.
  - intros subnetIds.
    unfold newTransitGatewayAttachment, newStringParameter, bind, declare, ret.
    created_step.
Qed.

Lemma createRouteTableEntry_creates vpcItem ids natMap attMap rtItem this acc e :
  creates [] (createRouteTableEntry vpcItem ids natMap attMap rtItem this acc e).
Proof.
  intros s. unfold createRouteTableEntry. destruct acc as [s3 ddb].
  unfold addTransitGatewayRoute, addNatGatewayRoute, bind, declare, ret, log, throw.
  simpl. split_step; simpl; try done;
    try (rewrite addInternetGatewayRoute_guard;
         destruct (internetGatewayId (vpc this)) as [igw|];
         [destruct (decide (igw = ""))|]; simpl; try done);
    eexists; (split; [rewrite <- ?app_assoc; simpl;
                      first [ reflexivity | symmetry; apply app_nil_r ] | reflexivity]).
Qed.

Lemma createRouteTableEntries_creates vpcItem ids rtMap natMap attMap acc rtItem :
  creates [] (createRouteTableEntries vpcItem ids rtMap natMap attMap acc rtItem).
Proof.
  unfold createRouteTableEntries.
  destruct (rtMap !! rt_name rtItem) as [this|]; [|apply creates_throw].
  rewrite <- (flat_map_nil (orEmpty (rt_routes rtItem))).
  apply creates_forEach. intros acc' e. apply createRouteTableEntry_creates.
Qed.

Lemma addGatewayEndpoint_creates vpcItem v s3 ddb u item :
  creates [] (addGatewayEndpoint vpcItem v s3 ddb u item).
Proof.
  unfold addGatewayEndpoint, addGatewayVpcEndpoint, bind, declare, ret, log.
  created_step.
Qed.

(** A build that returns has created the resources the definition declares,
    each once, in order. *)
Lemma evaluateVpc_creates ids vpcItem :
  creates (declaredResources vpcItem) (evaluateVpc env ids vpcItem).
Proof.
  unfold evaluateVpc, declaredResources.
  apply (creates_bind [] _); [apply creates_log | intros _].
  apply (creates_bind [_] _); [apply createVpc_creates | intros v].
  apply creates_bind.
  { rewrite <- flat_map_singleton. apply creates_forEach. intros m rt.
    apply createRouteTable_creates. }
  intros rtMap. apply creates_bind.
  { rewrite <- flat_map_singleton. apply creates_forEach. intros m sn.
    apply createSubnet_creates. }
  intros snMap. apply creates_bind.
  { rewrite <- flat_map_singleton. apply creates_forEach. intros m ng.
    apply createNatGateway_creates. }
  intros natMap.
  rewrite <- (app_nil_r (map _ (orEmpty (vpc_transitGatewayAttachments vpcItem)))).
  apply creates_bind.
  { rewrite <- flat_map_singleton. apply creates_forEach. intros m a.
    apply createTransitGatewayAttachment_creates. }
  intros attMap. apply (creates_bind [] []).
  { rewrite <- (flat_map_nil (orEmpty (vpc_routeTables vpcItem))).
    apply creates_forEach. intros acc rt. apply createRouteTableEntries_creates. }
  intros [s3 ddb].
  rewrite <- (flat_map_nil (orEmpty (vpc_gatewayEndpoints vpcItem))).
  apply creates_forEach. intros u item. apply addGatewayEndpoint_creates.
Qed.

(** *** Published identifiers *)

(** C4. Whatever the build of a VPC definition adds to the assembly, the
    parameters among it publish, one for one and in declaration order, the
    identifiers of the VPC, route tables, subnets, NAT gateways and
    transit-gateway attachments created: the parameter of a resource named
    [resourceName] of kind [resourceKind] is named
    [/accelerator/network/vpc/{vpcName}/{resourceKind}/{resourceName}/id],
    that of the VPC [/accelerator/network/vpc/{vpcName}/id], and its value is
    the identifier of the resource.  This holds of a build that throws as
    well, for what it had added when it threw; and a build that returns has
    created, each once and in order, the VPC and the route tables, subnets,
    NAT gateways and attachments that the definition declares. *)
Theorem evaluateVpc_publishes_created (ids : gmap string string) (vpcItem : VpcConfig)
    (s : Assembly) :
  exists added,
    resources (evaluateVpc env ids vpcItem s).1 = resources s ++ added
    /\ published added = map (publishedAs (vpc_name vpcItem)) (created added)
    /\ match (evaluateVpc env ids vpcItem s).2 with
       | Ok _ => created added = declaredResources vpcItem
       | Throw _ => True
       end.
Proof.
  destruct (evaluateVpc_meets ids vpcItem s) as (added & Hadd & (_ & _ & Hpub & _) & _).
  exists added. split_and!; [done | done |].
  pose proof (evaluateVpc_creates ids vpcItem s) as Hcreated.
  destruct ((evaluateVpc env ids vpcItem s).2); [|done].
  destruct Hcreated as (added' & Hadd' & Hcreated).
  rewrite Hadd in Hadd'. by apply app_inv_head in Hadd' as ->.
Qed.

(** *** Gateway endpoints *)

Lemma NoDup_count_occ_1 (l : list string) (x : string) :
  NoDup l -> x ∈ l -> count_occ String.string_dec l x = 1.
Proof.
  induction 1 as [|y l Hy Hl IH]; intros Hx; [by apply elem_of_nil in Hx|].
  simpl. destruct (String.string_dec y x) as [->|Hne].
  - f_equal. apply count_occ_not_In. by rewrite <- list_elem_of_In.
  - apply IH. apply elem_of_cons in Hx as [?|?]; [congruence | done].
Qed.

(** C7. Every gateway endpoint that the build of a VPC definition declares
    is given a route-table list without duplicates; it is the endpoint of a
    service, and a route table of the definition with one or more route
    entries for that service (entries that the dispatch sends to the service,
    in this or in other route tables) has its identifier exactly once in the
    list. *)
Theorem gateway_endpoint_lists_deduplicated (ids : gmap string string)
    (vpcItem : VpcConfig) (s : Assembly) :
  exists added,
    resources (evaluateVpc env ids vpcItem s).1 = resources s ++ added
    /\ forall node serviceName vpcId routeTableIds,
         CfnVPCEndpoint node serviceName vpcId routeTableIds ∈ added ->
         NoDup routeTableIds
         /\ exists service, serviceName = gatewayServiceName service
              /\ forall rt e,
                   rt ∈ orEmpty (vpc_routeTables vpcItem) ->
                   e ∈ orEmpty (rt_routes rt) ->
                   serviceEntry service e ->
                   count_occ String.string_dec routeTableIds
                     (routeTableId (routeTableObject vpcItem (rt_name rt))) = 1.
Proof.
  destruct (evaluateVpc_meets ids vpcItem s) as (added & Hadd & (_ & _ & _ & Hend) & _).
  exists added. split; [done|]. intros node serviceName vid routeTableIds Hin.
  unfold endpointsServe in Hend. rewrite Forall_forall in Hend.
  destruct (Hend _ Hin) as (Hnodup & service & -> & Hserve).
  split; [done|]. exists service. split; [done|]. intros rt e Hrt He Hs.
  apply NoDup_count_occ_1; [done | by eapply Hserve].
Qed.

(** *** Errors *)

Lemma referencesResolved_sound ids vpcItem name msg :
  referencesResolved ids vpcItem -> ~ UnresolvedReference ids vpcItem name msg.
Proof.
  intros (Hsn & Hng & Hatt & Hroute) Hun.
  destruct Hun as [sn Hin Hno|ng Hin Hno|a Hin Hno|a n Hin Hn Hno|rt e Hrt He Hty Hno
                  |rt e Hrt He Hty Hno|rt e Hrt He Hty Hno].
  - by apply Hno, Hsn.
  - by apply Hno, Hng.
  - destruct (Hatt a Hin) as [[? Hsome] _]. congruence.
  - destruct (Hatt a Hin) as [_ Hsub]. by apply Hno, Hsub.
  - destruct (Hroute rt e Hrt He) as [Htgw _]. destruct (Htgw Hty) as [[? Hsome] _].
    congruence.
  - destruct (Hroute rt e Hrt He) as [Htgw _]. destruct (Htgw Hty) as [_ Hin].
    by apply Hno.
  - destruct (Hroute rt e Hrt He) as [_ Hnat]. by apply Hno, Hnat.
Qed.

Lemma UnresolvedReference_includes ids vpcItem name msg :
  UnresolvedReference ids vpcItem name msg -> includes msg name = true.
Proof. destruct 1; apply includes_app. Qed.

(** C9, as amended.  Every error that the constructor throws is either the
    refusal of an internet-gateway route or the error of an unresolved
    reference of a VPC definition of this stack; the message of the latter
    is made of the unresolved name alone ([Route table N not defined],
    [Subnet N not defined], [Transit Gateway N not found],
    [Transit Gateway Attachment N not found], [NAT Gateway N not found]), so
    it reports the offending name, and neither the VPC nor the route table
    that contains the reference. *)
Theorem configuration_errors_report_the_name (s : Assembly) (msg : string) :
  (NetworkVpcStack env props s).2 = Throw msg ->
  msg = igwError
  \/ exists vpcItem name,
       vpcItem ∈ vpcsInThisStack env props (orEmpty (vpcs (networkConfig props)))
       /\ UnresolvedReference
            (resolved env props (orEmpty (vpcs (networkConfig props)))).1
            vpcItem name msg
       /\ includes msg name = true.
Proof.
  intros Hthrow.
  destruct (NetworkVpcStack_run s) as (? & ? & ? & _ & _ & _ & _ & _ & _ & _ & Hout).
  rewrite Hthrow in Hout. destruct Hout as (v & Hv & [->|[name Hname]]); [by left|].
  right. exists v, name. split_and!; [done | done |].
  by eapply UnresolvedReference_includes.
Qed.

(** *** The cache of transit-gateway identifiers and the access role *)

(** C5. The resolution populates the map of transit-gateway identifiers at
    most once per name.  A step on an attachment whose transit gateway is
    already a key returns at once: the map, the list of owners and the
    resources of the assembly are unchanged, so no lookup is made.  Over a
    pass, the map only grows (no entry is overwritten), the pass makes as
    many lookups as it adds names, the keys after the pass are those before
    it and the names of the transit gateways of the visited attachments, and
    each new name is mapped to the identifier looked up for the first
    attachment that names it.  So the whole constructor makes one lookup for
    each transit gateway named by an attachment of a VPC of the stack. *)
Theorem transitGatewayIds_populated_once :
  (forall ids accts a s,
      is_Some (ids !! gatewayName a) ->
      exists s', resolveTransitGateway env props (ids, accts) a s = (s', Ok (ids, accts))
                 /\ resources s' = resources s)
  /\ (forall l ids accts s,
        exists s' ids' accts',
          resolveTransitGateways env props l (ids, accts) s = (s', Ok (ids', accts'))
          /\ ids ⊆ ids'
          /\ lookupCount (resources s') + size ids
             = lookupCount (resources s) + size ids'
          /\ (forall name,
                is_Some (ids' !! name)
                <-> is_Some (ids !! name)
                    \/ name ∈ map gatewayName (visitedAttachments env props l))
          /\ (forall a,
                firstNew ids (visitedAttachments env props l) a ->
                ids' !! gatewayName a = Some (lookedUpId env props a)))
  /\ (forall s,
        (resolveTransitGateways env props (orEmpty (vpcs (networkConfig props)))
           (∅, []) s).2
        = Ok (resolved env props (orEmpty (vpcs (networkConfig props))))
        /\ lookupCount (resources (NetworkVpcStack env props s).1)
           = lookupCount (resources s)
             + size (resolved env props (orEmpty (vpcs (networkConfig props)))).1
        /\ forall name,
             is_Some ((resolved env props (orEmpty (vpcs (networkConfig props)))).1
                      !! name)
             <-> name ∈ map gatewayName
                          (visitedAttachments env props
                             (orEmpty (vpcs (networkConfig props))))).
Proof.
  split_and!.
  - intros ids accts a s Hknown.
    destruct (resolveTransitGateway_step (ids, accts) a s)
      as (s' & added & Hrun & Hres & Hnone & _).
    exists s'. split.
    + rewrite Hrun. unfold resolution. simpl. by destruct Hknown as [id ->].
    + rewrite Hres, (Hnone Hknown). apply app_nil_r.
  - intros l ids accts s. rewrite resolveTransitGateways_visited.
    destruct (resolveTransitGateways_pass (visitedAttachments env props l) (ids, accts) s)
      as (s' & added & Hrun & Hres & Hcount & _).
    pose proof (resolution_grows (visitedAttachments env props l) (ids, accts)) as Hgrow.
    pose proof (resolution_dom (visitedAttachments env props l) (ids, accts)) as Hdom.
    pose proof (resolution_first (visitedAttachments env props l) (ids, accts)) as Hfirst.
    destruct (fold_left (resolution env props) (visitedAttachments env props l) (ids, accts))
      as [ids' accts'].
    exists s', ids', accts'. simpl in *. split_and!; try done.
    rewrite Hres, lookupCount_app. lia.
  - intros s. split_and!.
    + rewrite resolveTransitGateways_visited.
      destruct (resolveTransitGateways_pass
                  (visitedAttachments env props (orEmpty (vpcs (networkConfig props))))
                  (∅, []) s) as (s' & added & -> & _).
      reflexivity.
    + destruct (NetworkVpcStack_run s)
        as (first & lookups & added & Hres & _ & Hl1 & _ & Hl2 & _ & Hl3 & _).
      rewrite Hres, !lookupCount_app, Hl1, Hl2, Hl3.
      assert (lookupCount
                (accessRoleFor
                   (resolved env props (orEmpty (vpcs (networkConfig props)))).2) = 0)
        as -> by (unfold accessRoleFor; by destruct (resolved _ _ _).2).
      lia.
    + intros name. unfold resolved. rewrite resolution_dom. simpl.
      rewrite lookup_empty. split; [intros [[? ?]|?]; done | by right].
Qed.

(** C6. The constructor declares the cross-account role exactly when the
    resolution pass resolved a transit gateway owned by another account, that
    is, when the first attachment to name some transit gateway gives it an
    owner other than the account of the stack.  The owners recorded by the
    pass are those owners, each once; the roles of the resulting assembly are
    those it had, followed by one role trusted by the recorded owners and
    allowed the action [ec2:DescribeTransitGatewayAttachments] only, or by
    nothing when no owner was recorded.  When every visited attachment gives
    this account as owner, no role is added. *)
Theorem access_role_iff_foreign_transit_gateway (s : Assembly) :
  let vpcItems := orEmpty (vpcs (networkConfig props)) in
  let visited := visitedAttachments env props vpcItems in
  let owners := (resolved env props vpcItems).2 in
  NoDup owners
  /\ (forall o, o ∈ owners
                <-> exists a, firstToName visited a /\ owningAccount props a = o
                              /\ o <> Some (account env))
  /\ roles (resources (NetworkVpcStack env props s).1)
     = roles (resources s) ++ accessRoleFor owners
  /\ (accessRoleFor owners
      = [Role ["DescribeTransitGatewaysAttachmentsRole"]
           "AWSAccelerator-DescribeTransitGatewayAttachmentsRole"
           owners ["ec2:DescribeTransitGatewayAttachments"] ["*"]]
      <-> exists a, firstToName visited a
                    /\ owningAccount props a <> Some (account env))
  /\ (Forall (fun a => owningAccount props a = Some (account env)) visited ->
      roles (resources (NetworkVpcStack env props s).1) = roles (resources s)).
Proof.
  intros vpcItems visited owners.
  assert (Hdef : (resolved env props (orEmpty (vpcs (networkConfig props)))).2 = owners)
    by reflexivity.
  assert (Hfold : owners = (fold_left (resolution env props) visited (∅, [])).2)
    by reflexivity.
  clearbody owners.
  assert (Howners : forall o, o ∈ owners
            <-> exists a, firstToName visited a /\ owningAccount props a = o
                          /\ o <> Some (account env)).
  { intros o. rewrite Hfold, (resolution_owners visited (∅, []) o). simpl.
    unfold firstNew.
    split.
    - intros [Ho|(a & [Ha _] & Hrest)]; [by apply elem_of_nil in Ho | by exists a].
    - intros (a & Ha & Hrest). right. exists a. split; [|done].
      split; [done | apply lookup_empty]. }
  assert (Hroles : roles (resources (NetworkVpcStack env props s).1)
                   = roles (resources s) ++ accessRoleFor owners).
  { destruct (NetworkVpcStack_run s)
      as (first & lookups & added & Hres & Hr1 & _ & Hr2 & _ & Hr3 & _ & _).
    rewrite Hres, !roles_app, Hr1, Hr2, Hr3, app_nil_r, Hdef. simpl. f_equal.
    unfold accessRoleFor. by destruct owners. }
  split_and!.
  - rewrite Hfold. apply (resolution_owners_NoDup visited (∅, [])). apply NoDup_nil_2.
  - exact Howners.
  - exact Hroles.
  - split.
    + intros Hrole. destruct owners as [|o owners'] eqn:E; [done|].
      destruct (proj1 (Howners o)) as (a & Ha & Ho & Hne); [by left|].
      exists a. split; [done | congruence].
    + intros (a & Ha & Hne).
      assert (owningAccount props a ∈ owners) as Hin by (apply Howners; by exists a).
      unfold accessRoleFor. destruct owners; [by apply elem_of_nil in Hin | done].
  - intros Hall. rewrite Hroles.
    destruct owners as [|o owners'] eqn:E; [apply app_nil_r|].
    destruct (proj1 (Howners o)) as (a & (pre & post & Heq & _) & Ho & Hne);
      [by left|].
    rewrite Forall_forall in Hall. exfalso. apply Hne. rewrite <- Ho. apply Hall.
    rewrite Heq. apply elem_of_app. right. by left.
Qed.

(** *** The map of transit-gateway attachments *)

(** A step of the attachment loop that returns has stored the attachment
    under the name of its transit gateway. *)
Lemma createTransitGatewayAttachment_Ok vpcItem v ids snMap m a s s' m' :
  createTransitGatewayAttachment vpcItem v ids snMap m a s = (s', Ok m') ->
  m' = <[gatewayName a := attachmentObject a]> m.
Proof.
  unfold createTransitGatewayAttachment, gatewayName, attachmentObject.
  unfold bind at 1. simpl.
  destruct (ids !! tgw_name (ta_transitGateway a)) as [tgwId|]; [|by intros [= _ ?]].
  unfold bind at 1.
  destruct (collectSubnetId_loop snMap (orEmpty (ta_subnets a)) []
              (mkAssembly (resources s)
                 (console s ++ ["Adding Transit Gateway Attachment for "
                                +:+ tgw_name (ta_transitGateway a)])))
    as [(subnets & _ & ->)|(pre & n & post & _ & _ & _ & ->)]; [|by intros [= _ ?]].
  unfold newTransitGatewayAttachment, newStringParameter, bind, declare, ret. simpl.
  by intros [= _ <-].
Qed.

Lemma createTransitGatewayAttachments_Ok vpcItem v ids snMap atts :
  forall m s s' m',
    forEach (createTransitGatewayAttachment vpcItem v ids snMap) atts m s = (s', Ok m') ->
    forall name,
      m' !! name
      = match last (filter (fun a => gatewayName a = name) atts) with
        | Some a => Some (attachmentObject a)
        | None => m !! name
        end.
Proof.
  induction atts as [|a atts IH] using rev_ind; intros m s s' m' Hrun name.
  - simpl in Hrun. by injection Hrun as <- <-.
  - rewrite forEach_app in Hrun. unfold bind in Hrun.
    destruct (forEach _ atts m s) as [s1 [m1|msg]] eqn:Hpre; [|done].
    simpl in Hrun. unfold bind, ret in Hrun.
    destruct (createTransitGatewayAttachment vpcItem v ids snMap m1 a s1)
      as [s2 [m2|msg]] eqn:Hstep; [|done].
    injection Hrun as <- <-.
    apply createTransitGatewayAttachment_Ok in Hstep as ->.
    rewrite last_filter_snoc, lookup_insert.
    destruct (decide (gatewayName a = name)); [done|]. by eapply IH.
Qed.

(** C3. The map of the attachments of a VPC is keyed by the name of the
    transit gateway: when the attachment loop returns, the keys of the map
    are the names of the transit gateways of the attachments, and under each
    is the attachment created for the last item that references that transit
    gateway.  So of two attachments of one VPC that reference the same
    transit gateway only the later is in the map, and a [transitGateway]
    route entry, which looks its target up in this map, makes its route
    depend on that one. *)
Theorem attachments_keyed_by_transit_gateway
    (vpcItem : VpcConfig) (v : SecureVpc) (ids : gmap string string)
    (snMap : gmap string SecureSubnet)
    (atts : list TransitGatewayAttachmentConfig)
    (s s' : Assembly) (m : gmap string TransitGatewayAttachment) :
  forEach (createTransitGatewayAttachment vpcItem v ids snMap) atts ∅ s = (s', Ok m) ->
  (forall name, is_Some (m !! name) <-> name ∈ map gatewayName atts)
  /\ (forall name,
        m !! name = attachmentObject <$> last (filter (fun a => gatewayName a = name) atts))
  /\ (forall l1 a1 l2 a2 l3,
        atts = l1 ++ a1 :: l2 ++ a2 :: l3 ->
        gatewayName a1 = gatewayName a2 ->
        gatewayName a2 ∉ map gatewayName l3 ->
        m !! gatewayName a1 = Some (attachmentObject a2)
        /\ forall natMap rtItem this acc e tgwId s0,
             re_type e = "transitGateway" ->
             re_target e = gatewayName a1 ->
             ids !! re_target e = Some tgwId ->
             createRouteTableEntry vpcItem ids natMap m rtItem this acc e s0
             = (mkAssembly
                  (resources s0
                   ++ [CfnRoute
                         (routeTableNode this
                          ++ [pascalCase (vpc_name vpcItem +:+ "Vpc")
                              +:+ pascalCase (rt_name rtItem +:+ "RouteTable")
                              +:+ pascalCase (re_name e)])
                         (routeTableId this) (re_destination e)
                         (TransitGatewayId tgwId)
                         [defaultChild (attachmentObject a2)]])
                  (console s0 ++ ["Adding Transit Gateway Route Table Entry "
                                  +:+ re_name e]),
                Ok acc)).
Proof.
  intros Hrun.
  pose proof (createTransitGatewayAttachments_Ok _ _ _ _ _ _ _ _ _ Hrun) as Hm.
  assert (Hlast : forall name,
             m !! name
             = attachmentObject <$> last (filter (fun a => gatewayName a = name) atts)).
  { intros name. rewrite Hm, lookup_empty. by destruct (last _). }
  assert (Hkey : forall l1 a1 l2 a2 l3,
             atts = l1 ++ a1 :: l2 ++ a2 :: l3 ->
             gatewayName a1 = gatewayName a2 ->
             gatewayName a2 ∉ map gatewayName l3 ->
             m !! gatewayName a1 = Some (attachmentObject a2)).
  { intros l1 a1 l2 a2 l3 -> Heq Hl3. rewrite Hlast, Heq.
    change (l1 ++ a1 :: l2 ++ a2 :: l3) with (l1 ++ (a1 :: l2) ++ a2 :: l3).
    rewrite (app_assoc l1 (a1 :: l2) (a2 :: l3)).
    rewrite (filter_app _ (l1 ++ a1 :: l2) (a2 :: l3)).
    rewrite (filter_cons _ a2 l3), decide_True by done.
    replace (filter (fun a => gatewayName a = gatewayName a2) l3) with
      (@nil TransitGatewayAttachmentConfig).
    - simpl. by rewrite last_snoc.
    - symmetry. apply filter_none. intros a Ha Hname.
      apply Hl3. rewrite <- Hname. by apply list_elem_of_fmap_2. }
  split_and!.
  - intros name. rewrite Hlast. split.
    + intros [att Hatt]. destruct (last _) as [a|] eqn:Ha; [|done].
      apply last_Some_elem_of in Ha. apply list_elem_of_filter in Ha as [<- Ha].
      by apply list_elem_of_fmap_2.
    + intros (a & -> & Ha)%list_elem_of_fmap.
      destruct (last (filter (fun a0 => gatewayName a0 = gatewayName a) atts)) eqn:E;
        [by eexists|].
      apply last_None in E.
      assert (a ∈ filter (fun a0 => gatewayName a0 = gatewayName a) atts) as Hin
        by (by apply list_elem_of_filter).
      rewrite E in Hin. by apply elem_of_nil in Hin.
  - exact Hlast.
  - intros l1 a1 l2 a2 l3 Hatts Heq Hl3. split; [by eapply Hkey|].
    intros natMap rtItem this [s3 ddb] e tgwId s0 Hty Htarget Hids.
    unfold createRouteTableEntry. rewrite decide_True by done.
    unfold bind at 1. simpl. rewrite Hids, Htarget, (Hkey _ _ _ _ _ Hatts Heq Hl3).
    reflexivity.
Qed.

(** *** Unresolved references *)

(** C2. A reference that the map of its step does not hold aborts the
    synthesis.  At each of the steps that resolve a name (the route table of
    a subnet, the subnet of a NAT gateway, the transit gateway and the
    subnets of an attachment, the transit gateway, the attachment and the NAT
    gateway of a route entry), when the name is absent from the map the step
    throws an error whose message contains the name; the items that remain in
    the loop and whatever follows the loop (the continuation [k]) are not
    run: the result is the throw, and the assembly is the one the step
    started from, with its console line.  For the whole pass: when a VPC
    definition of the stack has an unresolved reference, the constructor
    throws, and what it throws is the refusal of an internet-gateway route
    or an error whose message contains an unresolved name. *)
Theorem unresolved_reference_aborts (B : Type) :
  (forall vpcItem v rtMap snMap x rest (k : gmap string SecureSubnet -> Synth B) s,
      rtMap !! sn_routeTable x = None ->
      abortsNaming
        (bind (forEach (createSubnet env vpcItem v rtMap) (x :: rest) snMap) k) s
        ("Adding subnet " +:+ sn_name x) (sn_routeTable x))
  /\ (forall vpcItem snMap natMap x rest (k : gmap string SecureNatGateway -> Synth B) s,
      snMap !! ng_subnet x = None ->
      abortsNaming
        (bind (forEach (createNatGateway vpcItem snMap) (x :: rest) natMap) k) s
        ("Adding NAT Gateway " +:+ ng_name x) (ng_subnet x))
  /\ (forall vpcItem v ids snMap attMap x rest
             (k : gmap string TransitGatewayAttachment -> Synth B) s,
      ids !! gatewayName x = None ->
      abortsNaming
        (bind (forEach (createTransitGatewayAttachment vpcItem v ids snMap)
                 (x :: rest) attMap) k) s
        ("Adding Transit Gateway Attachment for " +:+ gatewayName x) (gatewayName x))
  /\ (forall vpcItem v ids snMap attMap x rest
             (k : gmap string TransitGatewayAttachment -> Synth B) s pre name post,
      is_Some (ids !! gatewayName x) ->
      orEmpty (ta_subnets x) = pre ++ name :: post ->
      Forall (fun n => is_Some (snMap !! n)) pre ->
      snMap !! name = None ->
      abortsNaming
        (bind (forEach (createTransitGatewayAttachment vpcItem v ids snMap)
                 (x :: rest) attMap) k) s
        ("Adding Transit Gateway Attachment for " +:+ gatewayName x) name)
  /\ (forall vpcItem ids natMap attMap rtItem this acc x rest
             (k : list string * list string -> Synth B) s,
      re_type x = "transitGateway" ->
      ids !! re_target x = None \/ attMap !! re_target x = None ->
      abortsNaming
        (bind (forEach (createRouteTableEntry vpcItem ids natMap attMap rtItem this)
                 (x :: rest) acc) k) s
        ("Adding Transit Gateway Route Table Entry " +:+ re_name x) (re_target x))
  /\ (forall vpcItem ids natMap attMap rtItem this acc x rest
             (k : list string * list string -> Synth B) s,
      re_type x = "natGateway" ->
      natMap !! re_target x = None ->
      abortsNaming
        (bind (forEach (createRouteTableEntry vpcItem ids natMap attMap rtItem this)
                 (x :: rest) acc) k) s
        ("Adding NAT Gateway Route Table Entry " +:+ re_name x) (re_target x))
  /\ (forall vpcItem name msg s,
      vpcItem ∈ vpcsInThisStack env props (orEmpty (vpcs (networkConfig props))) ->
      UnresolvedReference (resolved env props (orEmpty (vpcs (networkConfig props)))).1
        vpcItem name msg ->
      exists msg',
        (NetworkVpcStack env props s).2 = Throw msg'
        /\ (msg' = igwError
            \/ exists vpcItem' name',
                 vpcItem' ∈ vpcsInThisStack env props
                              (orEmpty (vpcs (networkConfig props)))
                 /\ UnresolvedReference
                      (resolved env props (orEmpty (vpcs (networkConfig props)))).1
                      vpcItem' name' msg'
                 /\ includes msg' name' = true)).
Proof.
  unfold abortsNaming, logged. split_and!.
  - intros vpcItem v rtMap snMap x rest k s Hnone. eexists. split.
    + apply bind_throw, forEach_throw. unfold createSubnet, bind, log, throw. simpl.
      rewrite Hnone. reflexivity.
    + apply includes_app.
  - intros vpcItem snMap natMap x rest k s Hnone. eexists. split.
    + apply bind_throw, forEach_throw. unfold createNatGateway, bind, log, throw. simpl.
      rewrite Hnone. reflexivity.
    + apply includes_app.
  - intros vpcItem v ids snMap attMap x rest k s Hnone. eexists. split.
    + apply bind_throw, forEach_throw.
      unfold createTransitGatewayAttachment, bind, log, throw. simpl.
      unfold gatewayName in Hnone. rewrite Hnone. reflexivity.
    + apply includes_app.
  - intros vpcItem v ids snMap attMap x rest k s pre name post [tgwId Hid] Hsub Hpre Hnone.
    eexists. split.
    + apply bind_throw, forEach_throw.
      unfold createTransitGatewayAttachment. unfold bind at 1. simpl.
      unfold gatewayName in Hid. rewrite Hid.
      apply bind_throw.
      destruct (collectSubnetId_loop snMap (orEmpty (ta_subnets x)) []
                  (mkAssembly (resources s)
                     (console s ++ ["Adding Transit Gateway Attachment for "
                                    +:+ tgw_name (ta_transitGateway x)])))
        as [(subnets & Hall & _)|(pre' & n' & post' & Heq & Hpre' & Hn' & Hrun)].
      * exfalso. rewrite Hsub in Hall.
        apply Forall2_app_inv_l in Hall as (? & ? & _ & Hall & _).
        apply Forall2_cons_inv_l in Hall as (? & ? & Hall & _). congruence.
      * rewrite Hrun. rewrite Hsub in Heq.
        assert (name = n') as ->; [|reflexivity].
        clear -Heq Hpre Hnone Hpre' Hn'. revert pre' Heq Hpre'.
        induction Hpre as [|p pre [? Hp] _ IH]; intros pre' Heq Hpre'.
        -- destruct Hpre' as [|p' pre' [? Hp'] _]; simpl in Heq; [congruence|].
           injection Heq as -> _. congruence.
        -- destruct Hpre' as [|p' pre' [? Hp'] Hpre']; simpl in Heq.
           ++ injection Heq as -> _. congruence.
           ++ injection Heq as -> Heq. by eapply IH.
    + apply includes_app.
  - intros vpcItem ids natMap attMap rtItem this [s3 ddb] x rest k s Hty Hnone.
    destruct (ids !! re_target x) as [tgwId|] eqn:Hid.
    + destruct Hnone as [?|Hnone]; [done|]. eexists. split.
      * apply bind_throw, forEach_throw.
        unfold createRouteTableEntry. rewrite decide_True by done.
        unfold bind, log, throw. simpl. rewrite Hid, Hnone. reflexivity.
      * apply includes_app.
    + eexists. split.
      * apply bind_throw, forEach_throw.
        unfold createRouteTableEntry. rewrite decide_True by done.
        unfold bind, log, throw. simpl. rewrite Hid. reflexivity.
      * apply includes_app.
  - intros vpcItem ids natMap attMap rtItem this [s3 ddb] x rest k s Hty Hnone.
    eexists. split.
    + apply bind_throw, forEach_throw.
      unfold createRouteTableEntry.
      rewrite decide_False, decide_True by (done || by rewrite Hty).
      unfold bind, log, throw. simpl. rewrite Hnone. reflexivity.
    + apply includes_app.
  - intros vpcItem name msg s Hin Hun.
    destruct (NetworkVpcStack_run s) as (? & ? & ? & _ & _ & _ & _ & _ & _ & _ & Hout).
    destruct ((NetworkVpcStack env props s).2) as [[]|msg'].
    + exfalso. by eapply referencesResolved_sound; [apply Hout|].
    + exists msg'. split; [done|].
      destruct Hout as (v & Hv & [->|[name' Hname']]); [by left|].
      right. exists v, name'. split_and!; [done | done |].
      by eapply UnresolvedReference_includes.
Qed.

(** *** Runs *)

Lemma runs_ret {A : Type} (R : list Resource -> Outcome A -> Prop) a :
  R [] (Ok a) -> runs R (ret a).
Proof. intros H s. exists []. simpl. by rewrite app_nil_r. Qed.

Lemma runs_throw {A : Type} (R : list Resource -> Outcome A -> Prop) msg :
  R [] (Throw msg) -> runs R (throw msg).
Proof. intros H s. exists []. simpl. by rewrite app_nil_r. Qed.

Lemma runs_log (R : list Resource -> Outcome unit -> Prop) line :
  R [] (Ok tt) -> runs R (log line).
Proof. intros H s. exists []. simpl. by rewrite app_nil_r. Qed.

Lemma runs_declare (R : list Resource -> Outcome unit -> Prop) r :
  R [r] (Ok tt) -> runs R (declare r).
Proof. intros H s. by exists [r]. Qed.

Lemma runs_weaken {A : Type} (R R' : list Resource -> Outcome A -> Prop) c :
  runs R c -> (forall d o, R d o -> R' d o) -> runs R' c.
Proof. intros Hc HR s. destruct (Hc s) as (d & Hd & Hout). exists d. auto. Qed.

(** Two facts about one run are about the same added resources. *)
Lemma runs_conj {A : Type} (R R' : list Resource -> Outcome A -> Prop) c :
  runs R c -> runs R' c -> runs (fun d o => R d o /\ R' d o) c.
Proof.
  intros Hc Hc' s. destruct (Hc s) as (d & Hd & Hout). destruct (Hc' s) as (d' & Hd' & Hout').
  rewrite Hd in Hd'. apply app_inv_head in Hd' as <-. by exists d.
Qed.

Lemma runs_of_meets {A : Type} P (Q : A -> Prop) E c :
  meets P Q E c ->
  runs (fun d o => P d /\ match o with Ok a => Q a | Throw msg => E msg end) c.
Proof. intros Hc s. destruct (Hc s) as (d & Hd & HP & Hout). by exists d. Qed.

Lemma runs_bind {A B : Type} (R1 : list Resource -> Outcome A -> Prop)
    (R : list Resource -> Outcome B -> Prop) (c : Synth A) (k : A -> Synth B) :
  runs R1 c ->
  (forall d1 a, R1 d1 (Ok a) -> runs (fun d2 o => R (d1 ++ d2) o) (k a)) ->
  (forall d1 msg, R1 d1 (Throw msg) -> R d1 (Throw msg)) ->
  runs R (bind c k).
Proof.
  intros Hc Hk Hthrow s. destruct (Hc s) as (d1 & Hd1 & Hout). unfold bind.
  destruct (c s) as [s1 [a|msg]]; simpl in *.
  - destruct (Hk d1 a Hout s1) as (d2 & Hd2 & Hout2).
    exists (d1 ++ d2). rewrite Hd2, Hd1, <- app_assoc. done.
  - exists d1. split; [done | by apply Hthrow].
Qed.

(** A specification met by a computation holds of its run, beside any
    other fact about it. *)
Lemma runs_with_meets {A : Type} P (Q : A -> Prop) E
    (R : list Resource -> Outcome A -> Prop) c :
  meets P Q E c -> runs R c ->
  runs (fun d o => R d o /\ match o with Ok a => Q a | Throw msg => E msg end) c.
Proof.
  intros Hm Hc. eapply runs_weaken; [apply (runs_conj _ _ _ Hc (runs_of_meets _ _ _ _ Hm))|].
  intros d o [H [_ H']]. done.
Qed.

(** The rule of loops: [I] relates the items visited so far to what has
    been added and to the local variables; [T] tells, of a throw at the item
    [x] after the items [pre], what had been added and what is thrown. *)
Lemma runs_forEach {A B : Type} (I : list A -> list Resource -> B -> Prop)
    (T : list A -> A -> list Resource -> string -> Prop)
    (body : B -> A -> Synth B) (l : list A) (acc0 : B) :
  I [] [] acc0 ->
  (forall pre x post d acc, l = pre ++ x :: post -> I pre d acc ->
     runs (fun d' o => match o with
                       | Ok acc' => I (pre ++ [x]) (d ++ d') acc'
                       | Throw msg => T pre x (d ++ d') msg
                       end) (body acc x)) ->
  runs (fun d o => match o with
                   | Ok acc => I l d acc
                   | Throw msg => exists pre x post, l = pre ++ x :: post /\ T pre x d msg
                   end) (forEach body l acc0).
Proof.
  intros H0 Hbody.
  cut (forall post pre d acc, l = pre ++ post -> I pre d acc ->
         runs (fun d' o => match o with
                           | Ok acc' => I l (d ++ d') acc'
                           | Throw msg => exists pre' x post', l = pre' ++ x :: post'
                                                               /\ T pre' x (d ++ d') msg
                           end) (forEach body post acc)).
  { intros H. by apply (H l [] []). }
  clear acc0 H0. induction post as [|x post IH]; intros pre d acc Hl Hacc; simpl.
  - rewrite app_nil_r in Hl. subst pre. apply runs_ret. by rewrite app_nil_r.
  - eapply runs_bind; [by eapply Hbody | |].
    + intros d1 acc' Hacc'. simpl in Hacc'.
      eapply runs_weaken; [apply (IH (pre ++ [x]) (d ++ d1) acc'); [|done]|].
      * by rewrite <- app_assoc.
      * intros d2 o Ho. by rewrite app_assoc.
    + intros d1 msg Hmsg. simpl in Hmsg. by exists pre, x, post.
Qed.

(** *** The steps of the build, run *)

Ltac run_step :=
  simpl; eexists; split;
  [ rewrite <- ?app_assoc; simpl; first [ reflexivity | symmetry; apply app_nil_r ] | ].

Lemma createVpc_runs vpcItem :
  runs (fun d o => d = vpcResources vpcItem /\ o = Ok (vpcObject vpcItem))
    (createVpc vpcItem).
Proof.
  intros s. unfold createVpc, newSecureVpc, newStringParameter, bind, declare, ret,
    vpcResources, vpcObject.
  simpl. destruct (truthyBool (vpc_internetGateway vpcItem)); run_step; done.
Qed.

Lemma createRouteTable_runs vpcItem pre m rt :
  routeTablesOf vpcItem pre m ->
  runs (fun d o => match o with
                   | Ok m' => routeTablesOf vpcItem (pre ++ [rt]) m'
                              /\ d = routeTableResources vpcItem rt
                   | Throw _ => False
                   end)
    (createRouteTable vpcItem (vpcObject vpcItem) m rt).
Proof.
  intros Hm.
  eapply runs_weaken;
    [apply (runs_with_meets _ _ _ (fun d o => d = routeTableResources vpcItem rt) _
              (createRouteTable_meets vpcItem (fun _ => False) pre m rt Hm))|].
  - intros s.
    unfold createRouteTable, newSecureRouteTable, newStringParameter, bind, declare, ret.
    run_step. reflexivity.
  - intros d [m'|msg] [-> H]; done.
Qed.

Lemma createSubnet_runs vpcItem rtMap pre m sn :
  routeTablesOf vpcItem (orEmpty (vpc_routeTables vpcItem)) rtMap ->
  sn ∈ orEmpty (vpc_subnets vpcItem) ->
  subnetsOf vpcItem pre m ->
  runs (fun d o => match o with
                   | Ok m' => subnetsOf vpcItem (pre ++ [sn]) m'
                              /\ subnetResolved vpcItem sn
                              /\ d = subnetResources env vpcItem sn
                   | Throw msg => ~ subnetResolved vpcItem sn
                                  /\ msg = "Route table " +:+ sn_routeTable sn
                                           +:+ " not defined"
                                  /\ d = []
                   end)
    (createSubnet env vpcItem (vpcObject vpcItem) rtMap m sn).
Proof.
  intros Hrt Hin Hm.
  eapply runs_weaken;
    [apply (runs_with_meets
              _ _ _ (fun d o => match o with
                                | Ok _ => d = subnetResources env vpcItem sn
                                | Throw msg => ~ subnetResolved vpcItem sn
                                               /\ msg = "Route table " +:+ sn_routeTable sn
                                                        +:+ " not defined"
                                               /\ d = []
                                end) _
              (createSubnet_meets ∅ vpcItem rtMap pre m sn Hrt Hin Hm))|].
  - intros s.
    unfold createSubnet, newSecureSubnet, newStringParameter, bind, declare, ret, log, throw.
    simpl. rewrite Hrt. unfold subnetResolved.
    destruct (decide (sn_routeTable sn ∈ map rt_name (orEmpty (vpc_routeTables vpcItem))));
      run_step; done.
  - intros d [m'|msg] [H H']; [|done]. destruct H'. done.
Qed.

Lemma createNatGateway_runs vpcItem snMap pre m ng :
  subnetsOf vpcItem (orEmpty (vpc_subnets vpcItem)) snMap ->
  ng ∈ orEmpty (vpc_natGateways vpcItem) ->
  natGatewaysOf vpcItem pre m ->
  runs (fun d o => match o with
                   | Ok m' => natGatewaysOf vpcItem (pre ++ [ng]) m'
                              /\ natGatewayResolved vpcItem ng
                              /\ d = natGatewayResources vpcItem ng
                   | Throw msg => ~ natGatewayResolved vpcItem ng
                   end)
    (createNatGateway vpcItem snMap m ng).
Proof.
  intros Hsn Hin Hm.
  eapply runs_weaken;
    [apply (runs_with_meets
              _ _ _ (fun d o => match o with
                                | Ok _ => d = natGatewayResources vpcItem ng
                                | Throw msg => ~ natGatewayResolved vpcItem ng
                                end) _
              (createNatGateway_meets ∅ vpcItem snMap pre m ng Hsn Hin Hm))|].
  - intros s. destruct Hsn as [Hdom Hid].
    unfold createNatGateway, newSecureNatGateway, newStringParameter, bind, declare, ret,
      log, throw, natGatewayResources, natGatewayResolved.
    simpl. destruct (snMap !! ng_subnet ng) as [subnet|] eqn:Hlookup; run_step.
    + by rewrite (Hid _ _ Hlookup).
    + intros Hn. apply Hdom in Hn as [? Hn]. congruence.
  - intros d [m'|msg] [H H']; [|done]. destruct H'. done.
Qed.

Lemma subnetIds_resolved vpcItem snMap names subnets :
  subnetsOf vpcItem (orEmpty (vpc_subnets vpcItem)) snMap ->
  Forall2 (fun name subnet => snMap !! name = Some subnet) names subnets ->
  map subnetId subnets = map (subnetIdOf vpcItem) names.
Proof.
  intros [_ Hid]. induction 1 as [|name subnet names subnets H _ IH]; [done|].
  simpl. by rewrite IH, (Hid _ _ H).
Qed.

Lemma createTransitGatewayAttachment_runs ids vpcItem snMap pre m a :
  subnetsOf vpcItem (orEmpty (vpc_subnets vpcItem)) snMap ->
  a ∈ orEmpty (vpc_transitGatewayAttachments vpcItem) ->
  attachmentsOf pre m ->
  runs (fun d o => match o with
                   | Ok m' => attachmentsOf (pre ++ [a]) m'
                              /\ attachmentResolved ids vpcItem a
                              /\ d = attachmentResources ids vpcItem a
                   | Throw msg => ~ attachmentResolved ids vpcItem a
                   end)
    (createTransitGatewayAttachment vpcItem (vpcObject vpcItem) ids snMap m a).
Proof.
  intros Hsn Hin Hm.
  eapply runs_weaken;
    [apply (runs_with_meets
              _ _ _ (fun d o => match o with
                                | Ok _ => d = attachmentResources ids vpcItem a
                                | Throw msg => ~ attachmentResolved ids vpcItem a
                                end) _
              (createTransitGatewayAttachment_meets ids vpcItem snMap pre m a
                 Hsn Hin Hm))|].
  - intros s. unfold createTransitGatewayAttachment, attachmentResources,
      attachmentResolved, gatewayName, newTransitGatewayAttachment, newStringParameter,
      bind, declare, ret, log, throw.
    simpl.
    destruct (ids !! tgw_name (ta_transitGateway a)) as [tgwId|] eqn:Hids.
    + match goal with
      | |- context [forEach (collectSubnetId snMap) _ [] ?s0] =>
          destruct (collectSubnetId_loop snMap (orEmpty (ta_subnets a)) [] s0)
            as [(subnets & Hall & ->)|(pre' & n & post & Heq & _ & Hn & ->)]
      end.
      * run_step. by rewrite (subnetIds_resolved _ _ _ _ Hsn Hall).
      * run_step. intros [_ Hsub]. destruct Hsn as [Hdom _].
        assert (n ∈ map sn_name (orEmpty (vpc_subnets vpcItem))) as Hn'.
        { apply Hsub. rewrite Heq. apply elem_of_app. right. by left. }
        apply Hdom in Hn' as [? Hn']. congruence.
    + run_step. by intros [[? ?] _].
  - intros d [m'|msg] [H H']; [|done]. destruct H'. done.
Qed.

Lemma flat_map_snoc {A B : Type} (f : A -> list B) (l : list A) (x : A) :
  flat_map f (l ++ [x]) = flat_map f l ++ f x.
Proof. rewrite flat_map_app. cbn [flat_map]. by rewrite app_nil_r. Qed.

Lemma truthyString_Some (igw : string) : truthyString (Some igw) = true <-> igw <> "".
Proof.
  unfold truthyString. rewrite negb_true_iff. apply String.eqb_neq.
Qed.

Lemma createRouteTableEntry_runs ids vpcItem natMap attMap rt acc e :
  natGatewaysOf vpcItem (orEmpty (vpc_natGateways vpcItem)) natMap ->
  attachmentsOf (orEmpty (vpc_transitGatewayAttachments vpcItem)) attMap ->
  runs (fun d o =>
          match o with
          | Ok acc' =>
              d = routeResources ids vpcItem rt e
              /\ acc' = (fold_left pushIfAbsent
                           (entryRequests "s3"
                              (routeTableId (routeTableObject vpcItem (rt_name rt))) [e])
                           acc.1,
                         fold_left pushIfAbsent
                           (entryRequests "dynamodb"
                              (routeTableId (routeTableObject vpcItem (rt_name rt))) [e])
                           acc.2)
              /\ routeEntryBuildable ids vpcItem e
          | Throw _ => ~ routeEntryBuildable ids vpcItem e
          end)
    (createRouteTableEntry vpcItem ids natMap attMap rt
       (routeTableObject vpcItem (rt_name rt)) acc e).
Proof.
  intros Hnat Hatt s. destruct acc as [s3 ddb].
  unfold createRouteTableEntry, routeResources, entryRequests, routeEntryBuildable,
    routeEntryResolved.
  cbn [flat_map fst snd].
  destruct (decide (re_type e = "transitGateway")) as [Hty|Hty1].
  { rewrite !(decide_False (P := serviceEntry _ e)) by (intros (? & _); done).
    unfold bind, log, throw, addTransitGatewayRoute, declare, ret. cbn [fst snd].
    pose proof (Hatt (re_target e)) as Hlookup.
    destruct (ids !! re_target e) as [tgwId|] eqn:Hids.
    - destruct (last (filter (fun a => gatewayName a = re_target e)
                        (orEmpty (vpc_transitGatewayAttachments vpcItem))))
        as [a|] eqn:Hlast; rewrite Hlookup; cbn [fmap option_fmap option_map].
      + run_step. split_and!; try done; [|intros ?; congruence|intros ?; congruence].
        intros _. split; [by eexists|].
        apply last_Some_elem_of, list_elem_of_filter in Hlast as [<- Ha].
        by apply list_elem_of_fmap_2.
      + run_step. intros [[Hres _] _]. destruct (Hres Hty) as [_ Hin].
        apply list_elem_of_fmap in Hin as (a & Ha & Hin).
        apply last_None in Hlast.
        assert (a ∈ filter (fun a0 => gatewayName a0 = re_target e)
                      (orEmpty (vpc_transitGatewayAttachments vpcItem))) as Ha'
          by (by apply list_elem_of_filter).
        rewrite Hlast in Ha'. by apply elem_of_nil in Ha'.
    - run_step. intros [[Hres _] _]. destruct (Hres Hty) as [[? ?] _]. congruence. }
  destruct (decide (re_type e = "natGateway")) as [Hty|Hty2].
  { rewrite !(decide_False (P := serviceEntry _ e)) by (intros (_ & ? & _); done).
    unfold bind, log, throw, addNatGatewayRoute, declare, ret. cbn [fst snd].
    rewrite Hnat.
    destruct (decide (re_target e ∈ map ng_name (orEmpty (vpc_natGateways vpcItem)))).
    - run_step. split_and!; try done. intros ?; congruence.
    - run_step. intros [[_ Hres] _]. auto. }
  destruct (decide (re_type e = "internetGateway")) as [Hty|Hty3].
  { rewrite !(decide_False (P := serviceEntry _ e)) by (intros (_ & _ & ? & _); done).
    unfold bind, log, throw, ret. cbn [fst snd]. rewrite addInternetGatewayRoute_guard.
    change (vpc (routeTableObject vpcItem (rt_name rt))) with (vpcObject vpcItem).
    destruct (internetGatewayId (vpcObject vpcItem)) as [igw|] eqn:Higw.
    - destruct (decide (igw = "")) as [->|Hne].
      + run_step. intros [_ Hguard]. by specialize (Hguard Hty).
      + run_step. split_and!; try done. intros _. by apply truthyString_Some.
    - run_step. intros [_ Hguard]. by specialize (Hguard Hty). }
  destruct (decide (re_target e = "s3")) as [Hs3|Hs3].
  { rewrite (decide_True (P := serviceEntry "s3" e)) by done.
    rewrite (decide_False (P := serviceEntry "dynamodb" e))
      by (intros (_ & _ & _ & ?); congruence).
    run_step. done. }
  rewrite (decide_False (P := serviceEntry "s3" e)) by (intros (_ & _ & _ & ?); done).
  destruct (decide (re_target e = "dynamodb")) as [Hddb|Hddb].
  { rewrite (decide_True (P := serviceEntry "dynamodb" e)) by done.
    run_step. done. }
  rewrite (decide_False (P := serviceEntry "dynamodb" e)) by (intros (_ & _ & _ & ?); done).
  run_step. done.
Qed.

Lemma createRouteTableEntries_runs ids vpcItem rtMap natMap attMap acc rt :
  routeTablesOf vpcItem (orEmpty (vpc_routeTables vpcItem)) rtMap ->
  natGatewaysOf vpcItem (orEmpty (vpc_natGateways vpcItem)) natMap ->
  attachmentsOf (orEmpty (vpc_transitGatewayAttachments vpcItem)) attMap ->
  rt ∈ orEmpty (vpc_routeTables vpcItem) ->
  runs (fun d o =>
          match o with
          | Ok acc' =>
              d = flat_map (routeResources ids vpcItem rt) (orEmpty (rt_routes rt))
              /\ acc' = (fold_left pushIfAbsent
                           (entryRequests "s3"
                              (routeTableId (routeTableObject vpcItem (rt_name rt)))
                              (orEmpty (rt_routes rt)))
                           acc.1,
                         fold_left pushIfAbsent
                           (entryRequests "dynamodb"
                              (routeTableId (routeTableObject vpcItem (rt_name rt)))
                              (orEmpty (rt_routes rt)))
                           acc.2)
              /\ (forall e, e ∈ orEmpty (rt_routes rt) -> routeEntryBuildable ids vpcItem e)
          | Throw _ =>
              exists e, e ∈ orEmpty (rt_routes rt) /\ ~ routeEntryBuildable ids vpcItem e
          end)
    (createRouteTableEntries vpcItem ids rtMap natMap attMap acc rt).
Proof.
  intros Hrt Hnat Hatt Hin. unfold createRouteTableEntries.
  rewrite Hrt, decide_True by (by apply list_elem_of_fmap_2).
  eapply runs_weaken.
  - apply (runs_forEach
             (fun pre d acc' =>
                d = flat_map (routeResources ids vpcItem rt) pre
                /\ acc' = (fold_left pushIfAbsent
                             (entryRequests "s3"
                                (routeTableId (routeTableObject vpcItem (rt_name rt))) pre)
                             acc.1,
                           fold_left pushIfAbsent
                             (entryRequests "dynamodb"
                                (routeTableId (routeTableObject vpcItem (rt_name rt))) pre)
                             acc.2)
                /\ forall e, e ∈ pre -> routeEntryBuildable ids vpcItem e)
             (fun _ x _ _ => ~ routeEntryBuildable ids vpcItem x)).
    + split_and!; [done | by destruct acc |]. intros e He. by apply elem_of_nil in He.
    + intros pre e post d acc1 Heq (-> & -> & Hpre).
      eapply runs_weaken; [by apply createRouteTableEntry_runs|].
      intros d' [acc2|msg]; [|done]. intros (-> & -> & He). split_and!.
      * by rewrite flat_map_snoc.
      * unfold entryRequests. rewrite !flat_map_app, !fold_left_app. done.
      * intros e' [He'|He']%elem_of_app; [by apply Hpre|].
        by apply list_elem_of_singleton in He' as ->.
  - intros d [acc'|msg]; [done|]. intros (pre & e & post & Heq & He).
    exists e. split; [|done]. rewrite Heq. apply elem_of_app. right. by left.
Qed.

Lemma addGatewayEndpoint_runs vpcItem u item :
  runs (fun d o => d = endpointResources vpcItem item /\ o = Ok tt)
    (addGatewayEndpoint vpcItem (vpcObject vpcItem) (serviceRouteTables vpcItem "s3")
       (serviceRouteTables vpcItem "dynamodb") u item).
Proof.
  intros s.
  unfold addGatewayEndpoint, addGatewayVpcEndpoint, endpointResources, bind, declare, ret, log.
  simpl. destruct (decide (item = "s3")) as [->|Hs3].
  - rewrite decide_True by (by left). run_step. done.
  - destruct (decide (item = "dynamodb")) as [->|Hddb].
    + rewrite decide_True by (by right). run_step. done.
    + rewrite decide_False by (by intros [?|?]). run_step. done.
Qed.

Ltac last_item Heq := rewrite Heq; apply elem_of_app; right; by left.

(** The run of the build of a VPC definition.  When it returns, it has added
    the resources of the definition, whose references are resolved and whose
    internet-gateway routes are guarded; when it throws, the definition has
    an unresolved reference or an unguarded internet-gateway route, and a
    subnet with an unresolved route table, if there is one, is what
    stopped it. *)
Lemma evaluateVpc_runs ids vpcItem :
  runs (fun d o =>
          match o with
          | Ok _ => d = builtResources env ids vpcItem
                    /\ referencesResolved ids vpcItem /\ gatewayGuard vpcItem
          | Throw msg =>
              ~ (referencesResolved ids vpcItem /\ gatewayGuard vpcItem)
              /\ ((exists sn, sn ∈ orEmpty (vpc_subnets vpcItem)
                              /\ ~ subnetResolved vpcItem sn) ->
                  firstUnresolvedSubnet env vpcItem d msg)
          end)
    (evaluateVpc env ids vpcItem).
Proof.
  unfold evaluateVpc.
  apply (runs_bind (fun d o => d = [] /\ o = Ok tt));
    [by apply runs_log | | by intros d msg [_ [=]]].
  intros d [] [-> _]. cbv beta. cbn [app].
  apply (runs_bind (fun d o => d = vpcResources vpcItem /\ o = Ok (vpcObject vpcItem)));
    [apply createVpc_runs | | by intros d msg [_ [=]]].
  intros d v [-> [= ->]]. cbv beta.
  (* route tables *)
  eapply runs_bind;
    [apply (runs_forEach
              (fun pre d m => routeTablesOf vpcItem pre m
                              /\ d = flat_map (routeTableResources vpcItem) pre)
              (fun _ _ _ _ => False)) | | ].
  { split; [|done]. intros name. by rewrite decide_False by apply not_elem_of_nil. }
  { intros pre x post d m _ [Hm ->].
    eapply runs_weaken; [by apply createRouteTable_runs|].
    intros d' [m'|msg]; [|done]. intros [Hm' ->]. split; [done|].
    by rewrite flat_map_snoc. }
  2: { intros d msg (? & ? & ? & _ & []). }
  intros d rtMap [Hrt ->]. cbv beta.
  (* subnets *)
  eapply runs_bind;
    [apply (runs_forEach
              (fun pre d m => subnetsOf vpcItem pre m
                              /\ (forall y, y ∈ pre -> subnetResolved vpcItem y)
                              /\ d = flat_map (subnetResources env vpcItem) pre)
              (fun pre x d msg =>
                 (forall y, y ∈ pre -> subnetResolved vpcItem y)
                 /\ ~ subnetResolved vpcItem x
                 /\ msg = "Route table " +:+ sn_routeTable x +:+ " not defined"
                 /\ d = flat_map (subnetResources env vpcItem) pre)) | | ].
  { split; [split|split; [|done]].
    - intros name. rewrite lookup_empty. split; [by intros [? ?]|].
      intros H. by apply elem_of_nil in H.
    - intros name subnet. by rewrite lookup_empty.
    - intros y Hy. by apply elem_of_nil in Hy. }
  { intros pre x post d m Heq (Hm & Hpre & ->).
    eapply runs_weaken; [apply createSubnet_runs; [done | last_item Heq | done]|].
    intros d' [m'|msg].
    - intros (Hm' & Hx & ->). split_and!; [done | |].
      + intros y [Hy|Hy]%elem_of_app; [by apply Hpre|].
        by apply list_elem_of_singleton in Hy as ->.
      + by rewrite flat_map_snoc.
    - intros (Hx & -> & ->). rewrite app_nil_r. done. }
  2: { intros d msg (pre & x & post & Heq & Hpre & Hx & -> & ->). split.
       - intros [(Hsn & _) _]. apply Hx, Hsn. last_item Heq.
       - intros _. by exists pre, x, post. }
  intros d snMap (Hsn & Hsnres & ->). cbv beta.
  assert (Hfirst : forall d msg,
             (exists sn, sn ∈ orEmpty (vpc_subnets vpcItem) /\ ~ subnetResolved vpcItem sn) ->
             firstUnresolvedSubnet env vpcItem d msg).
  { intros d msg (sn & Hin & Hno). destruct Hno. by apply Hsnres. }
  (* NAT gateways *)
  eapply runs_bind;
    [apply (runs_forEach
              (fun pre d m => natGatewaysOf vpcItem pre m
                              /\ (forall y, y ∈ pre -> natGatewayResolved vpcItem y)
                              /\ d = flat_map (natGatewayResources vpcItem) pre)
              (fun _ x _ _ => ~ natGatewayResolved vpcItem x)) | | ].
  { split; [|split; [|done]].
    - intros name. by rewrite decide_False by apply not_elem_of_nil.
    - intros y Hy. by apply elem_of_nil in Hy. }
  { intros pre x post d m Heq (Hm & Hpre & ->).
    eapply runs_weaken; [apply createNatGateway_runs; [done | last_item Heq | done]|].
    intros d' [m'|msg]; [|done].
    intros (Hm' & Hx & ->). split_and!; [done | |].
    - intros y [Hy|Hy]%elem_of_app; [by apply Hpre|].
      by apply list_elem_of_singleton in Hy as ->.
    - by rewrite flat_map_snoc. }
  2: { intros d msg (pre & x & post & Heq & Hx). split; [|apply Hfirst].
       intros [(_ & Hng & _) _]. apply Hx, Hng. last_item Heq. }
  intros d natMap (Hnat & Hnatres & ->). cbv beta.
  (* transit-gateway attachments *)
  eapply runs_bind;
    [apply (runs_forEach
              (fun pre d m => attachmentsOf pre m
                              /\ (forall y, y ∈ pre -> attachmentResolved ids vpcItem y)
                              /\ d = flat_map (attachmentResources ids vpcItem) pre)
              (fun _ x _ _ => ~ attachmentResolved ids vpcItem x)) | | ].
  { split; [|split; [|done]].
    - intros name. by rewrite lookup_empty.
    - intros y Hy. by apply elem_of_nil in Hy. }
  { intros pre x post d m Heq (Hm & Hpre & ->).
    eapply runs_weaken;
      [apply createTransitGatewayAttachment_runs; [done | last_item Heq | done]|].
    intros d' [m'|msg]; [|done].
    intros (Hm' & Hx & ->). split_and!; [done | |].
    - intros y [Hy|Hy]%elem_of_app; [by apply Hpre|].
      by apply list_elem_of_singleton in Hy as ->.
    - by rewrite flat_map_snoc. }
  2: { intros d msg (pre & x & post & Heq & Hx). split; [|apply Hfirst].
       intros [(_ & _ & Hatt & _) _]. apply Hx, Hatt. last_item Heq. }
  intros d attMap (Hatt & Hattres & ->). cbv beta.
  (* route entries *)
  eapply runs_bind;
    [apply (runs_forEach
              (fun pre d acc =>
                 d = flat_map (fun rt => flat_map (routeResources ids vpcItem rt)
                                           (orEmpty (rt_routes rt))) pre
                 /\ acc = (fold_left pushIfAbsent (serviceRequests vpcItem "s3" pre) [],
                           fold_left pushIfAbsent (serviceRequests vpcItem "dynamodb" pre) [])
                 /\ forall rt, rt ∈ pre -> forall e, e ∈ orEmpty (rt_routes rt) ->
                                                    routeEntryBuildable ids vpcItem e)
              (fun _ x _ _ =>
                 exists e, e ∈ orEmpty (rt_routes x) /\ ~ routeEntryBuildable ids vpcItem e))
    | | ].
  { split_and!; [done | done |]. intros rt Hrt'. by apply elem_of_nil in Hrt'. }
  { intros pre x post d acc Heq (-> & -> & Hpre).
    eapply runs_weaken;
      [apply createRouteTableEntries_runs; [done | done | done | last_item Heq]|].
    intros d' [acc'|msg]; [|done].
    intros (-> & -> & Hx). split_and!.
    - by rewrite flat_map_snoc.
    - unfold serviceRequests. by rewrite !flat_map_snoc, !fold_left_app.
    - intros rt [Hrt'|Hrt']%elem_of_app; [by apply Hpre|].
      by apply list_elem_of_singleton in Hrt' as ->. }
  2: { intros d msg (pre & x & post & Heq & e & He & Hno). split; [|apply Hfirst].
       intros [(_ & _ & _ & Hroute) Hguard]. apply Hno. split.
       - apply (Hroute x); [last_item Heq | done].
       - intros Hty. apply Hguard. exists x, e. split_and!; [last_item Heq | done | done]. }
  intros d [s3 ddb] (-> & [= -> ->] & Hroutes). cbv beta iota.
  (* gateway endpoints *)
  eapply runs_weaken;
    [apply (runs_forEach
              (fun pre d (_ : unit) => d = flat_map (endpointResources vpcItem) pre)
              (fun _ _ _ _ => False)); [done|]|].
  { intros pre x post d u _ ->.
    eapply runs_weaken; [apply addGatewayEndpoint_runs|].
    intros d' o [-> ->]. by rewrite flat_map_snoc. }
  intros d [u|msg]; [|by intros (? & ? & ? & _ & [])].
  intros ->. split_and!; [done | |].
  - split_and!; try done. intros rt e Hrt' He. by destruct (Hroutes rt Hrt' e He).
  - intros (rt & e & Hrt' & He & Hty). by apply (Hroutes rt Hrt' e He).
Qed.

(** *** What a build declares, and when it returns *)

(** X1. A build of a VPC definition that returns has added to the assembly
    exactly the resources of the definition, in the order of the build: the
    VPC (with its internet gateway when asked for), the route tables, the
    subnets (each associated with the route table it names), the NAT
    gateways (each in the subnet it names), the transit-gateway attachments,
    one route for each route entry of a gateway type, and one gateway
    endpoint for each item [s3] or [dynamodb], every name being resolved in
    the definition. *)
Theorem evaluateVpc_builds_definition (ids : gmap string string) (vpcItem : VpcConfig)
    (s : Assembly) :
  (evaluateVpc env ids vpcItem s).2 = Ok tt ->
  resources (evaluateVpc env ids vpcItem s).1
  = resources s ++ builtResources env ids vpcItem.
Proof.
  intros Hok. destruct (evaluateVpc_runs ids vpcItem s) as (d & Hd & Hout).
  rewrite Hok in Hout. destruct Hout as (-> & _). exact Hd.
Qed.





(** *** The lookups of the resolution pass *)

(** One step of the resolution declares the lookups of the attachment when
    the name of its transit gateway is new, and nothing when it is known. *)
Lemma resolveTransitGateway_lookups acc a s :
  exists s',
    resolveTransitGateway env props acc a s = (s', Ok (resolution env props acc a))
    /\ resources s'
       = resources s ++ match acc.1 !! gatewayName a with
                        | Some _ => []
                        | None => lookupResources env props a
                        end.
Proof.
  destruct acc as [ids accts].
  unfold resolveTransitGateway, resolution, lookupResources, lookedUpId, owningAccount,
    gatewayName.
  simpl. destruct (ids !! tgw_name (ta_transitGateway a)) as [id|] eqn:Hid.
  - eexists. split; [reflexivity|]. simpl. by rewrite app_nil_r.
  - destruct (decide (accountIdOf props (tgw_account (ta_transitGateway a))
                      = Some (account env))) as [Ho|Ho].
    + eexists. split; [reflexivity|]. reflexivity.
    + eexists. split; [reflexivity|]. simpl. by rewrite <- !app_assoc.
Qed.

Lemma resolveTransitGateways_lookups visited : forall acc known s,
  (forall name, name ∈ known <-> is_Some (acc.1 !! name)) ->
  exists s',
    forEach (resolveTransitGateway env props) visited acc s
    = (s', Ok (fold_left (resolution env props) visited acc))
    /\ resources s'
       = resources s ++ flat_map (lookupResources env props) (newlyNamed known visited).
Proof.
  induction visited as [|a visited IH]; intros acc known s Hknown; simpl.
  - exists s. split; [reflexivity|]. by rewrite app_nil_r.
  - destruct (resolveTransitGateway_lookups acc a s) as (s1 & Hs1 & Hd1).
    rewrite (bind_ok _ _ _ _ _ Hs1). unfold resolution in *.
    destruct (acc.1 !! gatewayName a) as [id|] eqn:Hid.
    + rewrite (decide_True (P := gatewayName a ∈ known)) by (apply Hknown; by eexists).
      destruct (IH acc known s1 Hknown) as (s2 & Hs2 & Hd2).
      exists s2. split; [done|]. by rewrite Hd2, Hd1, app_nil_r.
    + rewrite (decide_False (P := gatewayName a ∈ known))
        by (intros [? Hin]%Hknown; congruence).
      match goal with
      | |- context [forEach _ visited ?acc' s1] =>
          destruct (IH acc' (gatewayName a :: known) s1) as (s2 & Hs2 & Hd2)
      end.
      { intros name. simpl. rewrite elem_of_cons, lookup_insert_is_Some, Hknown.
        destruct (decide (gatewayName a = name)); intuition (subst; auto; congruence). }
      exists s2. split; [done|]. simpl. by rewrite Hd2, Hd1, <- app_assoc.
Qed.

(** The attachments the pass looks up are those that are first to name a
    transit gateway that was not known. *)
Lemma newlyNamed_firstNew visited : forall known (ids : gmap string string) a,
  (forall name, name ∈ known <-> is_Some (ids !! name)) ->
  a ∈ newlyNamed known visited <-> firstNew ids visited a.
Proof.
  induction visited as [|a0 visited IH]; intros known ids a Hknown; simpl.
  - split; [by intros H%elem_of_nil|]. intros [(pre & post & Heq & _) _]. by destruct pre.
  - destruct (decide (gatewayName a0 ∈ known)) as [Hin|Hin].
    + rewrite (firstNew_cons_known ids a0 visited a) by (by apply Hknown).
      by apply IH.
    + assert (Hnone : ids !! gatewayName a0 = None).
      { destruct (ids !! gatewayName a0) eqn:E; [|done]. destruct Hin. apply Hknown.
        by eexists. }
      rewrite (firstNew_cons_new ids a0 visited a "" Hnone), elem_of_cons.
      rewrite (IH (gatewayName a0 :: known) (<[gatewayName a0 := ""]> ids)); [done|].
      intros name. rewrite elem_of_cons, lookup_insert_is_Some, Hknown.
      destruct (decide (gatewayName a0 = name)); intuition (subst; auto; congruence).
Qed.

Lemma firstNew_empty visited a :
  firstNew (∅ : gmap string string) visited a <-> firstToName visited a.
Proof. unfold firstNew. rewrite lookup_empty. tauto. Qed.

Lemma elem_of_flat_map {A B : Type} (f : A -> list B) (l : list A) (y : B) :
  y ∈ flat_map f l <-> exists x, x ∈ l /\ y ∈ f x.
Proof.
  rewrite list_elem_of_In, in_flat_map. setoid_rewrite list_elem_of_In. done.
Qed.

(** X4. The lookups of the resolution pass follow the ownership of the
    transit gateways.  The pass never throws; it declares, in order, the
    lookups of the attachments that are first to name their transit gateway:
    for a transit gateway of the account of the stack one read of the
    parameter [/accelerator/network/transitGateways/{name}/id], and no
    resource-share lookup; for a transit gateway of another account the
    lookup of the share [{Name}TransitGatewayShare] of that account and of
    the transit gateway shared in it, and no read of the parameter store.
    The owner of a transit gateway is the one given by the first attachment
    that names it. *)
Theorem lookups_follow_ownership (vpcItems : list VpcConfig) (s : Assembly) :
  let visited := visitedAttachments env props vpcItems in
  let lookups := flat_map (lookupResources env props) (newlyNamed [] visited) in
  (exists s',
      resolveTransitGateways env props vpcItems (∅, []) s
      = (s', Ok (resolved env props vpcItems))
      /\ resources s' = resources s ++ lookups)
  /\ (forall a, a ∈ newlyNamed [] visited <-> firstToName visited a)
  /\ (forall p,
        StringParameterLookup p ∈ lookups
        <-> exists a, firstToName visited a
                      /\ owningAccount props a = Some (account env)
                      /\ p = "/accelerator/network/transitGateways/" +:+ gatewayName a
                             +:+ "/id")
  /\ (forall node o name owner,
        ResourceShareLookup node o name owner ∈ lookups
        <-> exists a, firstToName visited a
                      /\ owningAccount props a <> Some (account env)
                      /\ owner = owningAccount props a
                      /\ name = pascalCase (gatewayName a +:+ "TransitGatewayShare")
                      /\ node = [name] /\ o = OTHER_ACCOUNTS)
  /\ (forall node shareId type,
        ResourceShareItemLookup node shareId type ∈ lookups
        <-> exists a, firstToName visited a
                      /\ owningAccount props a <> Some (account env)
                      /\ node = [pascalCase (gatewayName a +:+ "TransitGateway")]
                      /\ shareId
                         = resourceShareId
                             (pascalCase (gatewayName a +:+ "TransitGatewayShare"))
                             (owningAccount props a)
                      /\ type = "ec2:TransitGateway").
Proof.
  intros visited lookups.
  assert (Hfirst : forall a, a ∈ newlyNamed [] visited <-> firstToName visited a).
  { intros a. rewrite <- firstNew_empty. apply newlyNamed_firstNew.
    intros name. rewrite lookup_empty. split; [by intros H%elem_of_nil | by intros [? ?]]. }
  split_and!.
  - destruct (resolveTransitGateways_lookups visited (∅, []) [] s) as (s' & Hrun & Hres).
    { intros name. simpl. rewrite lookup_empty.
      split; [by intros H%elem_of_nil | by intros [? ?]]. }
    exists s'. split; [|done]. by rewrite resolveTransitGateways_visited.
  - exact Hfirst.
  - intros p. unfold lookups. rewrite elem_of_flat_map. setoid_rewrite Hfirst.
    unfold lookupResources. split.
    + intros (a & Ha & Hin). exists a. split; [done|].
      destruct (decide (owningAccount props a = Some (account env))).
      * apply list_elem_of_singleton in Hin. by injection Hin as ->.
      * apply elem_of_cons in Hin as [?|Hin]; [done|].
        by apply list_elem_of_singleton in Hin.
    + intros (a & Ha & Ho & ->). exists a. split; [done|].
      rewrite decide_True by done. by left.
  - intros node o name owner. unfold lookups. rewrite elem_of_flat_map.
    setoid_rewrite Hfirst. unfold lookupResources. split.
    + intros (a & Ha & Hin). exists a. split; [done|].
      destruct (decide (owningAccount props a = Some (account env))).
      * by apply list_elem_of_singleton in Hin.
      * apply elem_of_cons in Hin as [Hin|Hin].
        -- injection Hin; intros; subst. by destruct o.
        -- by apply list_elem_of_singleton in Hin.
    + intros (a & Ha & Ho & -> & -> & -> & ->). exists a. split; [done|].
      rewrite decide_False by done. by left.
  - intros node shareId type. unfold lookups. rewrite elem_of_flat_map.
    setoid_rewrite Hfirst. unfold lookupResources. split.
    + intros (a & Ha & Hin). exists a. split; [done|].
      destruct (decide (owningAccount props a = Some (account env))).
      * by apply list_elem_of_singleton in Hin.
      * apply elem_of_cons in Hin as [Hin|Hin]; [done|].
        apply list_elem_of_singleton in Hin. by injection Hin as -> -> ->.
    + intros (a & Ha & Ho & -> & -> & ->). exists a. split; [done|].
      rewrite decide_False by done. right. by left.
Qed.

(** *** The run of the constructor *)

Lemma runs_ext {A : Type} (R : list Resource -> Outcome A -> Prop) (c c' : Synth A) :
  (forall s, c s = c' s) -> runs R c' -> runs R c.
Proof. intros Heq Hc s. rewrite Heq. apply Hc. Qed.

Lemma evaluateVpcs_runs ids l :
  runs (fun d o =>
          match o with
          | Ok _ =>
              d = flat_map (builtResources env ids) (vpcsInThisStack env props l)
              /\ forall v, v ∈ vpcsInThisStack env props l ->
                           referencesResolved ids v /\ gatewayGuard v
          | Throw _ =>
              exists v, v ∈ vpcsInThisStack env props l
                        /\ ~ (referencesResolved ids v /\ gatewayGuard v)
          end)
    (evaluateVpcs env props ids l).
Proof.
  apply (runs_ext _ _ _ (evaluateVpcs_filter ids l)).
  eapply runs_weaken.
  - apply (runs_forEach
             (fun pre d (_ : unit) =>
                d = flat_map (builtResources env ids) pre
                /\ forall v, v ∈ pre -> referencesResolved ids v /\ gatewayGuard v)
             (fun _ v _ _ => ~ (referencesResolved ids v /\ gatewayGuard v))).
    + split; [done|]. intros v Hv. by apply elem_of_nil in Hv.
    + intros pre v post d u Heq [-> Hpre].
      eapply runs_weaken; [apply evaluateVpc_runs|].
      intros d' [u'|msg].
      * intros (-> & Hv). split; [by rewrite flat_map_snoc|].
        intros v' [Hv'|Hv']%elem_of_app; [by apply Hpre|].
        by apply list_elem_of_singleton in Hv' as ->.
      * by intros [Hno _].
  - intros d [u|msg]; [done|]. intros (pre & v & post & Heq & Hno).
    exists v. split; [|done]. unfold vpcsInThisStack. last_item Heq.
Qed.

(** The run of the constructor.  When it returns it has declared the
    resources of the configuration; it throws exactly when a VPC definition
    of the stack has an unresolved reference or an unguarded
    internet-gateway route. *)
Lemma NetworkVpcStack_runs :
  let vpcItems := orEmpty (vpcs (networkConfig props)) in
  let ids := (resolved env props vpcItems).1 in
  runs (fun d o =>
          match o with
          | Ok _ =>
              d = constructedResources env props
              /\ forall v, v ∈ vpcsInThisStack env props vpcItems ->
                           referencesResolved ids v /\ gatewayGuard v
          | Throw _ =>
              exists v, v ∈ vpcsInThisStack env props vpcItems
                        /\ ~ (referencesResolved ids v /\ gatewayGuard v)
          end)
    (NetworkVpcStack env props).
Proof.
  intros vpcItems ids. unfold NetworkVpcStack, constructedResources, stackResources.
  fold vpcItems. unfold newStringParameter.
  apply (runs_bind
           (fun d o => d = [StringParameter ["SsmParamStackId"]
                              ("/accelerator/" +:+ stackName env +:+ "/stack-id")
                              (stackId env)] /\ o = Ok tt));
    [by apply runs_declare | | by intros d msg [_ [=]]].
  intros d [] [-> _]. cbv beta.
  apply (runs_bind
           (fun d o => d = (if truthyBool (defaultVpc_delete (networkConfig props))
                            then [DeleteDefaultVpc ["DeleteDefaultVpc"]] else [])
                       /\ o = Ok tt));
    [ | | by intros d msg [_ [=]]].
  { destruct (truthyBool (defaultVpc_delete (networkConfig props))).
    - intros s. unfold bind, log, declare. run_step. done.
    - by apply runs_ret. }
  intros d [] [-> _]. cbv beta.
  apply (runs_bind
           (fun d o => d = flat_map (lookupResources env props)
                             (newlyNamed [] (visitedAttachments env props vpcItems))
                       /\ o = Ok (resolved env props vpcItems)));
    [ | | by intros d msg [_ [=]]].
  { intros s. rewrite resolveTransitGateways_visited.
    destruct (resolveTransitGateways_lookups (visitedAttachments env props vpcItems)
                (∅, []) [] s) as (s' & Hrun & Hres).
    { intros name. simpl. rewrite lookup_empty.
      split; [by intros H%elem_of_nil | by intros [? ?]]. }
    rewrite Hrun. eexists. split; [exact Hres|]. done. }
  intros d acc [-> [= ->]]. cbv beta. subst ids.
  destruct (resolved env props vpcItems) as [ids accts]. cbn [fst snd].
  apply (runs_bind (fun d o => d = accessRoleFor accts /\ o = Ok tt));
    [ | | by intros d msg [_ [=]]].
  { intros s. destruct (createAccessRole_run accts s) as (s' & Hrun & Hres).
    rewrite Hrun. by eexists. }
  intros d [] [-> _]. cbv beta.
  eapply runs_weaken; [apply evaluateVpcs_runs|].
  intros d [u|msg]; [|done]. by intros [-> Hall].
Qed.

(** X5. A constructor that returns has declared exactly the resources of
    the configuration, in this order: the parameter of the stack, the
    removal of the default VPC when the configuration asks for it, the
    lookups of the transit gateways, the cross-account role when a transit
    gateway belongs to another account, and the resources of each VPC
    definition of the stack, one definition after the other.  A VPC
    definition of another account or region contributes nothing, and the
    resources of a definition do not depend on the other definitions but
    through the transit-gateway identifiers. *)
Theorem NetworkVpcStack_builds_configuration (s : Assembly) :
  (NetworkVpcStack env props s).2 = Ok tt ->
  resources (NetworkVpcStack env props s).1
  = resources s ++ constructedResources env props.
Proof.
  intros Hok. destruct (NetworkVpcStack_runs s) as (d & Hd & Hout).
  rewrite Hok in Hout. destruct Hout as (-> & _). exact Hd.
Qed.


(** *** The lists of the gateway endpoints *)

Lemma fold_pushIfAbsent_elem (l : list string) : forall acc y,
  y ∈ fold_left pushIfAbsent l acc <-> y ∈ acc \/ y ∈ l.
Proof.
  induction l as [|x l IH]; intros acc y; simpl.
  - rewrite elem_of_nil. tauto.
  - rewrite IH, pushIfAbsent_elem, elem_of_cons. tauto.
Qed.

Lemma fold_pushIfAbsent_NoDup (l : list string) : forall acc,
  NoDup acc -> NoDup (fold_left pushIfAbsent l acc).
Proof.
  induction l as [|x l IH]; intros acc Hacc; simpl; [done|].
  by apply IH, pushIfAbsent_NoDup.
Qed.

(** The list of a service holds the identifiers of the route tables that
    have a route entry for the service, and no other. *)
Lemma serviceRouteTables_elem vpcItem service id :
  id ∈ serviceRouteTables vpcItem service
  <-> exists rt e, rt ∈ orEmpty (vpc_routeTables vpcItem) /\ e ∈ orEmpty (rt_routes rt)
                   /\ serviceEntry service e
                   /\ id = routeTableId (routeTableObject vpcItem (rt_name rt)).
Proof.
  unfold serviceRouteTables, serviceRequests, entryRequests.
  rewrite fold_pushIfAbsent_elem, elem_of_nil, elem_of_flat_map.
  setoid_rewrite elem_of_flat_map. split.
  - intros [[]|(rt & Hrt & e & He & Hid)]. exists rt, e.
    destruct (decide (serviceEntry service e)); [|by apply elem_of_nil in Hid].
    by apply list_elem_of_singleton in Hid.
  - intros (rt & e & Hrt & He & Hs & ->). right. exists rt. split; [done|].
    exists e. split; [done|]. rewrite decide_True by done. by left.
Qed.

(** *** Where a resource of a build comes from *)

Lemma elem_of_builtResources ids vpcItem r :
  r ∈ builtResources env ids vpcItem
  <-> r ∈ vpcResources vpcItem
      \/ (exists rt, rt ∈ orEmpty (vpc_routeTables vpcItem)
                     /\ r ∈ routeTableResources vpcItem rt)
      \/ (exists sn, sn ∈ orEmpty (vpc_subnets vpcItem)
                     /\ r ∈ subnetResources env vpcItem sn)
      \/ (exists ng, ng ∈ orEmpty (vpc_natGateways vpcItem)
                     /\ r ∈ natGatewayResources vpcItem ng)
      \/ (exists a, a ∈ orEmpty (vpc_transitGatewayAttachments vpcItem)
                    /\ r ∈ attachmentResources ids vpcItem a)
      \/ (exists rt e, rt ∈ orEmpty (vpc_routeTables vpcItem)
                       /\ e ∈ orEmpty (rt_routes rt)
                       /\ r ∈ routeResources ids vpcItem rt e)
      \/ (exists item, item ∈ orEmpty (vpc_gatewayEndpoints vpcItem)
                       /\ r ∈ endpointResources vpcItem item).
Proof.
  unfold builtResources. rewrite !elem_of_app, !elem_of_flat_map.
  setoid_rewrite elem_of_flat_map.
  split.
  - intros [H|[H|[H|[H|[H|[(rt & Hrt & e & He & Hr)|H]]]]]];
      [ by left | right; by left | do 2 right; by left | do 3 right; by left
      | do 4 right; by left | do 5 right; left; by exists rt, e | by do 6 right ].
  - intros [H|[H|[H|[H|[H|[(rt & e & Hrt & He & Hr)|H]]]]]];
      [ by left | right; by left | do 2 right; by left | do 3 right; by left
      | do 4 right; by left | do 5 right; left; exists rt; split; [done|]; by exists e
      | by do 6 right ].
Qed.

(** Taking apart the membership in a list that is written out. *)
Ltac pick H :=
  repeat first
    [ apply elem_of_nil in H; destruct H
    | apply elem_of_cons in H as [H|H]; [simplify_eq|] ].

Lemma declared_vpc vpcItem :
  (VpcKind, vpc_name vpcItem, vpcId (vpcObject vpcItem)) ∈ declaredResources vpcItem.
Proof. unfold declaredResources. by left. Qed.

Lemma declared_routeTable vpcItem name :
  name ∈ map rt_name (orEmpty (vpc_routeTables vpcItem)) ->
  (RouteTableKind, name, routeTableId (routeTableObject vpcItem name))
  ∈ declaredResources vpcItem.
Proof.
  intros (rt & -> & Hrt)%list_elem_of_fmap. unfold declaredResources.
  right. apply elem_of_app. left.
  by apply (list_elem_of_fmap_2
              (fun rt => (RouteTableKind, rt_name rt,
                          routeTableId (routeTableObject vpcItem (rt_name rt))))).
Qed.

Lemma declared_subnet vpcItem name :
  name ∈ map sn_name (orEmpty (vpc_subnets vpcItem)) ->
  (SubnetKind, name, subnetIdOf vpcItem name) ∈ declaredResources vpcItem.
Proof.
  intros (sn & -> & Hsn)%list_elem_of_fmap. unfold declaredResources.
  right. apply elem_of_app. right. apply elem_of_app. left.
  by apply (list_elem_of_fmap_2
              (fun sn => (SubnetKind, sn_name sn, subnetIdOf vpcItem (sn_name sn)))).
Qed.

Lemma declared_natGateway vpcItem name :
  name ∈ map ng_name (orEmpty (vpc_natGateways vpcItem)) ->
  (NatGatewayKind, name, natGatewayId (natGatewayObject vpcItem name))
  ∈ declaredResources vpcItem.
Proof.
  intros (ng & -> & Hng)%list_elem_of_fmap. unfold declaredResources.
  right. apply elem_of_app. right. apply elem_of_app. right. apply elem_of_app. left.
  by apply (list_elem_of_fmap_2
              (fun ng => (NatGatewayKind, ng_name ng,
                          natGatewayId (natGatewayObject vpcItem (ng_name ng))))).
Qed.

(** Every reference of a resource of the definition is to a resource that
    the definition declares, once the references of the definition are
    resolved. *)
Lemma builtResources_references ids vpcItem r k id :
  referencesResolved ids vpcItem ->
  r ∈ builtResources env ids vpcItem -> (k, id) ∈ referencesOf r ->
  exists name, (k, name, id) ∈ declaredResources vpcItem.
Proof.
  intros (Hsn & Hng & Hatt & Hroute) Hr Href. apply elem_of_builtResources in Hr.
  destruct Hr as [Hr|[(rt & Hrt & Hr)|[(sn & Hin & Hr)|[(ng & Hin & Hr)|[(a & Hin & Hr)
                 |[(rt & e & Hrt & He & Hr)|(item & Hin & Hr)]]]]]].
  - unfold vpcResources in Hr.
    destruct (internetGatewayId (vpcObject vpcItem)); pick Hr; simpl in Href; pick Href;
      eexists; apply declared_vpc.
  - unfold routeTableResources in Hr. pick Hr; simpl in Href; pick Href.
    eexists; apply declared_vpc.
  - unfold subnetResources in Hr. pick Hr; simpl in Href; pick Href.
    + eexists; apply declared_vpc.
    + eexists. apply declared_subnet. by apply list_elem_of_fmap_2.
    + eexists. apply declared_routeTable. by apply Hsn.
  - unfold natGatewayResources in Hr. pick Hr; simpl in Href; pick Href.
    eexists. apply declared_subnet. by apply Hng.
  - unfold attachmentResources in Hr. destruct (Hatt a Hin) as [_ Hsub].
    destruct (ids !! gatewayName a); pick Hr; simpl in Href; try (by pick Href).
    apply elem_of_cons in Href as [Href|Href]; [simplify_eq; eexists; apply declared_vpc|].
    apply list_elem_of_fmap in Href as (sid & [= -> ->] & Hsid).
    apply list_elem_of_fmap in Hsid as (name & -> & Hname).
    eexists. apply declared_subnet. by apply Hsub.
  - assert (Hthis : (RouteTableKind, rt_name rt,
                     routeTableId (routeTableObject vpcItem (rt_name rt)))
                    ∈ declaredResources vpcItem)
      by (by apply declared_routeTable, list_elem_of_fmap_2).
    destruct (Hroute rt e Hrt He) as [_ Hnat].
    unfold routeResources in Hr.
    destruct (decide (re_type e = "transitGateway")).
    { destruct (ids !! re_target e); [|by pick Hr].
      destruct (last _); pick Hr. simpl in Href. pick Href. by eexists. }
    destruct (decide (re_type e = "natGateway")).
    { pick Hr. simpl in Href. pick Href; [by eexists|].
      eexists. apply declared_natGateway. by apply Hnat. }
    destruct (decide (re_type e = "internetGateway")); [|by pick Hr].
    destruct (internetGatewayId (vpcObject vpcItem)); pick Hr.
    simpl in Href. pick Href. by eexists.
  - unfold endpointResources in Hr. case_decide; pick Hr. simpl in Href.
    apply elem_of_cons in Href as [Href|Href]; [simplify_eq; eexists; apply declared_vpc|].
    apply list_elem_of_fmap in Href as (rid & [= -> ->] & Hrid).
    apply serviceRouteTables_elem in Hrid as (rt & e & Hrt & He & _ & ->).
    eexists. by apply declared_routeTable, list_elem_of_fmap_2.
Qed.

(** The attachment a route is made to depend on is one that the definition
    declares. *)
Lemma builtResources_dependencies ids vpcItem r p :
  referencesResolved ids vpcItem ->
  r ∈ builtResources env ids vpcItem -> p ∈ dependenciesOf r ->
  p ∈ attachmentPaths (builtResources env ids vpcItem).
Proof.
  intros (_ & _ & Hatt & _) Hr Hp. apply elem_of_builtResources in Hr.
  destruct Hr as [Hr|[(rt & Hrt & Hr)|[(sn & Hin & Hr)|[(ng & Hin & Hr)|[(a & Hin & Hr)
                 |[(rt & e & Hrt & He & Hr)|(item & Hin & Hr)]]]]]].
  - unfold vpcResources in Hr.
    destruct (internetGatewayId (vpcObject vpcItem)); pick Hr; simpl in Hp; by pick Hp.
  - unfold routeTableResources in Hr. pick Hr; simpl in Hp; by pick Hp.
  - unfold subnetResources in Hr. pick Hr; simpl in Hp; by pick Hp.
  - unfold natGatewayResources in Hr. pick Hr; simpl in Hp; by pick Hp.
  - unfold attachmentResources in Hr.
    destruct (ids !! gatewayName a); pick Hr; simpl in Hp; by pick Hp.
  - unfold routeResources in Hr.
    destruct (decide (re_type e = "transitGateway")).
    { destruct (ids !! re_target e); [|by pick Hr].
      destruct (last _) as [a|] eqn:Hlast; pick Hr. simpl in Hp. pick Hp.
      apply last_Some_elem_of, list_elem_of_filter in Hlast as [_ Ha].
      destruct (Hatt a Ha) as [[tgwId Hid] _].
      unfold attachmentPaths. apply elem_of_flat_map.
      exists (CfnTransitGatewayAttachment (defaultChild (attachmentObject a)) (ta_name a)
                tgwId (map (subnetIdOf vpcItem) (orEmpty (ta_subnets a)))
                (vpcId (vpcObject vpcItem))).
      split; [|by left]. apply elem_of_builtResources. do 4 right. left.
      exists a. split; [done|]. unfold attachmentResources. rewrite Hid. by left. }
    destruct (decide (re_type e = "natGateway")); [pick Hr; simpl in Hp; by pick Hp|].
    destruct (decide (re_type e = "internetGateway")); [|by pick Hr].
    destruct (internetGatewayId (vpcObject vpcItem)); pick Hr. simpl in Hp. by pick Hp.
  - unfold endpointResources in Hr. case_decide; pick Hr. simpl in Hp. by pick Hp.
Qed.

(** X7. A build that returns leaves no dangling reference: whatever a
    resource it has added refers to (the VPC of a route table, of a subnet,
    of an attachment, of an endpoint or of the gateway attachment; the subnet
    and the route table of an association; the subnet of a NAT gateway; the
    subnets of an attachment; the route table and the NAT gateway of a route;
    the route tables of an endpoint) is the identifier of a VPC, route table,
    subnet or NAT gateway created by the same build, and the resource a route
    depends on is an attachment declared by the same build. *)
Theorem built_references_are_created (ids : gmap string string) (vpcItem : VpcConfig)
    (s : Assembly) :
  (evaluateVpc env ids vpcItem s).2 = Ok tt ->
  exists added,
    resources (evaluateVpc env ids vpcItem s).1 = resources s ++ added
    /\ (forall r k id, r ∈ added -> (k, id) ∈ referencesOf r ->
                       exists name, (k, name, id) ∈ created added)
    /\ (forall r p, r ∈ added -> p ∈ dependenciesOf r -> p ∈ attachmentPaths added).
Proof.
  intros Hok. destruct (evaluateVpc_runs ids vpcItem s) as (d & Hd & Hout).
  pose proof (evaluateVpc_creates ids vpcItem s) as Hcreated.
  rewrite Hok in Hout, Hcreated. destruct Hout as (-> & Hres & _).
  destruct Hcreated as (d' & Hd' & Hcreated).
  rewrite Hd in Hd'. apply app_inv_head in Hd' as <-.
  exists (builtResources env ids vpcItem). split_and!; [done | |].
  - intros r k id Hr Href. rewrite Hcreated. by eapply builtResources_references.
  - intros r p Hr Hp. by eapply builtResources_dependencies.
Qed.

(** X8. The gateway endpoints of a build that returns are those the
    definition asks for, and they serve the route tables that ask for them
    and no other.  There is an endpoint for each item [s3] or [dynamodb] of
    [gatewayEndpoints], also when no route table has a route entry for the
    service (its list is then empty), and none for any other item, which is
    skipped without an error.  The route-table list of the endpoint of a
    service is free of duplicates and holds an identifier exactly when it is
    that of a route table of the definition with a route entry for the
    service. *)
Theorem gateway_endpoints_serve_requests_only (ids : gmap string string)
    (vpcItem : VpcConfig) (s : Assembly) :
  (evaluateVpc env ids vpcItem s).2 = Ok tt ->
  exists added,
    resources (evaluateVpc env ids vpcItem s).1 = resources s ++ added
    /\ (forall node serviceName vpcId routeTableIds,
          CfnVPCEndpoint node serviceName vpcId routeTableIds ∈ added
          <-> exists service,
                service ∈ orEmpty (vpc_gatewayEndpoints vpcItem)
                /\ (service = "s3" \/ service = "dynamodb")
                /\ node = vpcNode (vpcObject vpcItem)
                          ++ [pascalCase (vpc_name vpcItem +:+ "Vpc")
                              +:+ pascalCase service]
                /\ serviceName = gatewayServiceName service
                /\ vpcId = secureVpcId (vpcObject vpcItem)
                /\ routeTableIds = serviceRouteTables vpcItem service)
    /\ (forall service,
          NoDup (serviceRouteTables vpcItem service)
          /\ forall id,
               id ∈ serviceRouteTables vpcItem service
               <-> exists rt e,
                     rt ∈ orEmpty (vpc_routeTables vpcItem)
                     /\ e ∈ orEmpty (rt_routes rt)
                     /\ serviceEntry service e
                     /\ id = routeTableId (routeTableObject vpcItem (rt_name rt))).
Proof.
  intros Hok. destruct (evaluateVpc_runs ids vpcItem s) as (d & Hd & Hout).
  rewrite Hok in Hout. destruct Hout as (-> & _).
  exists (builtResources env ids vpcItem). split_and!; [done | |].
  - intros node serviceName vid routeTableIds. rewrite elem_of_builtResources. split.
    + intros [Hr|[(rt & Hrt & Hr)|[(sn & Hin & Hr)|[(ng & Hin & Hr)|[(a & Hin & Hr)
               |[(rt & e & Hrt & He & Hr)|(item & Hin & Hr)]]]]]].
      * unfold vpcResources in Hr.
        destruct (internetGatewayId (vpcObject vpcItem)); by pick Hr.
      * unfold routeTableResources in Hr. by pick Hr.
      * unfold subnetResources in Hr. by pick Hr.
      * unfold natGatewayResources in Hr. by pick Hr.
      * unfold attachmentResources in Hr. destruct (ids !! gatewayName a); by pick Hr.
      * unfold routeResources in Hr.
        repeat case_decide; try (by pick Hr).
        -- destruct (ids !! re_target e); [|by pick Hr]. destruct (last _); by pick Hr.
        -- destruct (internetGatewayId (vpcObject vpcItem)); by pick Hr.
      * unfold endpointResources in Hr. case_decide as Hitem; pick Hr. by exists item.
    + intros (service & Hin & Hitem & -> & -> & -> & ->). do 6 right.
      exists service. split; [done|]. unfold endpointResources.
      rewrite decide_True by done. by left.
  - intros service. split; [|apply serviceRouteTables_elem].
    apply fold_pushIfAbsent_NoDup, NoDup_nil_2.
Qed.

(** *** Guards that never fire *)

Lemma firstToName_exists visited name :
  name ∈ map gatewayName visited ->
  exists a, firstToName visited a /\ gatewayName a = name.
Proof.
  induction visited as [|a0 visited IH]; intros Hin; [by apply elem_of_nil in Hin|].
  destruct (decide (gatewayName a0 = name)) as [Heq|Hne].
  - exists a0. split; [|done]. exists [], visited. split; [done | apply not_elem_of_nil].
  - simpl in Hin. apply elem_of_cons in Hin as [?|Hin]; [congruence|].
    destruct (IH Hin) as (a & (pre & post & -> & Hpre) & Ha).
    exists a. split; [|done]. exists (a0 :: pre), post. split; [done|].
    simpl. rewrite not_elem_of_cons. split; [congruence | done].
Qed.

(** X9. Two guards of the constructor never fire.  The transit gateway of
    an attachment of a VPC of the stack is always found in the map of
    identifiers, since the resolution pass has visited the attachment: the
    identifier found is the one looked up for the first attachment that names
    the transit gateway, whose owner decides how it is looked up, the owner
    given by the attachment itself being ignored when it is not the first.
    And the error [Route Table N not found] of the loop over the route
    entries is never thrown, the route tables being looked up under the
    names they were stored under. *)
Theorem attachment_gateway_is_resolved :
  let vpcItems := orEmpty (vpcs (networkConfig props)) in
  (forall v a,
      v ∈ vpcsInThisStack env props vpcItems ->
      a ∈ orEmpty (vpc_transitGatewayAttachments v) ->
      exists a0,
        firstToName (visitedAttachments env props vpcItems) a0
        /\ gatewayName a0 = gatewayName a
        /\ (resolved env props vpcItems).1 !! gatewayName a
           = Some (lookedUpId env props a0))
  /\ (forall s msg name,
        (NetworkVpcStack env props s).2 = Throw msg ->
        msg <> "Route Table " +:+ name +:+ " not found").
Proof.
  intros vpcItems. split.
  - intros v a Hv Ha.
    assert (Hin : gatewayName a ∈ map gatewayName (visitedAttachments env props vpcItems)).
    { apply list_elem_of_fmap_2. unfold visitedAttachments. apply elem_of_flat_map.
      by exists v. }
    destruct (firstToName_exists _ _ Hin) as (a0 & Hfirst & Heq).
    exists a0. split_and!; [done | done |]. rewrite <- Heq.
    apply (resolution_first _ (∅, [])). by apply firstNew_empty.
  - intros s msg name Hthrow Hmsg.
    destruct (NetworkVpcStack_run s) as (? & ? & ? & _ & _ & _ & _ & _ & _ & _ & Hout).
    rewrite Hthrow in Hout. destruct Hout as (v & _ & [->|[n Hun]]); [done|].
    destruct Hun; simpl in Hmsg; discriminate Hmsg.
Qed.

(** *** Edge cases of the tests on optional values *)

(** X10. The guard of the internet-gateway route is a test of truthiness:
    the call returns exactly when the VPC has a gateway identifier that is
    not the empty string; a VPC object whose identifier is the empty string
    is refused like one that has none, with the same error and nothing
    declared. *)
Theorem addInternetGatewayRoute_truthiness (this : SecureRouteTable)
    (id destination : string) (s : Assembly) :
  ((addInternetGatewayRoute this id destination s).2 = Ok tt
   <-> exists igw, internetGatewayId (vpc this) = Some igw /\ igw <> "")
  /\ (internetGatewayId (vpc this) = Some "" ->
      addInternetGatewayRoute this id destination s = (s, Throw igwError)).
Proof.
  rewrite addInternetGatewayRoute_guard. split.
  - destruct (internetGatewayId (vpc this)) as [igw|].
    + destruct (decide (igw = "")) as [->|Hne]; simpl.
      * split; [done|]. by intros (igw & [= <-] & Hne).
      * split; [by exists igw | done].
    + simpl. split; [done | by intros (igw & [=] & _)].
  - intros ->. reflexivity.
Qed.

(** X11. An owner that [props.accountIds] does not know is taken for another
    account.  When the attachment that is first to name a transit gateway
    gives an owner whose account identifier is undefined, the resolution
    pass does not throw: it looks the transit gateway up in a resource share
    whose owning account is undefined, stores the identifier of the shared
    item, and records the undefined owner among the accounts for which the
    cross-account role is declared. *)
Theorem unknown_owner_is_taken_for_foreign (vpcItems : list VpcConfig) (s : Assembly)
    (a : TransitGatewayAttachmentConfig) :
  firstToName (visitedAttachments env props vpcItems) a ->
  owningAccount props a = None ->
  let shareName := pascalCase (gatewayName a +:+ "TransitGatewayShare") in
  exists s',
    resolveTransitGateways env props vpcItems (∅, []) s
    = (s', Ok (resolved env props vpcItems))
    /\ ResourceShareLookup [shareName] OTHER_ACCOUNTS shareName None ∈ resources s'
    /\ (resolved env props vpcItems).1 !! gatewayName a
       = Some (resourceShareItemId (resourceShareId shareName None) "ec2:TransitGateway")
    /\ None ∈ (resolved env props vpcItems).2
    /\ accessRoleFor (resolved env props vpcItems).2
       = [Role ["DescribeTransitGatewaysAttachmentsRole"]
            "AWSAccelerator-DescribeTransitGatewayAttachmentsRole"
            (resolved env props vpcItems).2
            ["ec2:DescribeTransitGatewayAttachments"] ["*"]].
Proof.
  intros Hfirst Howner shareName.
  assert (Hnew : firstNew (∅ : gmap string string)
                   (visitedAttachments env props vpcItems) a)
    by (by apply firstNew_empty).
  destruct (resolveTransitGateways_lookups (visitedAttachments env props vpcItems)
              (∅, []) [] s) as (s' & Hrun & Hres).
  { intros name. simpl. rewrite lookup_empty.
    split; [by intros H%elem_of_nil | by intros [? ?]]. }
  assert (Hin : None ∈ (resolved env props vpcItems).2).
  { unfold resolved. apply resolution_owners. right. exists a. by split_and!. }
  exists s'. split_and!.
  - by rewrite resolveTransitGateways_visited.
  - rewrite Hres. apply elem_of_app. right. apply elem_of_flat_map. exists a. split.
    + apply (newlyNamed_firstNew _ [] ∅); [|done].
      intros name. rewrite lookup_empty.
      split; [by intros H%elem_of_nil | by intros [? ?]].
    + unfold lookupResources. rewrite Howner, decide_False by done. by left.
  - unfold resolved. rewrite (resolution_first _ (∅, []) a Hnew).
    unfold lookedUpId. by rewrite Howner, decide_False by done.
  - exact Hin.
  - unfold accessRoleFor. destruct ((resolved env props vpcItems).2); [|done].
    by apply elem_of_nil in Hin.
Qed.

End Properties.

(** ** The model on the sample data *)

#[local] Existing Instance sampleSdk.

Lemma sampleSdk_token (p : Path) : cfnRef p <> "".
Proof. discriminate. Qed.

(** The constructor on [sampleNetwork]: the identifiers are published under
    the documented names; the route to the transit gateway [Hub] depends on
    the attachment [HubB], the last of the two; each endpoint list holds a
    route table once. *)
Example sampleNetwork_published :
  published (resources (NetworkVpcStack sampleEnv (sampleProps [sampleNetwork])
                          emptyAssembly).1)
  = [("/accelerator/NetworkVpcStack/stack-id", "stack-1");
     ("/accelerator/network/vpc/Main/id", "${MainVpc/Resource.Ref}");
     ("/accelerator/network/vpc/Main/routeTable/Public/id",
      "${MainVpcPublicRouteTable/Resource.Ref}");
     ("/accelerator/network/vpc/Main/routeTable/Private/id",
      "${MainVpcPrivateRouteTable/Resource.Ref}");
     ("/accelerator/network/vpc/Main/subnet/Web/id", "${MainVpcWebSubnet/Resource.Ref}");
     ("/accelerator/network/vpc/Main/subnet/App/id", "${MainVpcAppSubnet/Resource.Ref}");
     ("/accelerator/network/vpc/Main/natGateway/Egress/id",
      "${MainVpcEgressNatGateway/Resource.Ref}");
     ("/accelerator/network/vpc/Main/transitGatewayAttachment/HubA/id",
      "${HubAVpcTransitGatewayAttachment/Resource.Ref}");
     ("/accelerator/network/vpc/Main/transitGatewayAttachment/HubB/id",
      "${HubBVpcTransitGatewayAttachment/Resource.Ref}")].
Proof. vm_compute. reflexivity. Qed.

Example sampleNetwork_routes_and_endpoints :
  filter (fun r => isRouteOrEndpoint r = true)
    (resources (NetworkVpcStack sampleEnv (sampleProps [sampleNetwork]) emptyAssembly).1)
  = [CfnRoute ["MainVpcPublicRouteTable"; "MainVpcPublicRouteTableDefault"]
       "${MainVpcPublicRouteTable/Resource.Ref}" "0.0.0.0/0"
       (GatewayId "${MainVpc/InternetGateway.Ref}") [];
     CfnRoute ["MainVpcPrivateRouteTable"; "MainVpcPrivateRouteTableOut"]
       "${MainVpcPrivateRouteTable/Resource.Ref}" "0.0.0.0/0"
       (NatGatewayId "${MainVpcEgressNatGateway/Resource.Ref}") [];
     CfnRoute ["MainVpcPrivateRouteTable"; "MainVpcPrivateRouteTableHub"]
       "${MainVpcPrivateRouteTable/Resource.Ref}" "10.0.0.0/8"
       (TransitGatewayId "${item:${share:HubTransitGatewayShare}}")
       [["HubBVpcTransitGatewayAttachment"; "Resource"]];
     CfnVPCEndpoint ["MainVpc"; "MainVpcs3"] "com.amazonaws.region.s3"
       "${MainVpc/Resource.Ref}"
       ["${MainVpcPublicRouteTable/Resource.Ref}";
        "${MainVpcPrivateRouteTable/Resource.Ref}"];
     CfnVPCEndpoint ["MainVpc"; "MainVpcdynamodb"] "com.amazonaws.region.dynamodb"
       "${MainVpc/Resource.Ref}" ["${MainVpcPrivateRouteTable/Resource.Ref}"]].
Proof. vm_compute. reflexivity. Qed.

(** The scenario of the specification: a VPC without internet gateway and a
    route entry of type [internetGateway].  The synthesis throws at the route
    entry; no route has been declared. *)
Example internet_route_without_gateway :
  NetworkVpcStack sampleEnv
    (sampleProps
       [mkVpcConfig "A" "network" "eu-west-1" ["10.0.0.0/16"] (Some false)
          None None None
          (Some [mkRouteTableConfig "Public"
                   (Some [mkRouteTableEntryConfig "Default" "0.0.0.0/0"
                            "internetGateway" "IGW"])])
          (Some [mkSubnetConfig "Web" "a" "Public" "10.0.1.0/24" None])
          None None None])
    emptyAssembly
  = (mkAssembly
       [StringParameter ["SsmParamStackId"] "/accelerator/NetworkVpcStack/stack-id"
          "stack-1";
        CfnVPC ["AVpc"; "Resource"] (Some "10.0.0.0/16") (Some false) (Some true)
          (Some "default") "A";
        StringParameter ["SsmParamAVpcId"] "/accelerator/network/vpc/A/id"
          "${AVpc/Resource.Ref}";
        CfnRouteTable ["AVpcPublicRouteTable"; "Resource"] "${AVpc/Resource.Ref}"
          "Public";
        StringParameter ["SsmParamAPublicRouteTableId"]
          "/accelerator/network/vpc/A/routeTable/Public/id"
          "${AVpcPublicRouteTable/Resource.Ref}";
        CfnSubnet ["AVpcWebSubnet"; "Resource"] "${AVpc/Resource.Ref}" "10.0.1.0/24"
          "eu-west-1a" None "Web";
        CfnSubnetRouteTableAssociation ["AVpcWebSubnet"; "RouteTableAssociation"]
          "${AVpcWebSubnet/Resource.Ref}" "${AVpcPublicRouteTable/Resource.Ref}";
        StringParameter ["SsmParamAWebSubnetId"]
          "/accelerator/network/vpc/A/subnet/Web/id" "${AVpcWebSubnet/Resource.Ref}"]
       ["Adding VPC A"; "Adding subnet Web";
        "Adding Internet Gateway Route Table Entry Default"],
     Throw igwError).
Proof. vm_compute. reflexivity. Qed.

(** *** Instances of the theorems *)

Lemma addInternetGatewayRoute_requires_gateway_witness :
  (forall p : Path, cfnRef p <> "")
  /\ addInternetGatewayRoute
       (sampleRouteTableObject (vpcObject (sampleVpc "Main" None)))
       "Default" "0.0.0.0/0" emptyAssembly
     = (emptyAssembly, Throw igwError)
  /\ addInternetGatewayRoute
       (sampleRouteTableObject (vpcObject (sampleVpc "Main" (Some true))))
       "Default" "0.0.0.0/0" emptyAssembly
     = (mkAssembly
          [CfnRoute ["MainVpcPublicRouteTable"; "Default"]
             "${MainVpcPublicRouteTable/Resource.Ref}" "0.0.0.0/0"
             (GatewayId "${MainVpc/InternetGateway.Ref}") []]
          [], Ok tt).
Proof.
  destruct (addInternetGatewayRoute_requires_gateway sampleSdk_token)
    as (Hnone & Hsome & _ & _).
  split; [exact sampleSdk_token|]. split.
  - apply Hnone. reflexivity.
  - apply (Hsome (sampleRouteTableObject (vpcObject (sampleVpc "Main" (Some true))))
             "${MainVpc/InternetGateway.Ref}"); [reflexivity | discriminate].
Defined.

Lemma unresolved_reference_aborts_witness :
  ((∅ : gmap string SecureRouteTable) !! "Public" = None
   /\ abortsNaming
        (bind (forEach (createSubnet sampleEnv danglingSubnet (vpcObject danglingSubnet) ∅)
                 [mkSubnetConfig "Web" "a" "Public" "10.0.1.0/24" None;
                  mkSubnetConfig "App" "b" "Public" "10.0.2.0/24" None] ∅)
           (fun _ => declare (DeleteDefaultVpc ["Later"])))
        emptyAssembly "Adding subnet Web" "Public")
  /\ (UnresolvedReference
        (resolved sampleEnv (sampleProps [danglingSubnet]) [danglingSubnet]).1
        danglingSubnet "Public" "Route table Public not defined"
      /\ exists msg',
           (NetworkVpcStack sampleEnv (sampleProps [danglingSubnet]) emptyAssembly).2
           = Throw msg').
Proof.
  pose proof (unresolved_reference_aborts sampleEnv (sampleProps [danglingSubnet]) unit)
    as (Hsubnet & _ & _ & _ & _ & _ & Hpass).
  split.
  - split; [reflexivity|]. apply Hsubnet. reflexivity.
  - assert (Hin : danglingSubnet
                  ∈ vpcsInThisStack sampleEnv (sampleProps [danglingSubnet])
                      [danglingSubnet])
      by (apply list_elem_of_filter; split; [reflexivity | left]).
    assert (Hun : UnresolvedReference
                    (resolved sampleEnv (sampleProps [danglingSubnet]) [danglingSubnet]).1
                    danglingSubnet "Public" "Route table Public not defined").
    { apply (unresolved_route_table _ danglingSubnet
               (mkSubnetConfig "Web" "a" "Public" "10.0.1.0/24" None)).
      - left.
      - apply not_elem_of_nil. }
    split; [exact Hun|].
    destruct (Hpass danglingSubnet "Public" "Route table Public not defined"
                emptyAssembly Hin Hun) as (msg' & Hmsg' & _).
    by exists msg'.
Defined.

Lemma createRouteTableEntry_unrecognised_witness :
  let e := mkRouteTableEntryConfig "Odd" "10.9.0.0/16" "peering" "Elsewhere" in
  (re_type e <> "transitGateway" /\ re_type e <> "natGateway"
   /\ re_type e <> "internetGateway" /\ re_target e <> "s3"
   /\ re_target e <> "dynamodb")
  /\ createRouteTableEntry sampleNetwork ∅ ∅ ∅ (mkRouteTableConfig "Private" None)
       (routeTableObject sampleNetwork "Private") (["rtb-1"], []) e emptyAssembly
     = (emptyAssembly, Ok (["rtb-1"], [])).
Proof.
  intros e.
  assert (H : re_type e <> "transitGateway" /\ re_type e <> "natGateway"
              /\ re_type e <> "internetGateway" /\ re_target e <> "s3"
              /\ re_target e <> "dynamodb")
    by (repeat split; discriminate).
  split; [exact H|].
  destruct H as (H1 & H2 & H3 & H4 & H5).
  exact (createRouteTableEntry_unrecognised sampleNetwork ∅ ∅ ∅
           (mkRouteTableConfig "Private" None) (routeTableObject sampleNetwork "Private")
           (["rtb-1"], []) e emptyAssembly H1 H2 H3 H4 H5).
Defined.

Lemma NetworkVpcStack_ignores_other_stacks_witness :
  Forall (fun v => inThisStack sampleEnv (sampleProps []) v = false)
    [otherRegion; otherAccount]
  /\ NetworkVpcStack sampleEnv (sampleProps [otherRegion; otherAccount]) emptyAssembly
     = NetworkVpcStack sampleEnv (sampleProps []) emptyAssembly.
Proof.
  assert (H : Forall (fun v => inThisStack sampleEnv (sampleProps []) v = false)
                [otherRegion; otherAccount])
    by (repeat constructor).
  split; [exact H|].
  exact (proj2 (proj2 (NetworkVpcStack_ignores_other_stacks sampleEnv (sampleProps [])))
           [otherRegion; otherAccount] emptyAssembly H).
Defined.

Lemma configuration_errors_report_the_name_witness :
  (NetworkVpcStack sampleEnv (sampleProps [danglingSubnet]) emptyAssembly).2
  = Throw "Route table Public not defined"
  /\ ("Route table Public not defined" = igwError
      \/ exists vpcItem name,
           vpcItem ∈ vpcsInThisStack sampleEnv (sampleProps [danglingSubnet])
                       [danglingSubnet]
           /\ UnresolvedReference
                (resolved sampleEnv (sampleProps [danglingSubnet]) [danglingSubnet]).1
                vpcItem name "Route table Public not defined"
           /\ includes "Route table Public not defined" name = true).
Proof.
  assert (H : (NetworkVpcStack sampleEnv (sampleProps [danglingSubnet]) emptyAssembly).2
              = Throw "Route table Public not defined")
    by (vm_compute; reflexivity).
  split; [exact H|].
  exact (configuration_errors_report_the_name sampleEnv (sampleProps [danglingSubnet])
           emptyAssembly "Route table Public not defined" H).
Defined.

(** C9, as the claim states it, fails: the message of an unresolved reference
    names neither the VPC ([Main]) nor the subnet ([Web]) or the route table
    ([Private]) that contains the reference. *)
Lemma error_message_omits_the_container :
  ((NetworkVpcStack sampleEnv (sampleProps [danglingSubnet]) emptyAssembly).2
   = Throw "Route table Public not defined"
   /\ includes "Route table Public not defined" "Public" = true
   /\ includes "Route table Public not defined" "Main" = false
   /\ includes "Route table Public not defined" "Web" = false)
  /\ ((NetworkVpcStack sampleEnv (sampleProps [danglingRoute]) emptyAssembly).2
      = Throw "NAT Gateway Egress not found"
      /\ includes "NAT Gateway Egress not found" "Egress" = true
      /\ includes "NAT Gateway Egress not found" "Main" = false
      /\ includes "NAT Gateway Egress not found" "Private" = false).
Proof. vm_compute. repeat split. Qed.

Lemma attachments_keyed_by_transit_gateway_witness :
  exists s' m,
    forEach (createTransitGatewayAttachment sampleNetwork (vpcObject sampleNetwork)
               (<["Hub" := "tgw-1"]> ∅) ∅)
      [hubA; hubB] ∅ emptyAssembly
    = (s', Ok m)
    /\ m !! "Hub" = Some (attachmentObject hubB).
Proof.
  pose (run := forEach (createTransitGatewayAttachment sampleNetwork
                          (vpcObject sampleNetwork) (<["Hub" := "tgw-1"]> ∅) ∅)
                 [hubA; hubB] ∅ emptyAssembly).
  assert (H : run = (run.1, Ok (<["Hub" := attachmentObject hubB]> ∅)))
    by (vm_compute; reflexivity).
  exists run.1, (<["Hub" := attachmentObject hubB]> ∅). split; [exact H|].
  destruct (attachments_keyed_by_transit_gateway _ _ _ _ _ _ _ _ H) as (_ & _ & Hkey).
  apply (Hkey [] hubA [] hubB []); [reflexivity | reflexivity | apply not_elem_of_nil].
Defined.

Lemma transitGatewayIds_populated_once_witness :
  is_Some ((<["Hub" := "tgw-1"]> ∅ : gmap string string) !! gatewayName hubB)
  /\ exists s',
       resolveTransitGateway sampleEnv (sampleProps []) (<["Hub" := "tgw-1"]> ∅, []) hubB
         emptyAssembly
       = (s', Ok (<["Hub" := "tgw-1"]> ∅, []))
       /\ resources s' = resources emptyAssembly.
Proof.
  assert (H : is_Some ((<["Hub" := "tgw-1"]> ∅ : gmap string string) !! gatewayName hubB))
    by (exists "tgw-1"; reflexivity).
  split; [exact H|].
  exact (proj1 (transitGatewayIds_populated_once sampleEnv (sampleProps []))
           (<["Hub" := "tgw-1"]> ∅) [] hubB emptyAssembly H).
Defined.

Lemma access_role_iff_foreign_transit_gateway_witness :
  Forall (fun a => owningAccount (sampleProps [localHub]) a = Some (account sampleEnv))
    (visitedAttachments sampleEnv (sampleProps [localHub]) [localHub])
  /\ roles (resources (NetworkVpcStack sampleEnv (sampleProps [localHub])
                         emptyAssembly).1)
     = roles (resources emptyAssembly).
Proof.
  assert (H : Forall (fun a => owningAccount (sampleProps [localHub]) a
                               = Some (account sampleEnv))
                (visitedAttachments sampleEnv (sampleProps [localHub]) [localHub]))
    by (repeat constructor).
  split; [exact H|].
  exact (proj2 (proj2 (proj2 (proj2
           (access_role_iff_foreign_transit_gateway sampleEnv (sampleProps [localHub])
              emptyAssembly)))) H).
Defined.

(** On [sampleNetwork], whose transit gateway belongs to another account,
    the role is declared once, trusted by that account. *)
Example sampleNetwork_role :
  roles (resources (NetworkVpcStack sampleEnv (sampleProps [sampleNetwork])
                      emptyAssembly).1)
  = [Role ["DescribeTransitGatewaysAttachmentsRole"]
       "AWSAccelerator-DescribeTransitGatewayAttachmentsRole"
       [Some "222222222222"] ["ec2:DescribeTransitGatewayAttachments"] ["*"]].
Proof. vm_compute. reflexivity. Qed.

(** *** Instances of the further properties *)

(** The build of [sampleNetwork] returns, with the resources of the
    definition. *)
Lemma evaluateVpc_builds_definition_witness :
  (evaluateVpc sampleEnv hubIds sampleNetwork emptyAssembly).2 = Ok tt
  /\ resources (evaluateVpc sampleEnv hubIds sampleNetwork emptyAssembly).1
     = resources emptyAssembly ++ builtResources sampleEnv hubIds sampleNetwork.
Proof.
  assert (H : (evaluateVpc sampleEnv hubIds sampleNetwork emptyAssembly).2 = Ok tt)
    by (vm_compute; reflexivity).
  split; [exact H|].
  exact (evaluateVpc_builds_definition sampleEnv hubIds sampleNetwork emptyAssembly H).
Defined.



(** The constructor on [sampleNetwork] and a VPC of another region. *)
Lemma NetworkVpcStack_builds_configuration_witness :
  (NetworkVpcStack sampleEnv (sampleProps [sampleNetwork; otherRegion]) emptyAssembly).2
  = Ok tt
  /\ resources (NetworkVpcStack sampleEnv (sampleProps [sampleNetwork; otherRegion])
                  emptyAssembly).1
     = resources emptyAssembly
       ++ constructedResources sampleEnv (sampleProps [sampleNetwork; otherRegion]).
Proof.
  assert (H : (NetworkVpcStack sampleEnv (sampleProps [sampleNetwork; otherRegion])
                 emptyAssembly).2 = Ok tt)
    by (vm_compute; reflexivity).
  split; [exact H|].
  exact (NetworkVpcStack_builds_configuration sampleEnv
           (sampleProps [sampleNetwork; otherRegion]) emptyAssembly H).
Defined.


Lemma built_references_are_created_witness :
  (evaluateVpc sampleEnv hubIds sampleNetwork emptyAssembly).2 = Ok tt
  /\ exists added,
       resources (evaluateVpc sampleEnv hubIds sampleNetwork emptyAssembly).1
       = resources emptyAssembly ++ added
       /\ (forall r k id, r ∈ added -> (k, id) ∈ referencesOf r ->
                          exists name, (k, name, id) ∈ created added)
       /\ (forall r p, r ∈ added -> p ∈ dependenciesOf r -> p ∈ attachmentPaths added).
Proof.
  assert (H : (evaluateVpc sampleEnv hubIds sampleNetwork emptyAssembly).2 = Ok tt)
    by (vm_compute; reflexivity).
  split; [exact H|].
  exact (built_references_are_created sampleEnv hubIds sampleNetwork emptyAssembly H).
Defined.

Lemma gateway_endpoints_serve_requests_only_witness :
  (evaluateVpc sampleEnv hubIds sampleNetwork emptyAssembly).2 = Ok tt
  /\ exists added,
       resources (evaluateVpc sampleEnv hubIds sampleNetwork emptyAssembly).1
       = resources emptyAssembly ++ added
       /\ CfnVPCEndpoint ["MainVpc"; "MainVpcdynamodb"] "com.amazonaws.region.dynamodb"
            "${MainVpc/Resource.Ref}" ["${MainVpcPrivateRouteTable/Resource.Ref}"]
          ∈ added.
Proof.
  assert (H : (evaluateVpc sampleEnv hubIds sampleNetwork emptyAssembly).2 = Ok tt)
    by (vm_compute; reflexivity).
  split; [exact H|].
  destruct (gateway_endpoints_serve_requests_only sampleEnv hubIds sampleNetwork
              emptyAssembly H) as (added & Hadded & Hendpoints & _).
  exists added. split; [exact Hadded|].
  apply Hendpoints. exists "dynamodb". split_and!; try reflexivity.
  - right. left.
  - by right.
Defined.

(** The two attachments of [sampleNetwork] name the transit gateway [Hub];
    the identifier found for the second, [HubB], is the one looked up for the
    first, [HubA]. *)
Lemma attachment_gateway_is_resolved_witness :
  exists a0,
    firstToName (visitedAttachments sampleEnv (sampleProps [sampleNetwork])
                   [sampleNetwork]) a0
    /\ gatewayName a0 = "Hub"
    /\ (resolved sampleEnv (sampleProps [sampleNetwork]) [sampleNetwork]).1 !! "Hub"
       = Some (lookedUpId sampleEnv (sampleProps [sampleNetwork]) a0).
Proof.
  apply (proj1 (attachment_gateway_is_resolved sampleEnv (sampleProps [sampleNetwork]))
           sampleNetwork
           (mkTransitGatewayAttachmentConfig "HubB" (mkTransitGatewayRef "Hub" "transit")
              (Some ["Web"; "App"]))).
  - apply list_elem_of_filter. split; [reflexivity | left].
  - right. left.
Defined.

(** On [sampleNetwork] with a transit gateway of the account of the stack
    beside it, the pass reads one parameter and looks one share up. *)
Example sample_lookups :
  flat_map (lookupResources sampleEnv (sampleProps [sampleNetwork; localHub]))
    (newlyNamed [] (visitedAttachments sampleEnv (sampleProps [sampleNetwork; localHub])
                      [sampleNetwork; localHub]))
  = [ResourceShareLookup ["HubTransitGatewayShare"] OTHER_ACCOUNTS "HubTransitGatewayShare"
       (Some "222222222222");
     ResourceShareItemLookup ["HubTransitGateway"] "${share:HubTransitGatewayShare}"
       "ec2:TransitGateway";
     StringParameterLookup "/accelerator/network/transitGateways/Core/id"].
Proof. vm_compute. reflexivity. Qed.

(** A route table of a VPC object whose gateway identifier is the empty
    string. *)
Lemma addInternetGatewayRoute_truthiness_witness :
  addInternetGatewayRoute
    (sampleRouteTableObject (mkSecureVpc ["MainVpc"] "${MainVpc/Resource.Ref}" (Some "")))
    "Default" "0.0.0.0/0" emptyAssembly
  = (emptyAssembly, Throw igwError).
Proof.
  apply (proj2 (addInternetGatewayRoute_truthiness
                  (sampleRouteTableObject
                     (mkSecureVpc ["MainVpc"] "${MainVpc/Resource.Ref}" (Some "")))
                  "Default" "0.0.0.0/0" emptyAssembly)).
  reflexivity.
Defined.

(** The owner [nobody] of the transit gateway [Lost] has no account
    identifier: the share is looked up with an undefined owner, which is also
    the principal of the role. *)
Lemma unknown_owner_is_taken_for_foreign_witness :
  let stray := mkTransitGatewayAttachmentConfig "Stray"
                 (mkTransitGatewayRef "Lost" "nobody") None in
  (firstToName (visitedAttachments sampleEnv (sampleProps [strayHub]) [strayHub]) stray
   /\ owningAccount (sampleProps [strayHub]) stray = None)
  /\ exists s',
       resolveTransitGateways sampleEnv (sampleProps [strayHub]) [strayHub] (∅, [])
         emptyAssembly
       = (s', Ok (resolved sampleEnv (sampleProps [strayHub]) [strayHub]))
       /\ ResourceShareLookup ["LostTransitGatewayShare"] OTHER_ACCOUNTS
            "LostTransitGatewayShare" None ∈ resources s'
       /\ accessRoleFor (resolved sampleEnv (sampleProps [strayHub]) [strayHub]).2
          = [Role ["DescribeTransitGatewaysAttachmentsRole"]
               "AWSAccelerator-DescribeTransitGatewayAttachmentsRole"
               [None] ["ec2:DescribeTransitGatewayAttachments"] ["*"]].
Proof.
  intros stray.
  assert (H1 : firstToName (visitedAttachments sampleEnv (sampleProps [strayHub])
                              [strayHub]) stray).
  { exists [], []. split; [reflexivity | apply not_elem_of_nil]. }
  assert (H2 : owningAccount (sampleProps [strayHub]) stray = None) by reflexivity.
  split; [by split|].
  destruct (unknown_owner_is_taken_for_foreign sampleEnv (sampleProps [strayHub])
              [strayHub] emptyAssembly stray H1 H2)
    as (s' & Hrun & Hlookup & _ & _ & Hrole).
  exists s'. split_and!; [exact Hrun | exact Hlookup | exact Hrole].
Defined.
